(** * fio: a concurrent direct-I/O write latency benchmark

    A shallow embedding of the Go program (the drive resolver, the
    direct-I/O writer, the batch scheduler and the latency report) and
    the properties its specification states about it.

    Conventions.
    - Go's [int], [int64] and [uint64] are [Z], with the wrap-around of a
      conversion or an addition written out ([to_int64]).
    - [log.Fatal] and run-time panics are outcomes of a computation
      ([Fatal], [Panic]); a loop of the program that is not structurally
      bounded takes fuel and yields [OutOfFuel] when it runs out.
    - The operating system, the clock and the random generators are an
      oracle record ([Env]): the program is a function of it.
    - The goroutines of one batch are run in launch order; the wait-group
      barrier is the end of the batch. *)

From Stdlib Require Import ZArith List String Ascii Lia Bool QArith.
From Stdlib Require Import DecimalString DecimalZ DecimalPos.
From Stdlib.Strings Require Import Byte.
From stdpp Require Import base gmap strings list sorting.
Import ListNotations.
Open Scope Z_scope.

(** ** Outcomes and errors *)

(** A Go [error] value, as far as the program tells errors apart. *)
Inductive error : Type :=
| errorString (s : string)             (* errors.New, fmt.Errorf *)
| Errno (e : Z)                        (* syscall.Errno *)
| PathError (op path : string) (e : Z) (* *os.PathError around an errno *).

#[global] Instance error_eq_dec : EqDecision error.
Proof. solve_decision. Defined.

Definition EEXIST : Z := 17.
Definition ENOENT : Z := 2.
Definition EBADF : Z := 9.
Definition ENOSPC : Z := 28.

Definition Z_to_string (z : Z) : string := NilZero.string_of_int (Z.to_int z).

(** [syscall.Errno.Error]: the message table, for the numbers used here. *)
Definition errno_message (e : Z) : string :=
  if e =? EEXIST then "file exists"
  else if e =? ENOENT then "no such file or directory"
  else if e =? EBADF then "bad file descriptor"
  else if e =? ENOSPC then "no space left on device"
  else ("errno " ++ Z_to_string e)%string.

(** [err.Error()]. *)
Definition Error (e : error) : string :=
  match e with
  | errorString s => s
  | Errno n => errno_message n
  | PathError op path n => (op ++ " " ++ path ++ ": " ++ errno_message n)%string
  end.

(** How a computation ends: a value, [log.Fatal] (the process exits with
    the message), a run-time panic, or no more fuel. *)
Inductive Res (A : Type) : Type :=
| Ok (a : A)
| Fatal (msg : string)
| Panic (msg : string)
| OutOfFuel.
Arguments Ok {A} a.
Arguments Fatal {A} msg.
Arguments Panic {A} msg.
Arguments OutOfFuel {A}.

Definition res_bind {A B} (r : Res A) (k : A -> Res B) : Res B :=
  match r with
  | Ok a => k a
  | Fatal m => Fatal m
  | Panic m => Panic m
  | OutOfFuel => OutOfFuel
  end.

(** Conversion to a signed 64-bit integer: [int(x)], [int64(x)]. *)
Definition to_int64 (z : Z) : Z := (z + 2 ^ 63) mod 2 ^ 64 - 2 ^ 63.

Definition len_ {A} (l : list A) : Z := Z.of_nat (length l).

(** ** Drive target resolver *)

(** Modelled from the spec: [strings.Split] is Go's standard library
    ("comma-separated entries"). For a one-byte separator it gives the
    pieces between the occurrences of [sep], in order; by its
    documentation a string that does not contain [sep], the empty string
    too, gives a slice of length 1 whose only element is the string. *)
Fixpoint strings_Split (s : string) (sep : ascii) : list string :=
  match s with
  | EmptyString => [EmptyString]
  | String c rest =>
      if Ascii.eqb c sep then EmptyString :: strings_Split rest sep
      else match strings_Split rest sep with
           | [] => [String c EmptyString]
           | piece :: pieces => String c piece :: pieces
           end
  end.

Definition comma : ascii := ","%char.

Section Resolver.

(** The ellipses package ([HasEllipses], [FindEllipsesPatterns],
    [Pattern.Expand]) is imported by the program; the resolver is
    stated over any implementation of it. *)
Variable Pattern : Type.
Variable HasEllipses : string -> bool.
Variable FindEllipsesPatterns : string -> list Pattern * option error.
Variable Expand : Pattern -> list string.

(** The body of [for _, p := range patterns]. *)
Fixpoint expand_patterns (dst : list string) (patterns : list Pattern) : list string :=
  match patterns with
  | [] => dst
  | p :: ps => expand_patterns (dst ++ Expand p) ps
  end.

(** The body of [for _, drive := range drives], [dst] being the slice
    appended to. *)
Fixpoint parseDrives_loop (dst : list string) (drives : list string) : Res (list string) :=
  match drives with
  | [] => Ok dst
  | drive :: rest =>
      if negb (HasEllipses drive) then parseDrives_loop (dst ++ [drive]) rest
      else
        let '(patterns, err) := FindEllipsesPatterns drive in
        match err with
        | Some e => Fatal (Error e)
        | None => parseDrives_loop (expand_patterns dst patterns) rest
        end
  end.

Definition parseDrives (h : string) : Res (list string) :=
  let drives := strings_Split h comma in
  parseDrives_loop [] drives.

(** The first two statements of [main]: resolve, then refuse an empty
    drive list. *)
Definition main_drives (DRIVES : string) : Res (list string) :=
  res_bind (parseDrives DRIVES) (fun drives =>
    if len_ drives =? 0 then Fatal "DRIVES is a mandatory env option"
    else Ok drives).

(** What one entry of the specification stands for. *)
Definition is_literal (drive : string) : bool := negb (HasEllipses drive).

Definition entry_paths (drive : string) : list string :=
  if is_literal drive then [drive]
  else concat (map Expand (fst (FindEllipsesPatterns drive))).

(** An entry with a range pattern that the pattern parser refuses. *)
Definition malformed (drive : string) : bool :=
  HasEllipses drive && bool_decide (snd (FindEllipsesPatterns drive) <> None).

Definition literal_count (h : string) : nat :=
  length (filter (fun d => is_literal d = true) (strings_Split h comma)).

Definition pattern_entries (h : string) : list string :=
  filter (fun d => is_literal d = false) (strings_Split h comma).

Definition expansion_count (h : string) : nat :=
  length (concat (map entry_paths (pattern_entries h))).

End Resolver.

(** ** Byte slices and readers *)

(** A [[]byte]: its length and the byte at each index of its backing
    array, counted from the start of the slice. *)
Record ByteSlice : Type := mkSlice { blen : Z; bat : Z -> byte }.

Definition bytes_of (b : ByteSlice) : list byte := bat b <$> seqZ 0 (blen b).

(** [b[:k]] and [b[k:]]; out of range panics. *)
Definition slice_to (b : ByteSlice) (k : Z) : Res ByteSlice :=
  if (0 <=? k) && (k <=? blen b) then Ok (mkSlice k (bat b))
  else Panic "slice bounds out of range".

Definition slice_from (b : ByteSlice) (k : Z) : Res ByteSlice :=
  if (0 <=? k) && (k <=? blen b) then Ok (mkSlice (blen b - k) (fun i => bat b (i + k)))
  else Panic "slice bounds out of range".

(** The backing array of [b] after a callee has worked on [b[k:]] (or on
    [b[:n]] for [k = 0]) and left it as [p]: slices alias their array. *)
Definition write_back (b : ByteSlice) (k : Z) (p : ByteSlice) : ByteSlice :=
  mkSlice (blen b)
          (fun i => if (k <=? i) && (i <? k + blen p) then bat p (i - k) else bat b i).

(** Modelled from the spec: [disk.AlignedBlock] is imported; it allocates
    a block of the given size, zero-filled as every Go allocation is
    (the spec's "zero-initialized buffers"). *)
Definition AlignedBlock (n : Z) : ByteSlice := mkSlice n (fun _ => x00).

Definition MiByte : Z := 1048576.
Definition readBlockSize : Z := 4 * MiByte.

Definition EOF : error := errorString "EOF".
Definition ErrUnexpectedEOF : error := errorString "unexpected EOF".
Definition ErrShortBuffer : error := errorString "short buffer".
Definition ErrShortWrite : error := errorString "short write".

(** [io.Reader]: [Read] gets the reader and the slice to fill and gives
    the reader afterwards, the slice as the call left it, and [(n, err)]. *)
Class Reader (R : Type) : Type :=
  Read : R -> ByteSlice -> R * ByteSlice * (Z * option error).

Inductive nullReader : Type := mk_nullReader.

(** [func (r *nullReader) Read(b []byte) (int, error)]: reports the whole
    slice as read and does not touch it. *)
#[global] Instance nullReader_Read : Reader nullReader :=
  fun r b => (r, b, (blen b, None)).

(** Modelled from the spec: [io.LimitReader] is Go's standard library; it
    reads from [R] and stops with EOF after [N] bytes. *)
Record LimitedReader (R : Type) : Type := mkLimited { lr_R : R; lr_N : Z }.
Arguments mkLimited {R} lr_R lr_N.
Arguments lr_R {R} l.
Arguments lr_N {R} l.

(** Modelled from the spec: [LimitedReader.Read]: nothing once [N] bytes
    were given; else it reads into the slice, cut to [N], and counts. *)
#[global] Instance LimitedReader_Read {R} `{Reader R} : Reader (LimitedReader R) :=
  fun l p =>
    if lr_N l <=? 0 then (l, p, (0, Some EOF))
    else
      let p1 := if blen p >? lr_N l then mkSlice (lr_N l) (bat p) else p in
      let '(r', p1', (n, err)) := Read (lr_R l) p1 in
      (mkLimited r' (lr_N l - n), write_back p 0 p1', (n, err)).

(** Modelled from the spec: [io.LimitReader(r, n)]. *)
Definition LimitReader {R} (r : R) (n : Z) : LimitedReader R := mkLimited r n.

Definition is_err (err : option error) (e : error) : bool := bool_decide (err = Some e).

(** Modelled from the spec: [io.ReadAtLeast] and [io.ReadFull] of Go's
    standard library: read until [min] bytes are in [buf] or the reader
    reports an error. *)
Fixpoint ReadAtLeast_loop {R} `{Reader R} (fuel : nat) (r : R) (buf : ByteSlice)
    (min n : Z) (err : option error) : Res (R * ByteSlice * (Z * option error)) :=
  if (n <? min) && bool_decide (err = None) then
    match fuel with
    | O => OutOfFuel
    | S fuel' =>
        res_bind (slice_from buf n) (fun p =>
          let '(r', p', (nn, err')) := Read r p in
          ReadAtLeast_loop fuel' r' (write_back buf n p') min (n + nn) err')
    end
  else
    Ok (r, buf, (n, if n >=? min then None
                   else if (n >? 0) && is_err err EOF then Some ErrUnexpectedEOF
                   else err)).

(** Modelled from the spec: [io.ReadAtLeast(r, buf, min)]. *)
Definition ReadAtLeast {R} `{Reader R} (fuel : nat) (r : R) (buf : ByteSlice) (min : Z)
    : Res (R * ByteSlice * (Z * option error)) :=
  if blen buf <? min then Ok (r, buf, (0, Some ErrShortBuffer))
  else ReadAtLeast_loop fuel r buf min 0 None.

(** Modelled from the spec: [io.ReadFull(r, buf)]. *)
Definition ReadFull {R} `{Reader R} (fuel : nat) (r : R) (buf : ByteSlice)
    : Res (R * ByteSlice * (Z * option error)) :=
  ReadAtLeast fuel r buf (blen buf).

(** ** The world: files, descriptors, buffer pool, samples, output *)

(** An open file: the path it was opened on, the offset of the next
    write, and whether O_DIRECT is still set. *)
Record OpenFile : Type := mkOpenFile { of_name : string; of_off : Z; of_direct : bool }.

(** System calls the program makes, in the order it makes them, and the
    two scheduler events ([go] statement, return of [wg.Wait]). *)
Inductive event : Type :=
| EvMkdirAll (path : string) (perm : Z)
| EvOpen (path : string) (flag perm : Z)
| EvFallocate (fd : Z) (mode off len : Z)
| EvWrite (fd : Z) (n : Z)
| EvDisableDirectIO (fd : Z)
| EvFdatasync (fd : Z)
| EvClose (fd : Z)
| EvGo (obj : Z)
| EvWait.

#[global] Instance event_eq_dec : EqDecision event.
Proof. solve_decision. Defined.

(** A figure of the final report: the program prints it as a
    [time.Duration]; the mean and the standard deviation are those of the
    statistics library over the samples. *)
Inductive figure : Type :=
| DurationOf (x : Z)
| MeanOf (xs : list Z)
| StdDevOf (xs : list Z).

(** A line of standard output. *)
Inductive line : Type :=
| Text (s : string)
| Stat (label : string) (v : figure).

Record World : Type := mkWorld {
  files : gmap string (list byte);   (* regular files: path to content *)
  fdtab : gmap Z OpenFile;           (* open descriptors *)
  next_fd : Z;                       (* the next descriptor number *)
  pool : list ByteSlice;             (* the free buffers of [pool] *)
  intervals : list Z;                (* backing array of [totalIntervals] *)
  stdout : list line;                (* lines printed, oldest first *)
  trace : list event                 (* oldest first *)
}.

Definition set_files (f : gmap string (list byte)) (w : World) : World :=
  mkWorld f (fdtab w) (next_fd w) (pool w) (intervals w) (stdout w) (trace w).
Definition set_fdtab (t : gmap Z OpenFile) (w : World) : World :=
  mkWorld (files w) t (next_fd w) (pool w) (intervals w) (stdout w) (trace w).
Definition set_next_fd (n : Z) (w : World) : World :=
  mkWorld (files w) (fdtab w) n (pool w) (intervals w) (stdout w) (trace w).
Definition set_pool (p : list ByteSlice) (w : World) : World :=
  mkWorld (files w) (fdtab w) (next_fd w) p (intervals w) (stdout w) (trace w).
Definition set_intervals (l : list Z) (w : World) : World :=
  mkWorld (files w) (fdtab w) (next_fd w) (pool w) l (stdout w) (trace w).
Definition set_stdout (l : list line) (w : World) : World :=
  mkWorld (files w) (fdtab w) (next_fd w) (pool w) (intervals w) l (trace w).
Definition set_trace (l : list event) (w : World) : World :=
  mkWorld (files w) (fdtab w) (next_fd w) (pool w) (intervals w) (stdout w) l.

(** The world before the program starts, over a given file system. *)
Definition initial_world (fs : gmap string (list byte)) : World :=
  mkWorld fs ∅ 3 [] [] [] [].

(** A computation of the program: from a world to an outcome and the
    world it left. *)
Definition M (A : Type) : Type := World -> Res A * World.

Definition ret {A} (a : A) : M A := fun w => (Ok a, w).

Definition bind {A B} (m : M A) (k : A -> M B) : M B :=
  fun w =>
    match m w with
    | (Ok a, w') => k a w'
    | (Fatal msg, w') => (Fatal msg, w')
    | (Panic msg, w') => (Panic msg, w')
    | (OutOfFuel, w') => (OutOfFuel, w')
    end.

Definition liftR {A} (r : Res A) : M A := fun w => (r, w).
Definition get_world : M World := fun w => (Ok w, w).
Definition modify (f : World -> World) : M unit := fun w => (Ok tt, f w).
Definition log_Fatal {A} (msg : string) : M A := liftR (Fatal msg).
Definition emit (ev : event) : M unit := modify (fun w => set_trace (trace w ++ [ev]) w).
Definition Print (l : line) : M unit := modify (fun w => set_stdout (stdout w ++ [l]) w).

Declare Scope go_scope.
Delimit Scope go_scope with go.
Notation "x <- m ;; k" := (bind m (fun x => k))
  (at level 100, m at next level, right associativity) : go_scope.
Notation "m ;;; k" := (bind m (fun _ => k))
  (at level 100, right associativity) : go_scope.
Open Scope go_scope.

(** [for _, x := range l { body x }]. *)
Fixpoint forM_ {A} (l : list A) (body : A -> M unit) : M unit :=
  match l with
  | [] => ret tt
  | x :: xs => body x ;;; forM_ xs body
  end.

(** ** The environment *)

(** What the program cannot decide: random draws and elapsed times, per
    object index, and the outcome of each system call. *)
Record Env : Type := mkEnv {
  rand_Uint64 : Z -> Z;     (* [rng.Uint64()] in randASCIIBytes, for an object *)
  rand_Intn : Z -> Z;       (* the non-negative number [rv] reduces, for an object *)
  elapsed : Z -> Z;         (* [time.Since(t)] in nanoseconds, for an object *)
  sys_mkdirall : string -> option error;
  sys_open : string -> option error;   (* a failure of open(2) of its own *)
  sys_fallocate : string -> Z -> Z -> option error;
  sys_write : string -> Z -> Z -> Z * option error; (* path, offset, length *)
  sys_disable_directio : string -> option error
}.

Definition O_WRONLY : Z := 1.
Definition O_CREATE : Z := 64.
Definition O_EXCL : Z := 128.
Definition O_TRUNC : Z := 512.
Definition O_DIRECT : Z := 16384.

Definition has_flag (flag bit : Z) : bool := negb (Z.land flag bit =? 0).

(** [time.Second], in nanoseconds. *)
Definition Second : Z := 1000000000.

Definition asciiLetters : string :=
  "abcdefghijklmnopqrstuvwxyzABCDEFGHIJKLMNOPQRSTUVWXYZ1234567890()".

Definition asciiLetterBytes (i : Z) : ascii :=
  match String.get (Z.to_nat i) asciiLetters with
  | Some c => c
  | None => "000"%char
  end.

Definition uint32 (z : Z) : Z := z mod 2 ^ 32.

(** The loop of [randASCIIBytes] over a destination of [n] bytes. *)
Fixpoint randASCIIBytes_loop (n : nat) (rnd rnd2 : Z) : string :=
  match n with
  | O => EmptyString
  | S n' =>
      String (asciiLetterBytes (Z.shiftr rnd 16 mod Z.of_nat (String.length asciiLetters)))
             (randASCIIBytes_loop n' (uint32 (uint32 (Z.lxor rnd rnd2) * 2654435761)) rnd2)
  end.

(** [randASCIIBytes(dst)], [v] being the value of [rng.Uint64()] and [n]
    the length of [dst]. *)
Definition randASCIIBytes (v : Z) (n : nat) : string :=
  let rnd := uint32 v in
  let rnd2 := uint32 (Z.shiftr v 32) in
  randASCIIBytes_loop n rnd rnd2.

(** [l[i]]. *)
Definition index {A} (l : list A) (i : Z) : M A :=
  if i <? 0 then liftR (Panic "index out of range")
  else match l !! Z.to_nat i with
       | Some x => ret x
       | None => liftR (Panic "index out of range")
       end.

(** [rand.Intn(n)], [r] being the non-negative number drawn. *)
Definition Intn (r n : Z) : M Z :=
  if n <=? 0 then liftR (Panic "invalid argument to Intn") else ret (r mod n).

(** Bytes [data] written at offset [off] of a file. *)
Definition store_at (off : Z) (data content : list byte) : list byte :=
  take (Z.to_nat off) content ++ data ++ drop (Z.to_nat off + length data) content.

Definition directioAlignSize : Z := 4096.

Section Program.

Variable E : Env.
(** [filepath.Join] of two elements and [filepath.Dir]. *)
Variable filepath_Join : string -> string -> string.
Variable filepath_Dir : string -> string.
(** [var debug = env.Get("DEBUG", "off") == "on"]. *)
Variable debug : bool.

(** *** System calls *)

(** Modelled from the spec: [os.MkdirAll] ("ensure the parent directory
    exists"); directories are not kept in the world, the system says
    whether it failed. *)
Definition os_MkdirAll (path : string) (perm : Z) : M (option error) :=
  emit (EvMkdirAll path perm) ;;;
  ret (sys_mkdirall E path).

Definition new_fd (name : string) (flag : Z) : M Z :=
  w <- get_world ;;
  let fd := next_fd w in
  modify (fun w => set_next_fd (fd + 1)
                     (set_fdtab (<[fd := mkOpenFile name 0 (has_flag flag O_DIRECT)]> (fdtab w)) w)) ;;;
  ret fd.

(** Modelled from the spec: [os.OpenFile] is Go's standard library over
    open(2), with O_CREAT, O_EXCL and O_TRUNC as POSIX has them ("fails if
    the name already exists"). The file is its descriptor number, -1
    standing for nil. *)
Definition os_OpenFile (name : string) (flag perm : Z) : M (Z * option error) :=
  emit (EvOpen name flag perm) ;;;
  w <- get_world ;;
  match sys_open E name with
  | Some e => ret (-1, Some e)
  | None =>
      match files w !! name with
      | Some content =>
          if has_flag flag O_CREATE && has_flag flag O_EXCL
          then ret (-1, Some (PathError "open" name EEXIST))
          else
            (if has_flag flag O_TRUNC
             then modify (fun w => set_files (<[name := []]> (files w)) w)
             else ret tt) ;;;
            fd <- new_fd name flag ;;
            ret (fd, None)
      | None =>
          if has_flag flag O_CREATE
          then
            modify (fun w => set_files (<[name := []]> (files w)) w) ;;;
            fd <- new_fd name flag ;;
            ret (fd, None)
          else ret (-1, Some (PathError "open" name ENOENT))
      end
  end.

(** Modelled from the spec: [disk.OpenFileDirectIO] is imported; it is
    [os.OpenFile] with O_DIRECT added to the flags. *)
Definition OpenFileDirectIO (name : string) (flag perm : Z) : M (Z * option error) :=
  os_OpenFile name (Z.lor flag O_DIRECT) perm.

(** Modelled from the spec: [syscall.Fallocate] is fallocate(2) ("space
    reservation, not truncation/extension"): it reserves space; the file
    grows only when FALLOC_FL_KEEP_SIZE (bit 1) is not set. *)
Definition syscall_Fallocate (fd : Z) (mode off len : Z) : M (option error) :=
  emit (EvFallocate fd mode off len) ;;;
  w <- get_world ;;
  match fdtab w !! fd with
  | None => ret (Some (Errno EBADF))
  | Some f =>
      match sys_fallocate E (of_name f) off len with
      | Some e => ret (Some e)
      | None =>
          (if has_flag mode 1 then ret tt
           else modify (fun w =>
                  set_files (alter (fun c => c ++ replicate (Z.to_nat (off + len) - length c) x00)
                                   (of_name f) (files w)) w)) ;;;
          ret None
      end
  end.

(** Modelled from the spec: [os.File.Write] is Go's standard library
    over write(2): the bytes the system accepted go into the file at the
    descriptor's offset; fewer than asked for is an error. *)
Definition File_Write (fd : Z) (b : ByteSlice) : M (Z * option error) :=
  w <- get_world ;;
  match fdtab w !! fd with
  | None => ret (0, Some (PathError "write" "" EBADF))
  | Some f =>
      let '(n0, e) := sys_write E (of_name f) (of_off f) (blen b) in
      let n := Z.max 0 (Z.min n0 (blen b)) in
      emit (EvWrite fd n) ;;;
      modify (fun w =>
        set_files (alter (store_at (of_off f) (bytes_of (mkSlice n (bat b)))) (of_name f) (files w))
          (set_fdtab (<[fd := mkOpenFile (of_name f) (of_off f + n) (of_direct f)]> (fdtab w)) w)) ;;;
      ret (n, match e with
              | Some e => Some e
              | None => if n <? blen b then Some ErrShortWrite else None
              end)
  end.

(** Modelled from the spec: [disk.DisableDirectIO] is imported; it
    clears O_DIRECT on the descriptor. *)
Definition DisableDirectIO (fd : Z) : M (option error) :=
  emit (EvDisableDirectIO fd) ;;;
  w <- get_world ;;
  match fdtab w !! fd with
  | None => ret (Some (Errno EBADF))
  | Some f =>
      match sys_disable_directio E (of_name f) with
      | Some e => ret (Some e)
      | None =>
          modify (fun w => set_fdtab (<[fd := mkOpenFile (of_name f) (of_off f) false]> (fdtab w)) w) ;;;
          ret None
      end
  end.

(** Modelled from the spec: [disk.Fdatasync] is imported; it flushes
    the file's data. The program ignores its result. *)
Definition Fdatasync (fd : Z) : M unit := emit (EvFdatasync fd).

(** Modelled from the spec: [os.File.Close] is Go's standard library;
    the descriptor leaves the table. The program ignores its result. *)
Definition File_Close (fd : Z) : M unit :=
  emit (EvClose fd) ;;;
  modify (fun w => set_fdtab (delete fd (fdtab w)) w).

(** *** Preallocation *)

Definition Fallocate (fd : Z) (offset len : Z) : M (option error) :=
  if len =? 0 then ret None
  else
    let fallocFLKeepSize := 1 in
    syscall_Fallocate fd fallocFLKeepSize offset len.

(** *** The buffer pool *)

(** [pool.New]. *)
Definition pool_New : ByteSlice := AlignedBlock readBlockSize.

(** Modelled from the spec: [sync.Pool.Get] is Go's standard library: a
    free buffer if there is one, else a new one from [pool.New]. The pool
    is a stack here; which free buffer it gives does not matter to the
    program. *)
Definition pool_Get : M ByteSlice :=
  w <- get_world ;;
  match pool w with
  | b :: rest => modify (set_pool rest) ;;; ret b
  | [] => ret pool_New
  end.

(** Modelled from the spec: [sync.Pool.Put]: the buffer is free again. *)
Definition pool_Put (b : ByteSlice) : M unit :=
  modify (fun w => set_pool (b :: pool w) w).

(** *** Copying through the aligned buffer *)

(** Modelled from the spec: [xioutil.CopyAligned] is imported ("write
    exactly sizeBytes of synthetic data into the file using
    block-aligned I/O", through the buffer it is given). A block whose
    length is not a multiple of the alignment is written after O_DIRECT
    is cleared. *)
Definition writeUnaligned (w : Z) (buf : ByteSlice) : M (Z * option error) :=
  err <- DisableDirectIO w ;;
  match err with
  | Some e => ret (0, Some e)
  | None => File_Write w buf
  end.

(** Modelled from the spec: the loop of [xioutil.CopyAligned]: fill
    the buffer (cut to what remains) from the reader, write it, stop at
    [totalSize] bytes or at the reader's end. It gives back the
    buffer's array as the reader left it, and [(written, err)]. *)
Fixpoint CopyAligned_loop {R} `{Reader R} (fuel : nat) (w : Z) (r : R)
    (alignedBuf : ByteSlice) (totalSize written : Z)
    : M (ByteSlice * (Z * option error)) :=
  match fuel with
  | O => liftR OutOfFuel
  | S fuel' =>
      buf <- liftR (if negb (totalSize =? -1) then
                      let remaining := totalSize - written in
                      if remaining <? blen alignedBuf
                      then slice_to alignedBuf remaining
                      else Ok alignedBuf
                    else Ok alignedBuf) ;;
      x <- liftR (ReadFull (S fuel') r buf) ;;
      let '(r', buf', (nr, err)) := x in
      let alignedBuf' := write_back alignedBuf 0 buf' in
      let eof := is_err err EOF || is_err err ErrUnexpectedEOF in
      if bool_decide (err <> None) && negb eof then ret (alignedBuf', (written, err))
      else
        buf2 <- liftR (slice_to buf' nr) ;;
        y <- (if blen buf2 mod directioAlignSize =? 0
              then File_Write w buf2
              else writeUnaligned w buf2) ;;
        let '(nw, err) := y in
        let written := if nw >? 0 then written + nw else written in
        match err with
        | Some e => ret (alignedBuf', (written, Some e))
        | None =>
            if negb (nw =? blen buf2) then ret (alignedBuf', (written, Some ErrShortWrite))
            else if negb (totalSize =? -1) && (written =? totalSize)
            then ret (alignedBuf', (written, None))
            else if eof then ret (alignedBuf', (written, None))
            else CopyAligned_loop fuel' w r' alignedBuf' totalSize written
        end
  end.

(** Modelled from the spec: [xioutil.CopyAligned(w, r, alignedBuf,
    totalSize)]. *)
Definition CopyAligned {R} `{Reader R} (fuel : nat) (w : Z) (r : R)
    (alignedBuf : ByteSlice) (totalSize : Z) : M (ByteSlice * (Z * option error)) :=
  CopyAligned_loop fuel w r alignedBuf totalSize 0.

(** *** The writer *)

(** The path [write] builds for an object on a drive. *)
Definition object_name (obj : Z) (drive : string) (tree : bool) : string :=
  let nBuf := randASCIIBytes (rand_Uint64 E obj) 32 in
  if tree then filepath_Join drive (Z_to_string obj ++ "/" ++ nBuf)
  else filepath_Join drive (Z_to_string obj ++ "." ++ nBuf).

Definition size_mismatch (fileSize written : Z) : error :=
  errorString ("unexpected file size written expected " ++ Z_to_string fileSize
               ++ ", got " ++ Z_to_string written).

Definition slow_message (name : string) : line :=
  Text ("object " ++ name ++ " took more than a second to write").

(** [func write(obj int, drives []string, fileSize int64, tree bool)
    (time.Duration, error)], from [os.MkdirAll] on, [name] being the
    path built. The deferred calls (put the buffer back, flush, close)
    are the last three steps; they are registered only once
    preallocation has succeeded. A panic in the copy ends the process;
    what the deferred calls would still do then is not modelled. *)
Definition write_to (fuel : nat) (obj : Z) (name : string) (fileSize : Z)
    : M (Z * option error) :=
  err <- os_MkdirAll (filepath_Dir name) 493 ;;
  match err with
  | Some e => ret (0, Some e)
  | None =>
      o <- OpenFileDirectIO name (Z.lor (Z.lor O_CREATE O_WRONLY) O_EXCL) 438 ;;
      let '(w, err) := o in
      match err with
      | Some e => ret (0, Some e)
      | None =>
          err <- (if fileSize >? 0 then Fallocate w 0 fileSize else ret None) ;;
          match err with
          | Some e => ret (0, Some e)
          | None =>
              bufp <- pool_Get ;;
              c <- CopyAligned fuel w (LimitReader mk_nullReader fileSize) bufp fileSize ;;
              let '(bufp', (written, err)) := c in
              res <- match err with
                     | Some e => ret (0, Some e)
                     | None =>
                         if negb (written =? fileSize)
                         then ret (0, Some (size_mismatch fileSize written))
                         else
                           let d := elapsed E obj in
                           (if (d >? Second) && debug
                            then Print (slow_message name) else ret tt) ;;;
                           ret (d, None)
                     end ;;
              pool_Put bufp' ;;;
              Fdatasync w ;;;
              File_Close w ;;;
              ret res
          end
      end
  end.

(** [write]: draw the drive, build the path, and go on with it. *)
Definition write (fuel : nat) (obj : Z) (drives : list string) (fileSize : Z) (tree : bool)
    : M (Z * option error) :=
  k <- Intn (rand_Intn E obj) (len_ drives) ;;
  drive <- index drives k ;;
  write_to fuel obj (object_name obj drive tree) fileSize.

(** *** The scheduler *)

(** A [[]float64] over the array of samples: where it starts, its
    length and its capacity. A sample is the [float64] of a duration in
    nanoseconds, kept as the integer it is. *)
Record FloatSlice : Type := mkFloatSlice { fs_off : Z; fs_len : Z; fs_cap : Z }.

Definition maxAlloc : Z := 2 ^ 48.

(** [make([]float64, n)] for [n] of type uint64: the array of [n] zero
    samples; a length whose 8-byte elements exceed what the run time
    allocates panics. *)
Definition make_float64s (n : Z) : M FloatSlice :=
  if (n <? 0) || (maxAlloc <? 8 * n) then liftR (Panic "makeslice: len out of range")
  else
    modify (set_intervals (replicate (Z.to_nat n) 0)) ;;;
    ret (mkFloatSlice 0 n n).

(** [s[a:b]]. *)
Definition float_slice (s : FloatSlice) (a b : Z) : M FloatSlice :=
  if (b <? 0) || (fs_cap s <? b) then
    liftR (Panic ("slice bounds out of range [:" ++ Z_to_string b
                  ++ "] with capacity " ++ Z_to_string (fs_cap s)))
  else if (a <? 0) || (b <? a) then
    liftR (Panic ("slice bounds out of range [" ++ Z_to_string a ++ ":"
                  ++ Z_to_string b ++ "]"))
  else ret (mkFloatSlice (fs_off s + a) (b - a) (fs_cap s - a)).

(** [s[i] = v]. *)
Definition float_store (s : FloatSlice) (i v : Z) : M unit :=
  if (i <? 0) || (fs_len s <=? i) then liftR (Panic "index out of range")
  else modify (fun w => set_intervals (<[Z.to_nat (fs_off s + i) := v]> (intervals w)) w).

(** [s[i]]. *)
Definition float_load (s : FloatSlice) (i : Z) : M Z :=
  if (i <? 0) || (fs_len s <=? i) then liftR (Panic "index out of range")
  else w <- get_world ;; index (intervals w) (fs_off s + i).

(** The body of the goroutine of [concurrentWrite]. *)
Definition task (fuel : nat) (obj : Z) (drives : list string) (fileSize : Z)
    (totalIntervals : FloatSlice) (tree : bool) (i : Z) : M unit :=
  r <- write fuel (to_int64 (obj + i)) drives fileSize tree ;;
  let '(d, err) := r in
  match err with
  | Some e => log_Fatal (Error e)
  | None => float_store totalIntervals i d
  end.

Definition concurrentWrite (fuel : nat) (obj : Z) (drives : list string)
    (fileSize nfiles : Z) (totalIntervals : FloatSlice) (tree : bool) : M unit :=
  (if nfiles <? 0 then liftR (Panic "sync: negative WaitGroup counter") else ret tt) ;;;
  forM_ (seqZ 0 nfiles) (fun i =>
    emit (EvGo (to_int64 (obj + i))) ;;;
    task fuel obj drives fileSize totalIntervals tree i) ;;;
  emit EvWait.

(** *** The report *)

(** Modelled from the spec: [sort.Float64s] is Go's standard library;
    it puts the slice in ascending order. *)
Definition Float64s (x : list Z) : list Z := merge_sort Z.le x.

Definition Println (label : string) (v : figure) : M unit := Print (Stat label v).

(** The last six statements of [main]. *)
Definition report (totalIntervals : FloatSlice) : M unit :=
  modify (fun w => set_intervals (Float64s (intervals w)) w) ;;;
  w <- get_world ;;
  Println "Mean time taken" (MeanOf (intervals w)) ;;;
  Println "Standard deviation time taken" (StdDevOf (intervals w)) ;;;
  fastest <- float_load totalIntervals 0 ;;
  Println "Fastest time taken" (DurationOf fastest) ;;;
  slowest <- float_load totalIntervals (fs_len totalIntervals - 1) ;;
  Println "Slowest time taken" (DurationOf slowest).

(** *** main *)

Variable Pattern : Type.
Variable HasEllipses : string -> bool.
Variable FindEllipsesPatterns : string -> list Pattern * option error.
Variable Expand : Pattern -> list string.

(** The options of a run, as [strconv.Atoi], [humanize.ParseBytes] and
    [strconv.ParseBool] gave them ([FILESIZE] and [NFILES] are uint64,
    [CONCURRENT] is an int). *)
Record Config : Type := mkConfig {
  DRIVES : string;
  CONCURRENT : Z;
  FILESIZE : Z;
  NFILES : Z;
  TREE : bool
}.

(** [for i < int(nfiles) { ... ; i = i + concurrency }]. *)
Fixpoint main_loop (n fuel : nat) (drives : list string) (concurrency fileSize nfiles : Z)
    (totalIntervals : FloatSlice) (tree : bool) (i : Z) : M unit :=
  if i <? to_int64 nfiles then
    match n with
    | O => liftR OutOfFuel
    | S n' =>
        s <- float_slice totalIntervals i (to_int64 (i + concurrency)) ;;
        concurrentWrite fuel i drives (to_int64 fileSize) concurrency s tree ;;;
        main_loop n' fuel drives concurrency fileSize nfiles totalIntervals tree
                  (to_int64 (i + concurrency))
    end
  else ret tt.

(** [main], from the options already parsed, up to the report. *)
Definition schedule (fuel : nat) (cfg : Config) : M FloatSlice :=
  drives <- liftR (main_drives Pattern HasEllipses FindEllipsesPatterns Expand (DRIVES cfg)) ;;
  let concurrency := CONCURRENT cfg in
  let fileSize := FILESIZE cfg in
  let nfiles := NFILES cfg in
  let tree := TREE cfg in
  totalIntervals <- make_float64s nfiles ;;
  (if to_int64 nfiles <? concurrency then
     s <- float_slice totalIntervals 0 (to_int64 nfiles) ;;
     concurrentWrite fuel 0 drives (to_int64 fileSize) (to_int64 nfiles) s tree
   else
     main_loop fuel fuel drives concurrency fileSize nfiles totalIntervals tree 0) ;;;
  ret totalIntervals.

Definition main (fuel : nat) (cfg : Config) : M unit :=
  totalIntervals <- schedule fuel cfg ;;
  report totalIntervals.

End Program.


(** ** The earlier, simpler variant of the program

    The same file in its earlier form: no tree layout, no drive patterns,
    and the time of a write is taken by the goroutine. Only what differs
    is restated. *)
Module Simple.

(** Modelled from the spec: [humanize.Ordinal] is imported; it gives
    the ordinal of a number ("312th", "483rd", "582nd" in the README's
    output). *)
Definition Ordinal (x : Z) : string :=
  let suffix :=
    if (Z.rem x 10 =? 1) && negb (Z.rem x 100 =? 11) then "st"
    else if (Z.rem x 10 =? 2) && negb (Z.rem x 100 =? 12) then "nd"
    else if (Z.rem x 10 =? 3) && negb (Z.rem x 100 =? 13) then "rd"
    else "th" in
  (Z_to_string x ++ suffix)%string.

Section Program.

Variable E : Env.
Variable filepath_Join : string -> string -> string.
Variable filepath_Dir : string -> string.
Variable debug : bool.

Definition object_name (obj : Z) (drive : string) : string :=
  let nBuf := randASCIIBytes (rand_Uint64 E obj) 32 in
  filepath_Join drive (Z_to_string obj ++ "." ++ nBuf).

Definition slow_message (i : Z) : line :=
  Text ("object " ++ Ordinal (to_int64 (i + 1)) ++ " took more than a second to write").

(** [func write(obj int, drives []string, fileSize int64) error], from
    the debug line on, [name] being the path built. *)
Definition write_to (fuel : nat) (name : string) (fileSize : Z) : M (option error) :=
  (if debug then Print (Text ("writing to " ++ name)) else ret tt) ;;;
  err <- os_MkdirAll E (filepath_Dir name) 493 ;;
  match err with
  | Some e => ret (Some e)
  | None =>
      o <- OpenFileDirectIO E name (Z.lor (Z.lor O_CREATE O_WRONLY) O_EXCL) 438 ;;
      let '(w, err) := o in
      match err with
      | Some e => ret (Some e)
      | None =>
          err <- (if fileSize >? 0 then Fallocate E w 0 fileSize else ret None) ;;
          match err with
          | Some e => ret (Some e)
          | None =>
              bufp <- pool_Get ;;
              c <- CopyAligned E fuel w (LimitReader mk_nullReader fileSize) bufp fileSize ;;
              let '(bufp', (written, err)) := c in
              let res := match err with
                         | Some e => Some e
                         | None =>
                             if negb (written =? fileSize)
                             then Some (size_mismatch fileSize written)
                             else None
                         end in
              pool_Put bufp' ;;;
              Fdatasync w ;;;
              File_Close w ;;;
              ret res
          end
      end
  end.

Definition write (fuel : nat) (obj : Z) (drives : list string) (fileSize : Z)
    : M (option error) :=
  k <- Intn (rand_Intn E obj) (len_ drives) ;;
  drive <- index drives k ;;
  write_to fuel (object_name obj drive) fileSize.

(** The body of the goroutine of [concurrentWrite]. *)
Definition task (fuel : nat) (obj : Z) (drives : list string) (fileSize : Z)
    (totalIntervals : FloatSlice) (i : Z) : M unit :=
  err <- write fuel (to_int64 (obj + i)) drives fileSize ;;
  match err with
  | Some e => log_Fatal (Error e)
  | None =>
      let d := elapsed E (to_int64 (obj + i)) in
      (if d >? Second then Print (slow_message i) else ret tt) ;;;
      float_store totalIntervals i d
  end.

Definition concurrentWrite (fuel : nat) (obj : Z) (drives : list string)
    (fileSize nfiles : Z) (totalIntervals : FloatSlice) : M unit :=
  (if nfiles <? 0 then liftR (Panic "sync: negative WaitGroup counter") else ret tt) ;;;
  forM_ (seqZ 0 nfiles) (fun i =>
    emit (EvGo (to_int64 (obj + i))) ;;;
    task fuel obj drives fileSize totalIntervals i) ;;;
  emit EvWait.

(** [for i < int(nfiles) { ... ; i = i + concurrency }]. *)
Fixpoint main_loop (n fuel : nat) (drives : list string) (concurrency fileSize nfiles : Z)
    (totalIntervals : FloatSlice) (i : Z) : M unit :=
  if i <? to_int64 nfiles then
    match n with
    | O => liftR OutOfFuel
    | S n' =>
        s <- float_slice totalIntervals i (to_int64 (i + concurrency)) ;;
        concurrentWrite fuel i drives (to_int64 fileSize) concurrency s ;;;
        main_loop n' fuel drives concurrency fileSize nfiles totalIntervals
                  (to_int64 (i + concurrency))
    end
  else ret tt.

(** [main], from the options already read, up to the report: the drives
    are the comma-separated pieces of [DRIVES], there are no patterns. *)
Definition schedule (fuel : nat) (DRIVES : string) (concurrency fileSize nfiles : Z)
    : M FloatSlice :=
  let drives := strings_Split DRIVES comma in
  totalIntervals <- make_float64s nfiles ;;
  (if to_int64 nfiles <? concurrency then
     s <- float_slice totalIntervals 0 (to_int64 nfiles) ;;
     concurrentWrite fuel 0 drives (to_int64 fileSize) (to_int64 nfiles) s
   else
     main_loop fuel fuel drives concurrency fileSize nfiles totalIntervals 0) ;;;
  ret totalIntervals.

Definition main (fuel : nat) (DRIVES : string) (concurrency fileSize nfiles : Z) : M unit :=
  totalIntervals <- schedule fuel DRIVES concurrency fileSize nfiles ;;
  report totalIntervals.

End Program.

End Simple.

(** ** An implementation of the imported interfaces

    The theorems quantify over the pattern package, the path functions
    and the environment. These instances are what they are applied to at
    concrete inputs. *)
Module ellipses.

(** Modelled from the spec: the ellipses package is imported. An entry
    has a range pattern when it has the three dots, or both braces; a
    pattern [prefix{N...M}suffix] with decimal [N <= M] denotes the
    paths [prefix ++ k ++ suffix] for [k] from [N] to [M], in that
    order; anything else with the marks of a pattern is malformed. One
    pattern per entry is handled. *)
Record Pattern : Type := mkPattern { Prefix : string; Suffix : string; Seq : list string }.

(** [strings.Contains(s, sub)]. *)
Definition contains (sub s : string) : bool :=
  match String.index 0 sub s with
  | Some _ => true
  | None => false
  end.

(** Modelled from the spec: [ellipses.HasEllipses]. *)
Definition HasEllipses (arg : string) : bool :=
  contains "..." arg || (contains "{" arg && contains "}" arg).

(** Modelled from the spec: the error of a malformed pattern. *)
Definition ErrInvalidEllipsesFormat (arg : string) : error :=
  errorString ("Invalid ellipsis format in (" ++ arg ++ ")").

(** The two numbers of ["N...M"]. *)
Definition parse_range (body : string) : option (Z * Z) :=
  match String.index 0 "..." body with
  | None => None
  | Some k =>
      match NilZero.uint_of_string (substring 0 k body),
            NilZero.uint_of_string (substring (k + 3) (String.length body - (k + 3)) body) with
      | Some a, Some b => Some (Z.of_uint a, Z.of_uint b)
      | _, _ => None
      end
  end.

(** Modelled from the spec: [ellipses.FindEllipsesPatterns]. *)
Definition FindEllipsesPatterns (arg : string) : list Pattern * option error :=
  let bad := ([], Some (ErrInvalidEllipsesFormat arg)) in
  match String.index 0 "{" arg with
  | None => bad
  | Some i =>
      match String.index i "}" arg with
      | None => bad
      | Some j =>
          match parse_range (substring (i + 1) (j - i - 1) arg) with
          | Some (lo, hi) =>
              if lo <=? hi then
                ([mkPattern (substring 0 i arg)
                            (substring (j + 1) (String.length arg - j - 1) arg)
                            (Z_to_string <$> seqZ lo (hi - lo + 1))], None)
              else bad
          | None => bad
          end
      end
  end.

(** Modelled from the spec: [Pattern.Expand]. *)
Definition Expand (p : Pattern) : list string :=
  (fun s => (Prefix p ++ s ++ Suffix p)%string) <$> Seq p.

End ellipses.

(** Path functions for paths that are already clean: [Join] puts a slash
    between its elements, [Dir] drops the last element. *)
Definition join_clean (dir file : string) : string := (dir ++ "/" ++ file)%string.

Fixpoint dir_clean (path : string) : string :=
  match path with
  | EmptyString => EmptyString
  | String c rest =>
      if ellipses.contains "/" rest then String c (dir_clean rest) else EmptyString
  end.

(** An environment in which no system call fails and every write is
    complete; object [obj] takes [|obj| + 1] milliseconds. *)
Definition quiet_env : Env :=
  mkEnv (fun obj => (obj * 11400714819323198485 + 1442695040888963407) mod 2 ^ 64)
        (fun obj => obj)
        (fun obj => (Z.abs obj + 1) * 1000000)
        (fun _ => None)
        (fun _ => None)
        (fun _ _ _ => None)
        (fun _ _ n => (n, None))
        (fun _ => None).

(** [main] over these instances. *)
Definition run (e : Env) (debug : bool) (fuel : nat) (cfg : Config) : Res unit * World :=
  main e join_clean dir_clean debug ellipses.Pattern ellipses.HasEllipses
       ellipses.FindEllipsesPatterns ellipses.Expand fuel cfg (initial_world ∅).

(** The scheduler's part of a trace. *)
Definition is_sched (ev : event) : bool :=
  match ev with
  | EvGo _ | EvWait => true
  | _ => false
  end.

Definition sched_events (t : list event) : list event := List.filter is_sched t.

(** An environment as quiet, in which every write takes more than two
    seconds. *)
Definition slow_env : Env :=
  mkEnv (rand_Uint64 quiet_env) (rand_Intn quiet_env)
        (fun obj => 2 * Second + Z.abs obj)
        (sys_mkdirall quiet_env) (sys_open quiet_env) (sys_fallocate quiet_env)
        (sys_write quiet_env) (sys_disable_directio quiet_env).

(** An environment as quiet, except that the device has no space left
    for a preallocation. *)
Definition nospace_env : Env :=
  mkEnv (rand_Uint64 quiet_env) (rand_Intn quiet_env) (elapsed quiet_env)
        (sys_mkdirall quiet_env) (sys_open quiet_env)
        (fun _ _ _ => Some (Errno ENOSPC))
        (sys_write quiet_env) (sys_disable_directio quiet_env).

(** ** Notions of the statements *)

(** Every cell of the buffer's array is the null byte. *)
Definition zero_filled (b : ByteSlice) : Prop := forall i, bat b i = x00.

Definition pool_zero (w : World) : Prop := Forall zero_filled (pool w).

Definition sum_Z (x : list Z) : Z := foldr Z.add 0 x.

(** Modelled from the spec: [stat.MeanStdDev] is imported and the spec
    leaves it a black box; its first result is the arithmetic mean of the
    samples, here the exact quotient of their sum by their number. *)
Definition Mean (x : list Z) : Q := Qmake (sum_Z x) (Z.to_pos (len_ x)).

(** The world after open(2) has created [name] and returned the next
    descriptor. *)
Definition created (name : string) (flag perm : Z) (w : World) : World :=
  let w1 := set_trace (trace w ++ [EvOpen name flag perm]) w in
  let w2 := set_files (<[name := []]> (files w1)) w1 in
  set_next_fd (next_fd w2 + 1)
    (set_fdtab (<[next_fd w2 := mkOpenFile name 0 (has_flag flag O_DIRECT)]> (fdtab w2)) w2).

(** The flags [write] opens with, O_DIRECT included. *)
Definition write_flags : Z := Z.lor (Z.lor (Z.lor O_CREATE O_WRONLY) O_EXCL) O_DIRECT.

(** [write_to] on [name], started in [w], gets as far as taking a buffer
    for the copy, in world [w3]: the directory is there, the path is free
    and open(2) creates it on descriptor [next_fd w], and preallocation, if
    any, succeeds. *)
Definition reaches_copy (E : Env) (filepath_Dir : string -> string)
    (name : string) (fileSize : Z) (w w3 : World) : Prop :=
  sys_mkdirall E (filepath_Dir name) = None /\
  sys_open E name = None /\
  files w !! name = None /\
  (if fileSize >? 0 then Fallocate E (next_fd w) 0 fileSize else ret None)
    (created name write_flags 438
       (set_trace (trace w ++ [EvMkdirAll (filepath_Dir name) 493]) w))
  = (Ok None, w3).

(** What [write_to] does once the copy has returned without an error and
    with the size asked for: the slow-write line, then the deferred
    calls. *)
Definition finish (E : Env) (debug : bool) (obj : Z) (name : string) (fd : Z)
    (bufp : ByteSlice) : M unit :=
  (if (elapsed E obj >? Second) && debug then Print (slow_message name) else ret tt) ;;;
  pool_Put bufp ;;;
  Fdatasync fd ;;;
  File_Close fd.

(** The file [name] holds [written] null bytes and nothing else, and
    descriptor [fd] is open on it with its offset at the end. *)
Definition zero_file (name : string) (fd written : Z) (w : World) : Prop :=
  0 <= written /\
  files w !! name = Some (replicate (Z.to_nat written) x00) /\
  exists d, fdtab w !! fd = Some (mkOpenFile name written d).

(** The samples of the objects from [lo] on, below [hi], are the times
    their writes took. *)
Definition samples_done (E : Env) (w : World) (lo hi : Z) : Prop :=
  forall j, lo <= j < hi -> intervals w !! Z.to_nat j = Some (elapsed E j).

(** The options have the values their Go types allow. *)
Definition valid_config (cfg : Config) : Prop :=
  - 2 ^ 63 <= CONCURRENT cfg < 2 ^ 63 /\
  0 <= FILESIZE cfg < 2 ^ 64 /\
  0 <= NFILES cfg < 2 ^ 64.

(** No system call fails and every write is complete. *)
Definition quiet (E : Env) : Prop :=
  (forall path, sys_mkdirall E path = None) /\
  (forall path, sys_open E path = None) /\
  (forall path off len, sys_fallocate E path off len = None) /\
  (forall path off len, sys_write E path off len = (len, None)) /\
  (forall path, sys_disable_directio E path = None).

(** The free buffers have the size [pool.New] gives them. *)
Definition pool_sized (w : World) : Prop :=
  Forall (fun b => blen b = readBlockSize) (pool w).

(** The scheduler's events of a batch of [n] objects from [obj] on: one
    [go] per object, then the barrier. *)
Definition batch_events (obj n : Z) : list event := (EvGo <$> seqZ obj n) ++ [EvWait].

(** The scheduler's events of the full batches of [C] objects from object
    [i] on, up to [T]. *)
Definition full_batches (i C T : Z) : list event :=
  concat ((fun b => batch_events (i + b * C) C) <$> seqZ 0 ((T - i) / C)).

(** The scheduler's events of a run of [T] objects at concurrency [C]. *)
Definition run_batches (T C : Z) : list event :=
  if T <? C then batch_events 0 T else full_batches 0 C T.

(** A computation leaves a component of the world as it found it. *)
Definition keeps {A B} (f : World -> B) (m : M A) : Prop :=
  forall w, f (snd (m w)) = f w.

(** ** Notions of the further properties *)

(** Descriptor [fd], if open, is open on [name]. *)
Definition owns (fd : Z) (name : string) (w : World) : Prop :=
  forall f, fdtab w !! fd = Some f -> of_name f = name.

(** From [w] to [w'] nothing changed but the file [name], which is
    still there if it was, and the entry of descriptor [fd]. *)
Definition beside (fd : Z) (name : string) (w w' : World) : Prop :=
  (forall p, p <> name -> files w' !! p = files w !! p) /\
  (is_Some (files w !! name) -> is_Some (files w' !! name)) /\
  (forall k, k <> fd -> fdtab w' !! k = fdtab w !! k) /\
  next_fd w' = next_fd w.

(** Whatever its outcome, a computation works on the file [name] only,
    and through descriptor [fd] only. *)
Definition confined {A} (fd : Z) (name : string) (m : M A) : Prop :=
  forall w, owns fd name w -> owns fd name (snd (m w)) /\ beside fd name w (snd (m w)).

(** Whatever its outcome, a computation leaves every file that was
    there as it was. *)
Definition grows {A} (m : M A) : Prop := forall w, files w ⊆ files (snd (m w)).

(** A system call of the copy on descriptor [fd]: a write, or the
    clearing of O_DIRECT before an unaligned write. *)
Definition copy_event (fd : Z) (ev : event) : Prop :=
  match ev with
  | EvWrite k _ => k = fd
  | EvDisableDirectIO k => k = fd
  | _ => False
  end.

(** The bytes the write calls of a trace have put into their files. *)
Definition written_bytes (t : list event) : Z :=
  foldr (fun ev n => match ev with EvWrite _ k => k + n | _ => n end) 0 t.

(** From [w] to [w'] the array of samples kept its length, and every
    sample outside the slice [ts] its value. *)
Definition within (ts : FloatSlice) (w w' : World) : Prop :=
  length (intervals w') = length (intervals w) /\
  forall j : nat,
    ~ (fs_off ts <= Z.of_nat j < fs_off ts + fs_len ts) ->
    intervals w' !! j = intervals w !! j.

(** Two computations leave the same world, and the result of the first
    is [f] of the result of the second. *)
Definition agree {A B} (f : B -> A) (m : M A) (m' : M B) : Prop :=
  forall w, snd (m w) = snd (m' w) /\
            fst (m w) = res_bind (fst (m' w)) (fun r => Ok (f r)).

Section Options.

Variable E : Env.
Variable filepath_Join : string -> string -> string.
Variable filepath_Dir : string -> string.
Variable Pattern : Type.
Variable HasEllipses : string -> bool.
Variable FindEllipsesPatterns : string -> list Pattern * option error.
Variable Expand : Pattern -> list string.
(** The packages that read the options are imported: [env.Get(key,
    defaultValue)], [strconv.Atoi], [humanize.ParseBytes] and
    [strconv.ParseBool], each giving a value and an error. *)
Variable env_Get : string -> string -> string.
Variable strconv_Atoi : string -> Z * option error.
Variable humanize_ParseBytes : string -> Z * option error.
Variable strconv_ParseBool : string -> bool * option error.

(** [v, err := f(s); if err != nil { log.Fatal(err) }]. *)
Definition or_Fatal {A} (r : A * option error) : M A :=
  match snd r with
  | Some e => log_Fatal (Error e)
  | None => ret (fst r)
  end.

(** [main], from the environment on: the drives are resolved and the
    options parsed in the order of the source, each failure ending the
    run; then the run itself, [main] above on the options parsed (which
    resolves the same drives again, as a function of the same string). *)
Definition main_env (fuel : nat) : M unit :=
  let debug := String.eqb (env_Get "DEBUG" "off") "on" in
  drives <- liftR (main_drives Pattern HasEllipses FindEllipsesPatterns Expand
                               (env_Get "DRIVES" "")) ;;
  concurrency <- or_Fatal (strconv_Atoi (env_Get "CONCURRENT" "100")) ;;
  fileSize <- or_Fatal (humanize_ParseBytes (env_Get "FILESIZE" "128KiB")) ;;
  nfiles <- or_Fatal (humanize_ParseBytes (env_Get "NFILES" "8M")) ;;
  tree <- or_Fatal (strconv_ParseBool (env_Get "TREE" "off")) ;;
  main E filepath_Join filepath_Dir debug Pattern HasEllipses FindEllipsesPatterns Expand
       fuel (mkConfig (env_Get "DRIVES" "") concurrency fileSize nfiles tree).

End Options.


(** Modelled from the spec: [env.Get] is imported ("environment
    variables", each with its default): the value of the variable where
    it is set, else the default. *)
Definition env_Get (environ : gmap string string) (key defaultValue : string) : string :=
  default defaultValue (environ !! key).

(** A string between double quotes. *)
Definition quoted (s : string) : string :=
  (String "034" EmptyString ++ s ++ String "034" EmptyString)%string.

(** Modelled from the spec: [strconv.ParseBool] is Go's standard
    library ("boolean"); by its documentation it accepts 1, t, T, TRUE,
    true, True, 0, f, F, FALSE, false, False, and any other value is an
    error. *)
Definition ParseBool (str : string) : bool * option error :=
  if bool_decide (str ∈ ["1"; "t"; "T"; "TRUE"; "true"; "True"]%string) then (true, None)
  else if bool_decide (str ∈ ["0"; "f"; "F"; "FALSE"; "false"; "False"]%string)
  then (false, None)
  else (false, Some (errorString ("strconv.ParseBool: parsing " ++ quoted str
                                  ++ ": invalid syntax"))).

(** A stand-in for the number parsers, for options written as plain
    decimal numbers. *)
Definition parse_decimal (s : string) : Z * option error :=
  match NilZero.uint_of_string s with
  | Some d => (Z.of_uint d, None)
  | None => (0, Some (errorString ("parsing " ++ quoted s ++ ": invalid syntax")))
  end.

(** The drive [write] draws for an object, and the path it builds on it
    with [filepath.Join] as it is on clean paths. *)
Definition drive_of (E : Env) (drives : list string) (obj : Z) : string :=
  default EmptyString (drives !! Z.to_nat (rand_Intn E obj mod len_ drives)).

Definition path_of (E : Env) (drives : list string) (tree : bool) (obj : Z) : string :=
  object_name E join_clean obj (drive_of E drives obj) tree.

(** The objects below [n] are written and nothing else is there: their
    files hold [Sz] null bytes each, their samples are stored, every
    descriptor is closed and the free buffers are null blocks. *)
Definition written_up_to (E : Env) (drives : list string) (tree : bool) (Sz T n : Z)
    (w : World) : Prop :=
  fdtab w = ∅ /\ pool_sized w /\ pool_zero w /\
  len_ (intervals w) = T /\ samples_done E w 0 n /\
  size (files w) = Z.to_nat n /\
  (forall j, 0 <= j < n ->
     files w !! path_of E drives tree j = Some (replicate (Z.to_nat Sz) x00)) /\
  (forall p, is_Some (files w !! p) -> exists j, 0 <= j < n /\ p = path_of E drives tree j).

(** * Properties *)

(** ** The drive target resolver *)

Section ResolverFacts.

Variable Pattern : Type.
Variable HasEllipses : string -> bool.
Variable FindEllipsesPatterns : string -> list Pattern * option error.
Variable Expand : Pattern -> list string.

Local Abbreviation loop := (parseDrives_loop Pattern HasEllipses FindEllipsesPatterns Expand).
Local Abbreviation paths := (entry_paths Pattern HasEllipses FindEllipsesPatterns Expand).
Local Abbreviation bad := (malformed Pattern HasEllipses FindEllipsesPatterns).

Lemma expand_patterns_app (ps : list Pattern) (dst : list string) :
  expand_patterns Pattern Expand dst ps = dst ++ concat (map Expand ps).
Proof.
  revert dst; induction ps as [|p ps IH]; intros dst; simpl.
  - by rewrite app_nil_r.
  - by rewrite IH, app_assoc.
Qed.

(** The loop appends, entry after entry, what each entry stands for. *)
Lemma parseDrives_loop_ok (drives : list string) (dst ds : list string) :
  loop dst drives = Ok ds ->
  ds = dst ++ concat (map paths drives).
Proof.
  revert dst; induction drives as [|d rest IH]; intros dst H; simpl in H.
  - simpl. rewrite app_nil_r. congruence.
  - simpl. unfold entry_paths at 1, is_literal.
    destruct (HasEllipses d); simpl in *.
    + destruct (FindEllipsesPatterns d) as [ps [e|]]; [discriminate|].
      apply IH in H. rewrite expand_patterns_app in H.
      simpl. by rewrite H, app_assoc.
    + apply IH in H. by rewrite H, <- app_assoc.
Qed.

(** A malformed entry anywhere makes the loop fatal. *)
Lemma parseDrives_loop_malformed (drives : list string) (dst : list string) :
  Exists (fun d => bad d = true) drives ->
  exists msg, loop dst drives = Fatal msg.
Proof.
  revert dst; induction drives as [|d rest IH]; intros dst H.
  - inversion H.
  - simpl. unfold malformed in H.
    destruct (HasEllipses d) eqn:Hd; simpl.
    + destruct (FindEllipsesPatterns d) as [ps [e|]] eqn:Hf; [eauto|].
      apply IH. apply Exists_cons in H as [Hm|Hr]; [|done].
      rewrite Hd, Hf in Hm. simpl in Hm. discriminate.
    + apply IH. apply Exists_cons in H as [Hm|Hr]; [|done].
      rewrite Hd in Hm. done.
Qed.

Lemma split_count (l : list string) :
  length (concat (map paths l))
  = (length (filter (fun d => is_literal HasEllipses d = true) l)
     + length (concat (map paths
                 (filter (fun d => is_literal HasEllipses d = false) l))))%nat.
Proof.
  induction l as [|d l IH]; [done|].
  simpl. rewrite length_app, IH.
  rewrite !filter_cons. unfold entry_paths at 1.
  destruct (is_literal HasEllipses d) eqn:Hd.
  - rewrite decide_True by done. rewrite decide_False by done. simpl. lia.
  - rewrite decide_False by done. rewrite decide_True by done.
    simpl. rewrite length_app. unfold entry_paths at 2. rewrite Hd. lia.
Qed.

(** C2. For a drive specification the resolver accepts, with N literal
    entries and range-pattern entries that expand to K paths together,
    the result has exactly N + K paths: the entries in the order of the
    comma-separated list, each pattern entry replaced by its expansion
    in expansion order. *)
Theorem parseDrives_entries (h : string) (ds : list string) :
  parseDrives Pattern HasEllipses FindEllipsesPatterns Expand h = Ok ds ->
  ds = concat (map paths (strings_Split h comma)) /\
  length ds = (literal_count HasEllipses h
               + expansion_count Pattern HasEllipses FindEllipsesPatterns Expand h)%nat.
Proof.
  unfold parseDrives. intros H. apply parseDrives_loop_ok in H. simpl in H.
  split; [done|]. subst ds. apply split_count.
Qed.

(** A specification with a malformed entry is fatal, in the resolver
    and so in [main] before any write. *)
Lemma parseDrives_malformed (h : string) :
  Exists (fun d => bad d = true) (strings_Split h comma) ->
  exists msg, parseDrives Pattern HasEllipses FindEllipsesPatterns Expand h = Fatal msg /\
              main_drives Pattern HasEllipses FindEllipsesPatterns Expand h = Fatal msg.
Proof.
  intros H. destruct (parseDrives_loop_malformed _ [] H) as [msg Hm].
  exists msg. unfold main_drives, parseDrives. by rewrite Hm.
Qed.

(** C3, at the empty specification. The empty string splits into one
    empty entry; it has no pattern, so it is kept as a drive, the list
    has one element and [main] goes on: the "mandatory" check does not
    fire. *)
Theorem main_drives_empty :
  HasEllipses "" = false ->
  parseDrives Pattern HasEllipses FindEllipsesPatterns Expand "" = Ok [""%string] /\
  main_drives Pattern HasEllipses FindEllipsesPatterns Expand "" = Ok [""%string].
Proof.
  intros H. unfold main_drives, parseDrives. simpl. by rewrite H.
Qed.

End ResolverFacts.

Lemma parseDrives_entries_witness :
  parseDrives ellipses.Pattern ellipses.HasEllipses ellipses.FindEllipsesPatterns
              ellipses.Expand "/a,/mnt/drive{1...3}/x,/b"
  = Ok ["/a"; "/mnt/drive1/x"; "/mnt/drive2/x"; "/mnt/drive3/x"; "/b"]%string /\
  length ["/a"; "/mnt/drive1/x"; "/mnt/drive2/x"; "/mnt/drive3/x"; "/b"]%string
  = (1 + 1 + 3)%nat.
Proof.
  split; [vm_compute; reflexivity|].
  exact (proj2 (parseDrives_entries ellipses.Pattern ellipses.HasEllipses
                  ellipses.FindEllipsesPatterns ellipses.Expand
                  "/a,/mnt/drive{1...3}/x,/b" _ eq_refl)).
Defined.

Lemma main_drives_empty_witness :
  main_drives ellipses.Pattern ellipses.HasEllipses ellipses.FindEllipsesPatterns
              ellipses.Expand "" = Ok [""%string].
Proof.
  exact (proj2 (main_drives_empty ellipses.Pattern ellipses.HasEllipses
                  ellipses.FindEllipsesPatterns ellipses.Expand eq_refl)).
Defined.

(** ** Frames: what a computation leaves alone *)

Lemma keeps_ret {A B} (f : World -> B) (a : A) : keeps f (ret a).
Proof. by intros w. Qed.

Lemma keeps_liftR {A B} (f : World -> B) (r : Res A) : keeps f (liftR r).
Proof. by intros w. Qed.

Lemma keeps_get_world {B} (f : World -> B) : keeps f get_world.
Proof. by intros w. Qed.

Lemma keeps_modify {B} (f : World -> B) (g : World -> World) :
  (forall w, f (g w) = f w) -> keeps f (modify g).
Proof. intros H w. apply H. Qed.

Lemma keeps_bind {A B C} (f : World -> C) (m : M A) (k : A -> M B) :
  keeps f m -> (forall a, keeps f (k a)) -> keeps f (bind m k).
Proof.
  intros Hm Hk w. unfold bind. specialize (Hm w).
  destruct (m w) as [[a| | |] w1]; simpl in *; try done.
  by rewrite Hk.
Qed.

Lemma keeps_forM_ {A C} (f : World -> C) (l : list A) (body : A -> M unit) :
  (forall x, keeps f (body x)) -> keeps f (forM_ l body).
Proof.
  intros H. induction l as [|x l IH]; simpl.
  - apply keeps_ret.
  - apply keeps_bind; [apply H | intros _; apply IH].
Qed.

(** One step of a frame proof: take the computation apart. *)
Ltac keeps_step :=
  match goal with
  | |- keeps _ (ret _) => apply keeps_ret
  | |- keeps _ (liftR _) => apply keeps_liftR
  | |- keeps _ (log_Fatal _) => apply keeps_liftR
  | |- keeps _ get_world => apply keeps_get_world
  | |- keeps _ (bind _ _) => apply keeps_bind; [|intros ?]
  | |- keeps _ (modify _) => apply keeps_modify; intros ?; reflexivity
  | |- keeps _ (emit _) => apply keeps_modify; intros ?; reflexivity
  | |- keeps _ (Print _) => apply keeps_modify; intros ?; reflexivity
  | |- keeps _ (match ?x with _ => _ end) => destruct x
  | |- keeps _ _ => progress cbv zeta
  end.

Ltac keeps_tac := repeat keeps_step.

Section ProgramFacts.

Variable E : Env.
Variable filepath_Join : string -> string -> string.
Variable filepath_Dir : string -> string.
Variable debug : bool.

Local Abbreviation write' := (write E filepath_Join filepath_Dir debug).
Local Abbreviation task' := (task E filepath_Join filepath_Dir debug).
Local Abbreviation name_of := (object_name E filepath_Join).

(** *** Frames of the system calls and of the copy *)

Section Frames.

Context {B : Type} (f : World -> B).
Hypothesis f_emit : forall ev w,
  is_sched ev = false -> f (set_trace (trace w ++ [ev]) w) = f w.
Hypothesis f_files : forall x w, f (set_files x w) = f w.
Hypothesis f_fdtab : forall x w, f (set_fdtab x w) = f w.
Hypothesis f_next_fd : forall x w, f (set_next_fd x w) = f w.

Ltac frame_step :=
  match goal with
  | |- keeps _ (ret _) => apply keeps_ret
  | |- keeps _ (liftR _) => apply keeps_liftR
  | |- keeps _ get_world => apply keeps_get_world
  | |- keeps _ (bind _ _) => apply keeps_bind; [|intros ?]
  | |- keeps _ (modify _) =>
      apply keeps_modify; intros ?;
      repeat first [rewrite f_files | rewrite f_fdtab | rewrite f_next_fd];
      reflexivity
  | |- keeps _ (emit _) => apply keeps_modify; intros ?; apply f_emit; reflexivity
  | |- keeps _ (match ?x with _ => _ end) => destruct x
  | |- keeps _ _ => progress cbv zeta
  end.

Lemma keeps_os_MkdirAll path perm : keeps f (os_MkdirAll E path perm).
Proof. unfold os_MkdirAll. repeat frame_step. Qed.

Lemma keeps_OpenFileDirectIO name flag perm : keeps f (OpenFileDirectIO E name flag perm).
Proof. unfold OpenFileDirectIO, os_OpenFile, new_fd. repeat frame_step. Qed.

Lemma keeps_Fallocate fd off len : keeps f (Fallocate E fd off len).
Proof. unfold Fallocate, syscall_Fallocate. repeat frame_step. Qed.

Lemma keeps_File_Write fd b : keeps f (File_Write E fd b).
Proof. unfold File_Write. repeat frame_step. Qed.

Lemma keeps_writeUnaligned fd b : keeps f (writeUnaligned E fd b).
Proof.
  unfold writeUnaligned, DisableDirectIO.
  repeat first [apply keeps_File_Write | frame_step].
Qed.

Lemma keeps_Fdatasync fd : keeps f (Fdatasync fd).
Proof. unfold Fdatasync. repeat frame_step. Qed.

Lemma keeps_File_Close fd : keeps f (File_Close fd).
Proof. unfold File_Close. repeat frame_step. Qed.

Lemma keeps_CopyAligned_loop {R} `{Reader R} fuel fd (r : R) b total written :
  keeps f (CopyAligned_loop E fuel fd r b total written).
Proof.
  revert r b written. induction fuel as [|fuel IH]; intros r b written; simpl.
  - apply keeps_liftR.
  - repeat first [apply IH | apply keeps_File_Write | apply keeps_writeUnaligned | frame_step].
Qed.

Lemma keeps_CopyAligned {R} `{Reader R} fuel fd (r : R) b total :
  keeps f (CopyAligned E fuel fd r b total).
Proof. apply keeps_CopyAligned_loop. Qed.

End Frames.

(** *** Running a computation step by step *)

Lemma bind_ok {A B} (m : M A) (k : A -> M B) w a w1 :
  m w = (Ok a, w1) -> bind m k w = k a w1.
Proof. intros H. unfold bind. by rewrite H. Qed.

Lemma bind_inv {A B} (m : M A) (k : A -> M B) w b w' :
  bind m k w = (Ok b, w') -> exists a w1, m w = (Ok a, w1) /\ k a w1 = (Ok b, w').
Proof.
  unfold bind. destruct (m w) as [[a| | |] w1]; try discriminate. eauto.
Qed.

(** Run the first computation of a [bind] by the equation [H]. *)
Ltac run H := rewrite (bind_ok _ _ _ _ _ H); cbv beta iota.

Lemma pick_drive {A} obj drives drive (k : string -> M A) w :
  drives !! Z.to_nat (rand_Intn E obj mod len_ drives) = Some drive ->
  bind (Intn (rand_Intn E obj) (len_ drives)) (fun i => bind (index drives i) k) w = k drive w.
Proof.
  intros H. assert (0 < len_ drives) as Hn.
  { unfold len_. destruct drives; [done|simpl; lia]. }
  unfold bind, Intn, index.
  destruct (len_ drives <=? 0) eqn:Hle; [apply Z.leb_le in Hle; lia|]. simpl.
  destruct (rand_Intn E obj mod len_ drives <? 0) eqn:Hlt.
  { apply Z.ltb_lt in Hlt. pose proof (Z.mod_pos_bound (rand_Intn E obj) _ Hn). lia. }
  by rewrite H.
Qed.

(** [write] on its drive is [write_to] on the path. *)
Lemma write_pick fuel obj drives drive fileSize tree w :
  drives !! Z.to_nat (rand_Intn E obj mod len_ drives) = Some drive ->
  write' fuel obj drives fileSize tree w
  = write_to E filepath_Dir debug fuel obj (name_of obj drive tree) fileSize w.
Proof. intros H. unfold write. by rewrite pick_drive with (drive := drive). Qed.

(** A [write] that returns has drawn a drive. *)
Lemma write_ok_pick fuel obj drives fileSize tree w r w' :
  write' fuel obj drives fileSize tree w = (Ok r, w') ->
  exists drive, drives !! Z.to_nat (rand_Intn E obj mod len_ drives) = Some drive.
Proof.
  unfold write. intros H.
  apply bind_inv in H as (k & w1 & Hk & H).
  apply bind_inv in H as (drive & w2 & Hi & H).
  unfold Intn in Hk. destruct (len_ drives <=? 0); [discriminate|].
  injection Hk as <- <-.
  unfold index in Hi. destruct (_ <? 0); [discriminate|].
  destruct (drives !! _) as [x|] eqn:Hx; [|discriminate]. eauto.
Qed.

(** *** The system calls *)

Lemma os_MkdirAll_eq path perm w :
  os_MkdirAll E path perm w
  = (Ok (sys_mkdirall E path), set_trace (trace w ++ [EvMkdirAll path perm]) w).
Proof. reflexivity. Qed.

Lemma OpenFileDirectIO_new name flag perm w :
  sys_open E name = None ->
  files w !! name = None ->
  has_flag (Z.lor flag O_DIRECT) O_CREATE = true ->
  OpenFileDirectIO E name flag perm w
  = (Ok (next_fd w, None), created name (Z.lor flag O_DIRECT) perm w).
Proof.
  intros Hop Hfree Hc. unfold OpenFileDirectIO, os_OpenFile.
  unfold bind at 1. simpl. unfold bind at 1. simpl. rewrite Hop. simpl.
  rewrite Hfree, Hc. reflexivity.
Qed.

Lemma OpenFileDirectIO_exists name flag perm w c :
  sys_open E name = None ->
  files w !! name = Some c ->
  has_flag (Z.lor flag O_DIRECT) O_CREATE = true ->
  has_flag (Z.lor flag O_DIRECT) O_EXCL = true ->
  OpenFileDirectIO E name flag perm w
  = (Ok (-1, Some (PathError "open" name EEXIST)),
     set_trace (trace w ++ [EvOpen name (Z.lor flag O_DIRECT) perm]) w).
Proof.
  intros Hop Hex Hc Hx. unfold OpenFileDirectIO, os_OpenFile.
  unfold bind at 1. simpl. unfold bind at 1. simpl. rewrite Hop. simpl.
  rewrite Hex, Hc, Hx. reflexivity.
Qed.

Lemma OpenFileDirectIO_fails name flag perm w e :
  sys_open E name = Some e ->
  OpenFileDirectIO E name flag perm w
  = (Ok (-1, Some e), set_trace (trace w ++ [EvOpen name (Z.lor flag O_DIRECT) perm]) w).
Proof.
  intros Hop. unfold OpenFileDirectIO, os_OpenFile.
  unfold bind at 1. simpl. unfold bind at 1. simpl. by rewrite Hop.
Qed.

(** C8. Preallocating zero bytes is a no-op that cannot fail:
    [Fallocate] returns nil and makes no system call; the world, its
    trace of system calls included, is as before. *)
Theorem Fallocate_zero (fd offset : Z) (w : World) :
  Fallocate E fd offset 0 w = (Ok None, w).
Proof. reflexivity. Qed.

Lemma Fallocate_fails fd name off pos d len e w :
  len <> 0 ->
  fdtab w !! fd = Some (mkOpenFile name pos d) ->
  sys_fallocate E name off len = Some e ->
  Fallocate E fd off len w
  = (Ok (Some e), set_trace (trace w ++ [EvFallocate fd 1 off len]) w).
Proof.
  intros Hlen Hfd Hfa. unfold Fallocate.
  destruct (len =? 0) eqn:Hz; [apply Z.eqb_eq in Hz; done|].
  unfold syscall_Fallocate. unfold bind at 1. simpl. unfold bind at 1. simpl.
  rewrite Hfd. simpl. by rewrite Hfa.
Qed.

Lemma Fallocate_keeps_size fd name off pos d len w :
  len <> 0 ->
  fdtab w !! fd = Some (mkOpenFile name pos d) ->
  sys_fallocate E name off len = None ->
  Fallocate E fd off len w
  = (Ok None, set_trace (trace w ++ [EvFallocate fd 1 off len]) w).
Proof.
  intros Hlen Hfd Hfa. unfold Fallocate.
  destruct (len =? 0) eqn:Hz; [apply Z.eqb_eq in Hz; done|].
  unfold syscall_Fallocate. unfold bind at 1. simpl. unfold bind at 1. simpl.
  rewrite Hfd. simpl. by rewrite Hfa.
Qed.

Lemma write_flags_create : has_flag write_flags O_CREATE = true.
Proof. reflexivity. Qed.

Lemma write_flags_excl : has_flag write_flags O_EXCL = true.
Proof. reflexivity. Qed.

Lemma fdtab_created name flag perm w :
  fdtab (created name flag perm w) !! next_fd w
  = Some (mkOpenFile name 0 (has_flag flag O_DIRECT)).
Proof. unfold created. cbn [fdtab set_next_fd set_fdtab]. apply lookup_insert_eq. Qed.

(** *** Preallocation fails *)

(** C10. When preallocation fails on the file just created and opened,
    [write] returns that error at once: the system calls made are the
    directory creation, the open and the fallocate, with no fdatasync and
    no close after them, the descriptor is still in the table of open
    files, and the buffer pool is as before (no buffer was taken). *)
Theorem write_fallocate_failure fuel obj drives drive fileSize tree e w :
  drives !! Z.to_nat (rand_Intn E obj mod len_ drives) = Some drive ->
  sys_mkdirall E (filepath_Dir (name_of obj drive tree)) = None ->
  sys_open E (name_of obj drive tree) = None ->
  files w !! name_of obj drive tree = None ->
  0 < fileSize ->
  sys_fallocate E (name_of obj drive tree) 0 fileSize = Some e ->
  fst (write' fuel obj drives fileSize tree w) = Ok (0, Some e) /\
  trace (snd (write' fuel obj drives fileSize tree w))
  = trace w ++ [EvMkdirAll (filepath_Dir (name_of obj drive tree)) 493;
                EvOpen (name_of obj drive tree) write_flags 438;
                EvFallocate (next_fd w) 1 0 fileSize] /\
  fdtab (snd (write' fuel obj drives fileSize tree w)) !! next_fd w
  = Some (mkOpenFile (name_of obj drive tree) 0 true) /\
  pool (snd (write' fuel obj drives fileSize tree w)) = pool w.
Proof.
  intros Hd Hmk Hop Hfree Hpos Hfa.
  rewrite (write_pick _ _ _ _ _ _ _ Hd).
  set (name := name_of obj drive tree) in *.
  unfold write_to.
  run (os_MkdirAll_eq (filepath_Dir name) 493 w). rewrite Hmk. cbv beta iota.
  set (w1 := set_trace _ w).
  run (OpenFileDirectIO_new name (Z.lor (Z.lor O_CREATE O_WRONLY) O_EXCL) 438 w1
         Hop Hfree write_flags_create).
  replace (fileSize >? 0) with true by (symmetry; apply Z.gtb_lt; lia).
  erewrite bind_ok; cycle 1.
  { apply Fallocate_fails with (name := name) (pos := 0) (d := true);
      [lia | exact (fdtab_created name write_flags 438 w1) | exact Hfa]. }
  cbv beta iota. unfold ret. cbn [fst snd].
  split; [done|]. split.
  { subst w1. unfold created. cbn. by rewrite <- !app_assoc. }
  split.
  { exact (fdtab_created name write_flags 438 w1). }
  reflexivity.
Qed.

(** *** The path exists already *)

(** Whatever the system answers, a [write] on a path that exists ends
    with an error and leaves every file as it was. *)
Lemma write_to_existing fuel obj name fileSize c w :
  files w !! name = Some c ->
  exists e, fst (write_to E filepath_Dir debug fuel obj name fileSize w) = Ok (0, Some e) /\
            files (snd (write_to E filepath_Dir debug fuel obj name fileSize w)) = files w /\
            (sys_mkdirall E (filepath_Dir name) = None -> sys_open E name = None ->
             e = PathError "open" name EEXIST).
Proof.
  intros Hex. unfold write_to.
  run (os_MkdirAll_eq (filepath_Dir name) 493 w).
  destruct (sys_mkdirall E (filepath_Dir name)) as [e|] eqn:Hmk.
  { exists e. unfold ret. cbn. done. }
  set (w1 := set_trace _ w).
  destruct (sys_open E name) as [e|] eqn:Hop.
  - run (OpenFileDirectIO_fails name (Z.lor (Z.lor O_CREATE O_WRONLY) O_EXCL) 438 w1 e Hop).
    exists e. unfold ret. cbn. done.
  - run (OpenFileDirectIO_exists name (Z.lor (Z.lor O_CREATE O_WRONLY) O_EXCL) 438 w1 c
           Hop Hex write_flags_create write_flags_excl).
    eexists. unfold ret. cbn. done.
Qed.

(** C9. The file is opened with O_CREATE and O_EXCL: when the path
    [write] builds exists already, [write] returns an error and no file
    is changed; if no other failure comes first, the error is the "file
    exists" error of the open, and the goroutine ends the run with it. *)
Theorem write_exclusive fuel obj drives drive fileSize ts tree i c w :
  drives !! Z.to_nat (rand_Intn E (to_int64 (obj + i)) mod len_ drives) = Some drive ->
  files w !! name_of (to_int64 (obj + i)) drive tree = Some c ->
  (exists e, fst (write' fuel (to_int64 (obj + i)) drives fileSize tree w) = Ok (0, Some e)) /\
  files (snd (write' fuel (to_int64 (obj + i)) drives fileSize tree w)) = files w /\
  (sys_mkdirall E (filepath_Dir (name_of (to_int64 (obj + i)) drive tree)) = None ->
   sys_open E (name_of (to_int64 (obj + i)) drive tree) = None ->
   fst (write' fuel (to_int64 (obj + i)) drives fileSize tree w)
   = Ok (0, Some (PathError "open" (name_of (to_int64 (obj + i)) drive tree) EEXIST)) /\
   fst (task' fuel obj drives fileSize ts tree i w)
   = Fatal ("open " ++ name_of (to_int64 (obj + i)) drive tree ++ ": file exists") /\
   files (snd (task' fuel obj drives fileSize ts tree i w)) = files w).
Proof.
  intros Hd Hex.
  destruct (write_to_existing fuel (to_int64 (obj + i)) _ fileSize c w Hex)
    as (e & Hr & Hf & He).
  rewrite <- (write_pick _ _ _ _ _ _ _ Hd) in Hr, Hf.
  split; [eauto|]. split; [done|].
  intros Hmk Hop. specialize (He Hmk Hop). subst e.
  split; [done|].
  unfold task, bind.
  destruct (write' fuel (to_int64 (obj + i)) drives fileSize tree w) as [r w1].
  simpl in Hr, Hf. subst r. simpl. done.
Qed.

(** *** Up to the copy, and after it *)

Lemma OpenFileDirectIO_excl_inv name perm w fd w2 :
  OpenFileDirectIO E name (Z.lor (Z.lor O_CREATE O_WRONLY) O_EXCL) perm w = (Ok (fd, None), w2) ->
  sys_open E name = None /\ files w !! name = None /\
  fd = next_fd w /\ w2 = created name write_flags perm w.
Proof.
  destruct (sys_open E name) as [e|] eqn:Hop.
  { rewrite (OpenFileDirectIO_fails _ _ _ _ _ Hop). discriminate. }
  destruct (files w !! name) as [c|] eqn:Hex.
  { rewrite (OpenFileDirectIO_exists _ _ _ _ _ Hop Hex write_flags_create write_flags_excl).
    discriminate. }
  rewrite (OpenFileDirectIO_new _ _ _ _ Hop Hex write_flags_create).
  intros [= <- <-]. done.
Qed.

(** The tail of [write_to], from the copy on. *)
Local Abbreviation copy_and_finish fuel obj name fileSize fd :=
  (bufp <- pool_Get ;;
   c <- CopyAligned E fuel fd (LimitReader mk_nullReader fileSize) bufp fileSize ;;
   let '(bufp', (written, err)) := c in
   res <- match err with
          | Some e => ret (0, Some e)
          | None =>
              if negb (written =? fileSize)
              then ret (0, Some (size_mismatch fileSize written))
              else
                let d := elapsed E obj in
                (if (d >? Second) && debug
                 then Print (slow_message name) else ret tt) ;;;
                ret (d, None)
          end ;;
   pool_Put bufp' ;;;
   Fdatasync fd ;;;
   File_Close fd ;;;
   ret res).

Lemma write_to_reaches_copy fuel obj name fileSize w w3 :
  reaches_copy E filepath_Dir name fileSize w w3 ->
  write_to E filepath_Dir debug fuel obj name fileSize w
  = copy_and_finish fuel obj name fileSize (next_fd w) w3.
Proof.
  intros (Hmk & Hop & Hfree & Hfa). unfold write_to.
  run (os_MkdirAll_eq (filepath_Dir name) 493 w). rewrite Hmk. cbv beta iota.
  set (w1 := set_trace _ w) in *.
  run (OpenFileDirectIO_new name (Z.lor (Z.lor O_CREATE O_WRONLY) O_EXCL) 438 w1
         Hop Hfree write_flags_create).
  change (next_fd w1) with (next_fd w).
  change (Z.lor (Z.lor (Z.lor O_CREATE O_WRONLY) O_EXCL) O_DIRECT) with write_flags.
  run Hfa. reflexivity.
Qed.

(** A [write_to] that returns without an error has gone through the
    copy, which reported the size asked for. *)
Lemma write_to_ok_inv fuel obj name fileSize w d w' :
  write_to E filepath_Dir debug fuel obj name fileSize w = (Ok (d, None), w') ->
  exists w3 b w4 b' w5,
    reaches_copy E filepath_Dir name fileSize w w3 /\
    pool_Get w3 = (Ok b, w4) /\
    CopyAligned E fuel (next_fd w) (LimitReader mk_nullReader fileSize) b fileSize w4
    = (Ok (b', (fileSize, None)), w5) /\
    d = elapsed E obj /\
    finish E debug obj name (next_fd w) b' w5 = (Ok tt, w').
Proof.
  unfold write_to. intros H.
  rewrite (bind_ok _ _ _ _ _ (os_MkdirAll_eq (filepath_Dir name) 493 w)) in H.
  cbv beta iota in H.
  destruct (sys_mkdirall E (filepath_Dir name)) as [e|] eqn:Hmk; [discriminate|].
  set (w1 := set_trace _ w) in *.
  apply bind_inv in H as ([fd [e|]] & w2 & Hopen & H); [discriminate|].
  apply OpenFileDirectIO_excl_inv in Hopen as (Hop & Hfree & -> & ->).
  change (next_fd w1) with (next_fd w) in *.
  apply bind_inv in H as ([e|] & w3 & Hfa & H); [discriminate|].
  apply bind_inv in H as (b & w4 & Hget & H).
  apply bind_inv in H as ([b' [written [e|]]] & w5 & Hcopy & H).
  { apply bind_inv in H as (r & w6 & Hr & H). injection Hr as <- <-.
    repeat (apply bind_inv in H as (? & ? & _ & H)). discriminate. }
  destruct (written =? fileSize) eqn:Hw; simpl in H.
  2:{ apply bind_inv in H as (r & w6 & Hr & H). injection Hr as <- <-.
      repeat (apply bind_inv in H as (? & ? & _ & H)). discriminate. }
  apply Z.eqb_eq in Hw. subst written.
  exists w3, b, w4, b', w5. split; [done|]. split; [done|]. split; [done|].
  apply bind_inv in H as ([d0 err0] & w6 & Hr & H).
  apply bind_inv in Hr as ([] & w7 & Hp & Hr). injection Hr as <- <- <-.
  apply bind_inv in H as ([] & w8 & Hput & H).
  apply bind_inv in H as ([] & w9 & Hsync & H).
  apply bind_inv in H as ([] & w10 & Hclose & H).
  injection H as <- <-. split; [done|].
  unfold finish. run Hp. run Hput. run Hsync. exact Hclose.
Qed.

(** *** Errors are fatal *)

(** Solve a frame goal over the calls of [write]. *)
Ltac frames :=
  repeat first
    [ apply keeps_os_MkdirAll; intros; reflexivity
    | apply keeps_OpenFileDirectIO; intros; reflexivity
    | apply keeps_Fallocate; intros; reflexivity
    | apply keeps_CopyAligned; intros; reflexivity
    | apply keeps_Fdatasync; intros; reflexivity
    | apply keeps_File_Close; intros; reflexivity
    | keeps_step ].

Lemma keeps_pick {A B} (f : World -> B) obj drives (k : string -> M A) :
  (forall drive, keeps f (k drive)) ->
  keeps f (bind (Intn (rand_Intn E obj) (len_ drives)) (fun i => bind (index drives i) k)).
Proof.
  intros H. unfold Intn, index. keeps_tac; apply H.
Qed.

(** [write] does not touch the samples. *)
Lemma write_keeps_intervals fuel obj drives fileSize tree :
  keeps intervals (write' fuel obj drives fileSize tree).
Proof.
  unfold write. apply keeps_pick. intros drive.
  unfold write_to, pool_Get, pool_Put. frames.
Qed.

(** Any error [write] returns ends the run: the goroutine calls
    [log.Fatal] with it, in the world [write] left, and stores no
    sample. *)
Lemma task_error_fatal fuel obj drives fileSize ts tree i w d e :
  fst (write' fuel (to_int64 (obj + i)) drives fileSize tree w) = Ok (d, Some e) ->
  task' fuel obj drives fileSize ts tree i w
  = (Fatal (Error e), snd (write' fuel (to_int64 (obj + i)) drives fileSize tree w)).
Proof.
  intros H. unfold task, bind.
  destruct (write' fuel (to_int64 (obj + i)) drives fileSize tree w) as [r w1].
  simpl in H. by subst r.
Qed.

(** After a fatal step a loop runs nothing more: the elements after it
    are never reached and the world stays as the fatal step left it. *)
Lemma forM_fatal {A} (l1 l2 : list A) (x : A) (body : A -> M unit) w w1 w2 msg :
  forM_ l1 body w = (Ok tt, w1) ->
  body x w1 = (Fatal msg, w2) ->
  forM_ (l1 ++ x :: l2) body w = (Fatal msg, w2).
Proof.
  revert w. induction l1 as [|y l1 IH]; intros w H1 H2; simpl in *.
  - injection H1 as <-. unfold bind. by rewrite H2.
  - apply bind_inv in H1 as ([] & w0 & Hy & H1).
    rewrite (bind_ok _ _ _ _ _ Hy). by apply IH.
Qed.

Lemma bind_fatal {A B} (m : M A) (k : A -> M B) w w1 msg :
  m w = (Fatal msg, w1) -> bind m k w = (Fatal msg, w1).
Proof. intros H. unfold bind. by rewrite H. Qed.

(** C5. A copy that reports, without an error of its own, a number of
    bytes other than the size asked for makes [write] return the
    size-mismatch error; the goroutine treats it as it treats every error
    of [write]: [log.Fatal] with its message, in the world [write] left,
    no sample stored. *)
Theorem write_size_mismatch fuel obj drives drive fileSize ts tree i w w3 b w4 b' written w5 :
  drives !! Z.to_nat (rand_Intn E (to_int64 (obj + i)) mod len_ drives) = Some drive ->
  reaches_copy E filepath_Dir (name_of (to_int64 (obj + i)) drive tree) fileSize w w3 ->
  pool_Get w3 = (Ok b, w4) ->
  CopyAligned E fuel (next_fd w) (LimitReader mk_nullReader fileSize) b fileSize w4
  = (Ok (b', (written, None)), w5) ->
  written <> fileSize ->
  fst (write' fuel (to_int64 (obj + i)) drives fileSize tree w)
  = Ok (0, Some (size_mismatch fileSize written)) /\
  task' fuel obj drives fileSize ts tree i w
  = (Fatal ("unexpected file size written expected " ++ Z_to_string fileSize
            ++ ", got " ++ Z_to_string written),
     snd (write' fuel (to_int64 (obj + i)) drives fileSize tree w)) /\
  intervals (snd (task' fuel obj drives fileSize ts tree i w)) = intervals w.
Proof.
  intros Hd Hreach Hget Hcopy Hne.
  assert (fst (write' fuel (to_int64 (obj + i)) drives fileSize tree w)
          = Ok (0, Some (size_mismatch fileSize written))) as Hw.
  { rewrite (write_pick _ _ _ _ _ _ _ Hd), (write_to_reaches_copy _ _ _ _ _ _ Hreach).
    run Hget. run Hcopy.
    replace (written =? fileSize) with false by (symmetry; by apply Z.eqb_neq).
    reflexivity. }
  split; [done|].
  pose proof (task_error_fatal fuel obj drives fileSize ts tree i w _ _ Hw) as Ht.
  split; [exact Ht|].
  rewrite Ht. cbn [snd]. apply write_keeps_intervals.
Qed.

(** *** The bytes that reach the file *)

Lemma zero_filled_write_back b k p :
  zero_filled b -> zero_filled p -> zero_filled (write_back b k p).
Proof. intros Hb Hp i. unfold write_back. simpl. by destruct (_ && _). Qed.

Lemma zero_filled_slice_to b k p :
  zero_filled b -> slice_to b k = Ok p -> zero_filled p /\ blen p = k /\ 0 <= k <= blen b.
Proof.
  unfold slice_to. intros Hb. destruct (_ && _) eqn:Hk; [|discriminate].
  intros [= <-]. apply andb_true_iff in Hk as [H1 H2].
  apply Z.leb_le in H1, H2. done.
Qed.

Lemma zero_filled_slice_from b k p :
  zero_filled b -> slice_from b k = Ok p -> zero_filled p.
Proof.
  unfold slice_from. intros Hb. destruct (_ && _); [|discriminate].
  intros [= <-] i. apply Hb.
Qed.

(** The null reader behind a limit leaves a null buffer null. *)
Lemma Read_limited_null_zero (l l' : LimitedReader nullReader) p p' res :
  zero_filled p -> Read l p = (l', p', res) -> zero_filled p'.
Proof.
  intros Hp. unfold Read, LimitedReader_Read, Read, nullReader_Read.
  destruct (lr_N l <=? 0); [by intros [= <- <- <-]|].
  intros [= <- <- <-]. apply zero_filled_write_back; [done|].
  by destruct (blen p >? lr_N l).
Qed.

Lemma ReadAtLeast_loop_zero fuel (r r' : LimitedReader nullReader) buf buf' min n err res :
  zero_filled buf ->
  ReadAtLeast_loop fuel r buf min n err = Ok (r', buf', res) ->
  zero_filled buf' /\ blen buf' = blen buf.
Proof.
  revert r buf n err. induction fuel as [|fuel IH]; intros r buf n err Hb; simpl.
  - destruct (_ && _); [discriminate|]. by intros [= <- <- <-].
  - destruct (_ && _); [|by intros [= <- <- <-]].
    destruct (slice_from buf n) as [p| | |] eqn:Hs; simpl; try discriminate.
    destruct (Read r p) as [[r1 p1] [nn err1]] eqn:Hr.
    intros H. apply IH in H; [done|].
    apply zero_filled_write_back; [done|].
    eapply Read_limited_null_zero; [|exact Hr].
    eapply zero_filled_slice_from; eauto.
Qed.

Lemma ReadFull_zero fuel (r r' : LimitedReader nullReader) buf buf' res :
  zero_filled buf ->
  ReadFull fuel r buf = Ok (r', buf', res) ->
  zero_filled buf' /\ blen buf' = blen buf.
Proof.
  intros Hb. unfold ReadFull, ReadAtLeast.
  destruct (blen buf <? blen buf); [by intros [= <- <- <-]|].
  by apply ReadAtLeast_loop_zero.
Qed.

Lemma bytes_of_zero n f :
  (forall i, f i = x00) -> bytes_of (mkSlice n f) = replicate (Z.to_nat n) x00.
Proof.
  intros Hf. unfold bytes_of. simpl.
  rewrite <- (length_seqZ 0 n). generalize (seqZ 0 n) as l.
  induction l as [|i l IH]; [done|]. rewrite fmap_cons, Hf, IH. done.
Qed.

Lemma store_at_end (n : Z) (data : list byte) :
  0 <= n ->
  store_at n data (replicate (Z.to_nat n) x00) = replicate (Z.to_nat n) x00 ++ data.
Proof.
  intros Hn. unfold store_at.
  rewrite take_ge by (rewrite length_replicate; lia).
  rewrite drop_ge by (rewrite length_replicate; lia).
  by rewrite app_nil_r.
Qed.

(** Null bytes written at the end of a null file leave a null file,
    longer by what the system accepted. *)
Lemma File_Write_zero name fd written b w n err w' :
  zero_filled b ->
  zero_file name fd written w ->
  File_Write E fd b w = (Ok (n, err), w') ->
  0 <= n /\ zero_file name fd (written + n) w'.
Proof.
  intros Hb (Hw & Hfile & d & Hfd). unfold File_Write.
  unfold bind at 1. unfold get_world. cbv beta iota. rewrite Hfd.
  cbn [of_name of_off of_direct].
  destruct (sys_write E name written (blen b)) as [n0 e].
  set (m := Z.max 0 (Z.min n0 (blen b))).
  unfold bind, emit, modify, ret. cbv beta iota.
  intros [= <- _ <-]. split; [lia|].
  split; [lia|]. cbn [files fdtab set_files set_fdtab set_trace]. split.
  - rewrite lookup_alter_eq, Hfile. cbn [fmap option_fmap option_map].
    rewrite (bytes_of_zero m (bat b) Hb), store_at_end by done.
    rewrite <- replicate_add. do 2 f_equal. lia.
  - exists d. apply lookup_insert_eq.
Qed.

Lemma writeUnaligned_zero name fd written b w n err w' :
  zero_filled b ->
  zero_file name fd written w ->
  writeUnaligned E fd b w = (Ok (n, err), w') ->
  0 <= n /\ zero_file name fd (written + n) w'.
Proof.
  intros Hb (Hw & Hfile & d & Hfd). unfold writeUnaligned, DisableDirectIO.
  unfold bind at 1. unfold bind at 1. unfold emit at 1, modify at 1. cbv beta iota.
  unfold bind at 1. unfold get_world. cbv beta iota.
  cbn [fdtab set_trace]. rewrite Hfd. cbn [of_name of_off].
  destruct (sys_disable_directio E name) as [e|].
  - unfold ret. intros [= <- _ <-]. rewrite Z.add_0_r.
    split; [lia|]. split; [done|]. split; [done|]. eauto.
  - unfold bind at 1. unfold modify at 1, ret at 1. cbv beta iota.
    apply File_Write_zero; [done|].
    split; [done|]. split; [done|]. exists false.
    cbn [fdtab set_fdtab]. apply lookup_insert_eq.
Qed.

(** The copy, from the null reader through a null buffer: whatever the
    system answers and however the loop ends, the file holds as many null
    bytes as the copy reports written, and the buffer is null still. *)
Lemma CopyAligned_loop_zero name fd fuel (r : LimitedReader nullReader) b total written w
    b' written' err w' :
  zero_filled b ->
  zero_file name fd written w ->
  CopyAligned_loop E fuel fd r b total written w = (Ok (b', (written', err)), w') ->
  zero_filled b' /\ zero_file name fd written' w'.
Proof.
  revert r b written w. induction fuel as [|fuel IH]; intros r b written w Hb Hz H.
  { discriminate. }
  cbn [CopyAligned_loop] in H.
  apply bind_inv in H as (buf & w1 & Hbuf & H).
  assert (w1 = w /\ zero_filled buf) as [-> Hbufz].
  { unfold liftR in Hbuf. injection Hbuf as Hbuf <-. split; [done|].
    destruct (negb (total =? -1)); [|by injection Hbuf as <-].
    destruct (total - written <? blen b); [|by injection Hbuf as <-].
    by eapply zero_filled_slice_to. }
  apply bind_inv in H as ([[r1 buf1] [nr rerr]] & w1 & Hread & H).
  unfold liftR in Hread. injection Hread as Hread <-.
  apply ReadFull_zero in Hread as [Hbuf1 _]; [|done].
  cbv beta iota zeta in H.
  assert (zero_filled (write_back b 0 buf1)) as Hb1 by by apply zero_filled_write_back.
  destruct (bool_decide (rerr <> None) && negb _).
  { injection H as <- <- <- <-. done. }
  apply bind_inv in H as (buf2 & w1 & Hbuf2 & H).
  unfold liftR in Hbuf2. injection Hbuf2 as Hbuf2 <-.
  apply zero_filled_slice_to in Hbuf2 as (Hbuf2 & _ & _); [|done].
  apply bind_inv in H as ([nw werr] & w2 & Hwrite & H).
  assert (0 <= nw /\ zero_file name fd (written + nw) w2) as [Hnw Hz2].
  { destruct (blen buf2 mod directioAlignSize =? 0).
    - eapply File_Write_zero; [exact Hbuf2 | exact Hz | exact Hwrite].
    - eapply writeUnaligned_zero; [exact Hbuf2 | exact Hz | exact Hwrite]. }
  cbv beta iota zeta in H.
  assert (zero_file name fd (if nw >? 0 then written + nw else written) w2) as Hz3.
  { destruct (nw >? 0) eqn:Hgt; [done|].
    assert (nw = 0) as -> by (rewrite Z.gtb_ltb in Hgt; apply Z.ltb_ge in Hgt; lia).
    by rewrite Z.add_0_r in Hz2. }
  destruct werr as [e|].
  { injection H as <- <- <- <-. done. }
  destruct (negb (nw =? blen buf2)).
  { injection H as <- <- <- <-. done. }
  destruct (negb (total =? -1) && _).
  { injection H as <- <- <- <-. done. }
  destruct (is_err rerr EOF || is_err rerr ErrUnexpectedEOF).
  { injection H as <- <- <- <-. done. }
  eapply IH; [| |exact H]; done.
Qed.

Lemma Fallocate_ok_inv fd name pos d off len w w3 :
  len <> 0 ->
  fdtab w !! fd = Some (mkOpenFile name pos d) ->
  Fallocate E fd off len w = (Ok None, w3) ->
  w3 = set_trace (trace w ++ [EvFallocate fd 1 off len]) w.
Proof.
  intros Hlen Hfd. destruct (sys_fallocate E name off len) as [e|] eqn:Hfa.
  - rewrite (Fallocate_fails _ _ _ _ _ _ _ _ Hlen Hfd Hfa). discriminate.
  - rewrite (Fallocate_keeps_size _ _ _ _ _ _ _ Hlen Hfd Hfa). by intros [= <-].
Qed.

(** Where the copy starts, the file is there, empty, and open at
    offset 0; the pool is the one [write_to] found. *)
Lemma reaches_copy_zero_file name fileSize w w3 :
  reaches_copy E filepath_Dir name fileSize w w3 ->
  zero_file name (next_fd w) 0 w3 /\ pool w3 = pool w /\ stdout w3 = stdout w.
Proof.
  intros (Hmk & Hop & Hfree & Hfa).
  set (w1 := set_trace _ w) in *.
  assert (zero_file name (next_fd w) 0 (created name write_flags 438 w1)) as Hz.
  { split; [done|]. split.
    - unfold created. cbn. apply lookup_insert_eq.
    - eexists. exact (fdtab_created name write_flags 438 w1). }
  destruct (fileSize >? 0) eqn:Hs.
  - apply Fallocate_ok_inv with (name := name) (pos := 0) (d := true) in Hfa;
      [| apply Z.gtb_lt in Hs; lia | exact (fdtab_created name write_flags 438 w1)].
    subst w3. done.
  - injection Hfa as <-. done.
Qed.

Lemma pool_Get_zero w b w4 :
  pool_zero w -> pool_Get w = (Ok b, w4) ->
  zero_filled b /\ pool_zero w4 /\
  files w4 = files w /\ fdtab w4 = fdtab w /\ stdout w4 = stdout w.
Proof.
  unfold pool_zero, pool_Get, bind, get_world. cbv beta iota.
  destruct (pool w) as [|b0 rest] eqn:Hp; intros Hz.
  - intros [= <- <-]. rewrite Hp. done.
  - intros [= <- <-]. apply Forall_cons in Hz as [Hb Hrest]. done.
Qed.

Lemma finish_world obj name fd b w w' :
  finish E debug obj name fd b w = (Ok tt, w') ->
  files w' = files w /\ pool w' = b :: pool w /\
  stdout w' = stdout w ++ (if (elapsed E obj >? Second) && debug
                           then [slow_message name] else []).
Proof.
  unfold finish. destruct (_ && _); intros [= <-]; cbn; [done|].
  by rewrite app_nil_r.
Qed.

(** C4. A write of size S > 0 that succeeds has created its file, and
    the file holds exactly S null bytes, nothing before and nothing
    after: the reader reports the buffer as read without touching it, and
    the buffers of the pool are null from their allocation on. The pool
    is left with null buffers only. *)
Theorem write_null_content fuel obj drives drive fileSize tree d w :
  pool_zero w ->
  0 < fileSize ->
  drives !! Z.to_nat (rand_Intn E obj mod len_ drives) = Some drive ->
  fst (write' fuel obj drives fileSize tree w) = Ok (d, None) ->
  files w !! name_of obj drive tree = None /\
  files (snd (write' fuel obj drives fileSize tree w)) !! name_of obj drive tree
  = Some (replicate (Z.to_nat fileSize) x00) /\
  pool_zero (snd (write' fuel obj drives fileSize tree w)).
Proof.
  intros Hpool Hpos Hd Hok.
  rewrite (write_pick _ _ _ _ _ _ _ Hd) in *.
  set (name := name_of obj drive tree) in *.
  destruct (write_to E filepath_Dir debug fuel obj name fileSize w) as [r w'] eqn:H.
  simpl in Hok. subst r. cbn [snd].
  apply write_to_ok_inv in H as (w3 & b & w4 & b' & w5 & Hreach & Hget & Hcopy & _ & Hfin).
  pose proof Hreach as (_ & _ & Hfree & _).
  apply reaches_copy_zero_file in Hreach as ((_ & Hfile & dd & Hfd) & Hp3 & _).
  apply pool_Get_zero in Hget as (Hb & Hp4 & Hf4 & Hd4 & _);
    [|by unfold pool_zero; rewrite Hp3].
  assert (pool w5 = pool w4) as Hp5.
  { pose proof (keeps_CopyAligned pool (fun _ _ _ => eq_refl) (fun _ _ => eq_refl)
                  (fun _ _ => eq_refl) fuel (next_fd w)
                  (LimitReader mk_nullReader fileSize) b fileSize w4) as Hkeep.
    by rewrite Hcopy in Hkeep. }
  apply (CopyAligned_loop_zero name (next_fd w)) in Hcopy as (Hb' & _ & Hfile5 & _);
    [|done|].
  2:{ split; [done|]. rewrite Hf4, Hd4. eauto. }
  apply finish_world in Hfin as (Hf' & Hp' & _).
  split; [done|]. split; [by rewrite Hf'|].
  unfold pool_zero. rewrite Hp', Hp5. by apply Forall_cons.
Qed.


(** *** The slow-write line *)

(** In the later variant a successful write prints the slow-write line,
    with the path it wrote, exactly when it took more than a second and
    debug is on. *)
Lemma write_slow_line fuel obj drives drive fileSize tree d w :
  drives !! Z.to_nat (rand_Intn E obj mod len_ drives) = Some drive ->
  fst (write' fuel obj drives fileSize tree w) = Ok (d, None) ->
  d = elapsed E obj /\
  stdout (snd (write' fuel obj drives fileSize tree w))
  = stdout w ++ (if (d >? Second) && debug
                 then [slow_message (name_of obj drive tree)] else []).
Proof.
  intros Hd Hok.
  rewrite (write_pick _ _ _ _ _ _ _ Hd) in *.
  set (name := name_of obj drive tree) in *.
  destruct (write_to E filepath_Dir debug fuel obj name fileSize w) as [r w'] eqn:H.
  simpl in Hok. subst r. cbn [snd].
  apply write_to_ok_inv in H as (w3 & b & w4 & b' & w5 & Hreach & Hget & Hcopy & -> & Hfin).
  split; [done|].
  apply reaches_copy_zero_file in Hreach as (_ & _ & Hs3).
  assert (stdout w4 = stdout w3) as Hs4.
  { unfold pool_Get, bind, get_world in Hget. cbv beta iota in Hget.
    destruct (pool w3); by injection Hget as _ <-. }
  assert (stdout w5 = stdout w4) as Hs5.
  { pose proof (keeps_CopyAligned stdout (fun _ _ _ => eq_refl) (fun _ _ => eq_refl)
                  (fun _ _ => eq_refl) fuel (next_fd w)
                  (LimitReader mk_nullReader fileSize) b fileSize w4) as Hkeep.
    by rewrite Hcopy in Hkeep. }
  apply finish_world in Hfin as (_ & _ & ->). by rewrite Hs5, Hs4, Hs3.
Qed.

(** Without debug, [write] prints nothing, whatever happens. *)
Lemma write_silent_without_debug fuel obj drives fileSize tree :
  debug = false -> keeps stdout (write' fuel obj drives fileSize tree).
Proof.
  intros Hdebug. unfold write. apply keeps_pick. intros drive.
  unfold write_to, pool_Get, pool_Put. rewrite Hdebug.
  repeat first [ rewrite andb_false_r | progress frames ].
Qed.

End ProgramFacts.

(** In the earlier variant the goroutine prints the slow-write line, with
    the ordinal of the task in its batch, after every successful write
    that took more than a second; debug plays no part. *)
Lemma Simple_task_slow_line E J D debug fuel obj drives fileSize ts i w w1 :
  Simple.write E J D debug fuel (to_int64 (obj + i)) drives fileSize w = (Ok None, w1) ->
  stdout (snd (Simple.task E J D debug fuel obj drives fileSize ts i w))
  = stdout w1 ++ (if elapsed E (to_int64 (obj + i)) >? Second
                  then [Simple.slow_message i] else []).
Proof.
  intros H. unfold Simple.task.
  rewrite (bind_ok _ _ _ _ _ H). cbv beta iota zeta.
  unfold float_store.
  destruct (elapsed E (to_int64 (obj + i)) >? Second); destruct (_ || _); cbn;
    by rewrite ?app_nil_r.
Qed.

(** C6, as the two variants have it. Later variant: a successful write
    prints the slow-write line exactly when its duration exceeds one
    second and debug is on, and the line names the path written. Earlier
    variant: the goroutine prints the line after every successful write
    whose duration exceeds one second, debug on or off, and the line
    names the ordinal of the task in its batch. *)
Theorem slow_write_report E J D debug fuel obj drives drive fileSize ts tree i d w w1 :
  (drives !! Z.to_nat (rand_Intn E (to_int64 (obj + i)) mod len_ drives) = Some drive ->
   fst (write E J D debug fuel (to_int64 (obj + i)) drives fileSize tree w) = Ok (d, None) ->
   stdout (snd (write E J D debug fuel (to_int64 (obj + i)) drives fileSize tree w))
   = stdout w ++ (if (d >? Second) && debug
                  then [Text ("object " ++ object_name E J (to_int64 (obj + i)) drive tree
                              ++ " took more than a second to write")]
                  else [])) /\
  (Simple.write E J D debug fuel (to_int64 (obj + i)) drives fileSize w = (Ok None, w1) ->
   stdout (snd (Simple.task E J D debug fuel obj drives fileSize ts i w))
   = stdout w1 ++ (if elapsed E (to_int64 (obj + i)) >? Second
                   then [Text ("object " ++ Simple.Ordinal (to_int64 (i + 1))
                               ++ " took more than a second to write")]
                   else [])).
Proof.
  split.
  - intros Hd Hok. by apply write_slow_line.
  - apply Simple_task_slow_line.
Qed.

(** ** The scheduler and the samples *)

Lemma to_int64_small z : - 2 ^ 63 <= z < 2 ^ 63 -> to_int64 z = z.
Proof. intros H. unfold to_int64. rewrite Z.mod_small; lia. Qed.

(** *** The batches of a run *)

Section Batches.

Variable E : Env.
Variable filepath_Join : string -> string -> string.
Variable filepath_Dir : string -> string.
Variable debug : bool.

Local Abbreviation sched w := (sched_events (trace w)).

Lemma sched_emit ev w :
  is_sched ev = false -> sched (set_trace (trace w ++ [ev]) w) = sched w.
Proof.
  intros H. unfold sched_events. cbn [trace set_trace].
  rewrite List.filter_app. cbn. rewrite H. by rewrite app_nil_r.
Qed.

Lemma sched_emit_go obj w :
  sched (set_trace (trace w ++ [EvGo obj]) w) = sched w ++ [EvGo obj].
Proof. unfold sched_events. cbn [trace set_trace]. by rewrite List.filter_app. Qed.

(** A goroutine makes system calls only: no scheduler event. *)
Lemma task_keeps_sched fuel obj drives fileSize ts tree i :
  keeps (fun w => sched_events (trace w))
        (task E filepath_Join filepath_Dir debug fuel obj drives fileSize ts tree i).
Proof.
  unfold task, write. apply keeps_bind.
  - apply keeps_pick. intros drive. unfold write_to, pool_Get, pool_Put.
    repeat first
      [ apply keeps_os_MkdirAll; [apply sched_emit | intros; reflexivity..]
      | apply keeps_OpenFileDirectIO; [apply sched_emit | intros; reflexivity..]
      | apply keeps_Fallocate; [apply sched_emit | intros; reflexivity..]
      | apply keeps_CopyAligned; [apply sched_emit | intros; reflexivity..]
      | apply keeps_Fdatasync; apply sched_emit
      | apply keeps_File_Close; [apply sched_emit | intros; reflexivity..]
      | keeps_step ].
  - intros [d [e|]]; unfold float_store; keeps_tac.
Qed.

Lemma batch_tasks_events fuel obj drives fileSize ts tree (l : list Z) w w' :
  forM_ l (fun i => emit (EvGo (to_int64 (obj + i))) ;;;
                    task E filepath_Join filepath_Dir debug fuel obj drives fileSize ts tree i)
        w = (Ok tt, w') ->
  sched w' = sched w ++ (EvGo <$> ((fun i => to_int64 (obj + i)) <$> l)).
Proof.
  revert w. induction l as [|i l IH]; intros w H.
  - injection H as <-. by rewrite app_nil_r.
  - cbn [forM_] in H.
    apply bind_inv in H as ([] & w1 & H1 & H).
    apply bind_inv in H1 as ([] & w0 & Hemit & H1). injection Hemit as <-.
    pose proof (task_keeps_sched fuel obj drives fileSize ts tree i
                  (set_trace (trace w ++ [EvGo (to_int64 (obj + i))]) w)) as Hk.
    rewrite H1 in Hk. cbn [snd] in Hk.
    rewrite (IH _ H), Hk, sched_emit_go, !fmap_cons, <- app_assoc. done.
Qed.

(** A batch that ends normally has launched its objects in order and
    then passed the barrier. *)
Lemma concurrentWrite_events fuel obj drives fileSize n ts tree w w' :
  concurrentWrite E filepath_Join filepath_Dir debug fuel obj drives fileSize n ts tree w
  = (Ok tt, w') ->
  0 <= obj -> obj + n < 2 ^ 62 ->
  sched w' = sched w ++ batch_events obj n.
Proof.
  unfold concurrentWrite. intros H Hobj Hn.
  apply bind_inv in H as ([] & w0 & Hneg & H).
  destruct (n <? 0) eqn:Hlt; [discriminate|]. injection Hneg as <-.
  apply Z.ltb_ge in Hlt.
  apply bind_inv in H as ([] & w1 & Hloop & H). injection H as <-.
  apply batch_tasks_events in Hloop.
  unfold sched_events in *. cbn [trace set_trace].
  rewrite List.filter_app, Hloop. cbn. unfold batch_events.
  rewrite <- app_assoc. do 3 f_equal.
  transitivity (Z.add obj <$> seqZ 0 n).
  - apply list_fmap_ext. intros k i Hi.
    apply lookup_seqZ in Hi as [-> Hi]. apply to_int64_small. lia.
  - by rewrite fmap_add_seqZ, Z.add_0_r.
Qed.

Lemma full_batches_step i C T :
  0 < C -> 0 <= i -> i + C <= T ->
  full_batches i C T = batch_events i C ++ full_batches (i + C) C T.
Proof.
  intros HC Hi HT. unfold full_batches.
  replace (T - i) with (T - (i + C) + 1 * C) by lia.
  rewrite Z.div_add by lia.
  replace ((T - (i + C)) / C + 1) with (Z.succ ((T - (i + C)) / C)) by lia.
  rewrite seqZ_cons by (pose proof (Z.div_pos (T - (i + C)) C); lia).
  rewrite Z.pred_succ, fmap_cons. cbn [concat]. rewrite Z.mul_0_l, Z.add_0_r.
  f_equal. f_equal.
  rewrite <- (fmap_add_seqZ 1 0), <- list_fmap_compose.
  apply list_fmap_ext. intros k b Hb. cbn. f_equal. lia.
Qed.

Lemma full_batches_none i C T : T <= i -> 0 < C \/ i = T -> full_batches i C T = [].
Proof.
  intros Hi HC. unfold full_batches.
  destruct HC as [HC| ->].
  - assert ((T - i) / C <= 0) as Hd.
    { destruct (Z.eq_dec T i) as [->|Hne].
      - by rewrite Z.sub_diag, Z.div_0_l by lia.
      - pose proof (Z.div_lt_upper_bound (T - i) C 0). lia. }
    by rewrite seqZ_nil by lia.
  - by rewrite Z.sub_diag, Zdiv_0_l.
Qed.

End Batches.

Section SchedulerFacts.

Variable E : Env.
Variable filepath_Join : string -> string -> string.
Variable filepath_Dir : string -> string.
Variable debug : bool.

Local Abbreviation write' := (write E filepath_Join filepath_Dir debug).
Local Abbreviation task' := (task E filepath_Join filepath_Dir debug).
Local Abbreviation concurrentWrite' := (concurrentWrite E filepath_Join filepath_Dir debug).
Local Abbreviation done_in := (samples_done E).

(** A goroutine that ends normally has stored, at its index of the
    slice, the time its write took, and changed no other sample. *)
Lemma task_ok_inv fuel obj drives fileSize ts tree i w w' :
  task' fuel obj drives fileSize ts tree i w = (Ok tt, w') ->
  0 <= i < fs_len ts /\
  intervals w'
  = <[Z.to_nat (fs_off ts + i) := elapsed E (to_int64 (obj + i))]> (intervals w).
Proof.
  unfold task. intros H.
  apply bind_inv in H as ([d [e|]] & w1 & Hw & H); [discriminate|].
  pose proof (write_keeps_intervals E filepath_Join filepath_Dir debug
                fuel (to_int64 (obj + i)) drives fileSize tree w) as Hk.
  rewrite Hw in Hk. cbn [snd] in Hk.
  destruct (write_ok_pick _ _ _ _ _ _ _ _ _ _ _ _ Hw) as [drive Hd].
  destruct (write_slow_line E filepath_Join filepath_Dir debug fuel _ drives drive
              fileSize tree d w Hd) as [-> _]; [by rewrite Hw|].
  unfold float_store in H.
  destruct ((i <? 0) || (fs_len ts <=? i)) eqn:Hi; [discriminate|].
  apply orb_false_iff in Hi as [H1 H2]. apply Z.ltb_ge in H1. apply Z.leb_gt in H2.
  injection H as <-. cbn. by rewrite Hk.
Qed.

(** The tasks of a batch, over the indices [l] of a slice that starts at
    the batch's first object. *)
Lemma batch_tasks_samples fuel obj drives fileSize ts tree (l : list Z) w w' :
  forM_ l (fun i => emit (EvGo (to_int64 (obj + i))) ;;;
                    task' fuel obj drives fileSize ts tree i) w = (Ok tt, w') ->
  fs_off ts = obj -> 0 <= obj ->
  obj + fs_len ts <= len_ (intervals w) -> len_ (intervals w) < 2 ^ 62 ->
  Forall (fun i => 0 <= i < fs_len ts) l /\
  length (intervals w') = length (intervals w) /\
  (forall j, 0 <= j -> j - obj ∈ l -> intervals w' !! Z.to_nat j = Some (elapsed E j)) /\
  (forall j, 0 <= j -> j - obj ∉ l -> intervals w' !! Z.to_nat j = intervals w !! Z.to_nat j).
Proof.
  revert w. induction l as [|i l IH]; intros w H Hoff Hobj Hlen Hbound.
  - injection H as <-. split; [constructor|]. split; [done|].
    split; [intros j _ Hj; by apply elem_of_nil in Hj | done].
  - cbn [forM_] in H.
    apply bind_inv in H as ([] & w1 & H1 & H).
    apply bind_inv in H1 as ([] & w0 & Hemit & H1).
    injection Hemit as <-.
    apply task_ok_inv in H1 as (Hi & Hw1). cbn [intervals set_trace] in Hw1.
    assert (length (intervals w1) = length (intervals w)) as Hl1
      by (rewrite Hw1; apply length_insert).
    apply IH in H as (Hall & Hl & Hin & Hout); try done.
    2:{ unfold len_ in *. rewrite Hl1. done. }
    2:{ unfold len_ in *. rewrite Hl1. done. }
    split; [by constructor|]. split; [congruence|].
    assert (forall j, 0 <= j -> j - obj = i ->
              intervals w1 !! Z.to_nat j = Some (elapsed E j)) as Hhere.
    { intros j Hj <-. rewrite Hw1, Hoff.
      replace (obj + (j - obj)) with j by lia.
      rewrite to_int64_small by (unfold len_ in *; lia).
      apply list_lookup_insert_eq. unfold len_ in *. lia. }
    split.
    + intros j Hj Hjl. destruct (decide (j - obj ∈ l)) as [Hl'|Hl'].
      * by apply Hin.
      * rewrite Hout by done. apply Hhere; [done|].
        apply elem_of_cons in Hjl as [?|?]; done.
    + intros j Hj Hjl. apply not_elem_of_cons in Hjl as [Hne Hjl].
      rewrite Hout by done. rewrite Hw1, Hoff.
      apply list_lookup_insert_ne. lia.
Qed.

(** A batch that ends normally has filled the samples of its objects
    and no other. *)
Lemma concurrentWrite_samples fuel obj drives fileSize n ts tree w w' :
  concurrentWrite' fuel obj drives fileSize n ts tree w = (Ok tt, w') ->
  fs_off ts = obj -> 0 <= obj ->
  obj + fs_len ts <= len_ (intervals w) -> len_ (intervals w) < 2 ^ 62 ->
  0 <= n /\ (0 < n -> n <= fs_len ts) /\
  len_ (intervals w') = len_ (intervals w) /\
  done_in w' obj (obj + n) /\
  (forall j, 0 <= j -> ~ (obj <= j < obj + n) ->
     intervals w' !! Z.to_nat j = intervals w !! Z.to_nat j).
Proof.
  unfold concurrentWrite. intros H Hoff Hobj Hlen Hbound.
  apply bind_inv in H as ([] & w0 & Hn & H).
  destruct (n <? 0) eqn:Hneg; [discriminate|]. injection Hn as <-.
  apply Z.ltb_ge in Hneg.
  apply bind_inv in H as ([] & w1 & Hloop & H). injection H as <-.
  apply batch_tasks_samples in Hloop as (Hall & Hl & Hin & Hout); try done.
  cbn [intervals set_trace].
  split; [done|]. split.
  { intros Hpos. rewrite Forall_forall in Hall.
    assert (n - 1 ∈ seqZ 0 n) as Hm by (apply elem_of_seqZ; lia).
    apply Hall in Hm. lia. }
  split; [unfold len_; by rewrite Hl|]. split.
  - intros j Hj. apply Hin; [lia|]. apply elem_of_seqZ. lia.
  - intros j Hj Hnot. apply Hout; [done|]. rewrite elem_of_seqZ. lia.
Qed.

(** The loop of [main], when it ends normally: every sample is filled;
    and if there was anything left to do, the batch size is positive and
    divides what was left. *)
Lemma main_loop_samples n fuel drives C fileSize T ts tree i w w' :
  main_loop E filepath_Join filepath_Dir debug n fuel drives C fileSize T ts tree i w
  = (Ok tt, w') ->
  ts = mkFloatSlice 0 T T -> len_ (intervals w) = T -> 0 <= T < 2 ^ 62 ->
  - 2 ^ 63 <= C < 2 ^ 63 ->
  0 <= i -> done_in w 0 i ->
  len_ (intervals w') = T /\ done_in w' 0 T /\
  (i < T -> 0 < C /\ (T - i) mod C = 0) /\
  (i <= T -> sched_events (trace w') = sched_events (trace w) ++ full_batches i C T).
Proof.
  revert i w. induction n as [|n IH]; intros i w H Hts Hlen HT HC Hi Hdone;
    cbn [main_loop] in H; rewrite (to_int64_small T) in H by lia.
  - destruct (i <? T) eqn:HiT; [discriminate|]. apply Z.ltb_ge in HiT.
    injection H as <-. split; [done|]. split; [|split; [lia|]].
    + intros j Hj. apply Hdone. lia.
    + intros HiT'. rewrite full_batches_none; [by rewrite app_nil_r|done|right; lia].
  - destruct (i <? T) eqn:HiT.
    2:{ apply Z.ltb_ge in HiT. injection H as <-. split; [done|].
        split; [|split; [lia|]].
        - intros j Hj. apply Hdone. lia.
        - intros HiT'. rewrite full_batches_none; [by rewrite app_nil_r|done|right; lia]. }
    apply Z.ltb_lt in HiT.
    apply bind_inv in H as (s & w0 & Hslice & H).
    unfold float_slice in Hslice. subst ts. cbn [fs_cap fs_off fs_len] in Hslice.
    set (b := to_int64 (i + C)) in *.
    destruct ((b <? 0) || (T <? b)) eqn:Hb1; [discriminate|].
    destruct ((i <? 0) || (b <? i)) eqn:Hb2; [discriminate|].
    injection Hslice as <- <-.
    apply orb_false_iff in Hb1 as [Hb1 Hb1']. apply orb_false_iff in Hb2 as [_ Hb2].
    apply Z.ltb_ge in Hb1, Hb1', Hb2.
    assert (b = i + C) as Hb.
    { subst b. unfold to_int64 in *.
      destruct (Z_lt_ge_dec (i + C) (2 ^ 63)) as [Hlt|Hge].
      - rewrite Z.mod_small; lia.
      - exfalso. replace (i + C + 2 ^ 63) with (i + C - 2 ^ 63 + 1 * 2 ^ 64) in Hb1 by lia.
        rewrite Z.mod_add in Hb1 by lia. rewrite Z.mod_small in Hb1; lia. }
    clearbody b. subst b.
    apply bind_inv in H as ([] & w1 & Hbatch & H).
    pose proof (concurrentWrite_events E filepath_Join filepath_Dir debug
                  _ _ _ _ _ _ _ _ _ Hbatch Hi ltac:(lia)) as Hev.
    apply concurrentWrite_samples in Hbatch as (HC0 & HCs & Hl1 & Hd1 & Hout);
      cbn [fs_off fs_len]; try lia.
    apply IH in H as (Hl' & Hd' & Hdiv & Hev'); try done; try lia.
    + assert (0 < C) as HCpos.
      { destruct (Z_lt_ge_dec (i + C) T) as [Hlt|Hge]; [by destruct (Hdiv Hlt)|lia]. }
      split; [done|]. split; [done|]. split.
      * intros _. split; [done|].
        destruct (Z_lt_ge_dec (i + C) T) as [Hlt|Hge].
        -- destruct (Hdiv Hlt) as [_ Hmod].
           replace (T - i) with (T - (i + C) + 1 * C) by lia.
           by rewrite Z.mod_add by lia.
        -- assert (i + C = T) as HT' by lia.
           replace (T - i) with C by lia. apply Z.mod_same. lia.
      * intros _. rewrite Hev' by lia. rewrite Hev, (full_batches_step i C T) by lia.
        by rewrite <- app_assoc.
    + intros j Hj. destruct (Z_lt_ge_dec j i) as [Hlt|Hge].
      * rewrite Hout by lia. apply Hdone. lia.
      * apply Hd1. lia.
Qed.

Variable Pattern : Type.
Variable HasEllipses : string -> bool.
Variable FindEllipsesPatterns : string -> list Pattern * option error.
Variable Expand : Pattern -> list string.

Local Abbreviation schedule' :=
  (schedule E filepath_Join filepath_Dir debug Pattern HasEllipses FindEllipsesPatterns Expand).

(** A run that gets to the report: the slice of samples is the whole
    array, of the length asked for, every sample is the time the write of
    its object took, and the objects were written in one batch smaller
    than the concurrency or in full batches that divide the total. *)
Lemma schedule_samples fuel cfg w ts w1 :
  valid_config cfg ->
  schedule' fuel cfg w = (Ok ts, w1) ->
  ts = mkFloatSlice 0 (NFILES cfg) (NFILES cfg) /\
  len_ (intervals w1) = NFILES cfg /\
  done_in w1 0 (NFILES cfg) /\
  (NFILES cfg < CONCURRENT cfg \/
   NFILES cfg = 0 \/
   (0 < CONCURRENT cfg /\ NFILES cfg mod CONCURRENT cfg = 0)) /\
  sched_events (trace w1)
  = sched_events (trace w) ++ run_batches (NFILES cfg) (CONCURRENT cfg).
Proof.
  intros (HC & HS & HT) H. unfold schedule in H.
  apply bind_inv in H as (drives & w0 & Hdrives & H).
  unfold liftR in Hdrives. injection Hdrives as _ <-.
  apply bind_inv in H as (ts0 & w2 & Hmake & H).
  unfold make_float64s in Hmake.
  destruct ((NFILES cfg <? 0) || (maxAlloc <? 8 * NFILES cfg)) eqn:Hm; [discriminate|].
  apply orb_false_iff in Hm as [_ Hm]. apply Z.ltb_ge in Hm.
  assert (NFILES cfg < 2 ^ 62) as HT62 by (unfold maxAlloc in Hm; lia).
  injection Hmake as <- <-.
  assert (len_ (intervals (set_intervals (replicate (Z.to_nat (NFILES cfg)) 0) w))
          = NFILES cfg) as Hlen.
  { unfold len_. cbn. rewrite length_replicate. lia. }
  set (w2 := set_intervals _ w) in *.
  apply bind_inv in H as ([] & w3 & Hrun & H). injection H as <- <-.
  split; [done|].
  rewrite (to_int64_small (NFILES cfg)) in Hrun by lia.
  destruct (NFILES cfg <? CONCURRENT cfg) eqn:Hlt.
  - apply Z.ltb_lt in Hlt.
    apply bind_inv in Hrun as (s & w4 & Hslice & Hrun).
    unfold float_slice in Hslice. cbn [fs_cap fs_off] in Hslice.
    destruct ((NFILES cfg <? 0) || (NFILES cfg <? NFILES cfg)) eqn:Hb1.
    { apply orb_true_iff in Hb1 as [Hb1|Hb1]; apply Z.ltb_lt in Hb1; lia. }
    destruct ((0 <? 0) || (NFILES cfg <? 0)) eqn:Hb2.
    { apply orb_true_iff in Hb2 as [Hb2|Hb2]; apply Z.ltb_lt in Hb2; lia. }
    injection Hslice as <- <-.
    pose proof (concurrentWrite_events E filepath_Join filepath_Dir debug
                  _ _ _ _ _ _ _ _ _ Hrun ltac:(lia) ltac:(lia)) as Hev.
    apply concurrentWrite_samples in Hrun as (_ & _ & Hl & Hd & _);
      cbn [fs_off fs_len]; try lia.
    split; [lia|]. split; [done|]. split; [by left|].
    unfold run_batches. replace (NFILES cfg <? CONCURRENT cfg) with true
      by (symmetry; by apply Z.ltb_lt).
    exact Hev.
  - apply Z.ltb_ge in Hlt.
    apply main_loop_samples in Hrun as (Hl & Hd & Hdiv & Hev); try done; try lia.
    2:{ intros j Hj. lia. }
    split; [done|]. split; [done|]. split.
    + right. destruct (Z.eq_dec (NFILES cfg) 0) as [?|Hne]; [by left|right].
      destruct Hdiv as [Hpos Hmod]; [lia|]. by rewrite Z.sub_0_r in Hmod.
    + unfold run_batches. replace (NFILES cfg <? CONCURRENT cfg) with false
        by (symmetry; by apply Z.ltb_ge).
      apply Hev. lia.
Qed.

(** *** The report *)

Lemma StronglySorted_lookup_le (l : list Z) (i j : nat) (x y : Z) :
  StronglySorted Z.le l -> l !! i = Some x -> l !! j = Some y -> (i <= j)%nat -> x <= y.
Proof.
  intros Hs. revert i j. induction Hs as [|a l Hs IH Hall]; intros i j Hi Hj Hij.
  - by rewrite lookup_nil in Hi.
  - destruct i as [|i], j as [|j]; simpl in *.
    + injection Hi as <-. injection Hj as <-. lia.
    + injection Hi as <-. rewrite Forall_forall in Hall.
      apply Hall. by eapply list_elem_of_lookup_2.
    + lia.
    + eapply IH; eauto. lia.
Qed.

Lemma sum_Z_bounds (l : list Z) (lo hi : Z) :
  Forall (fun x => lo <= x <= hi) l ->
  len_ l * lo <= sum_Z l <= len_ l * hi.
Proof.
  unfold len_. induction 1 as [|x l Hx _ IH]; simpl; [lia|].
  rewrite Nat2Z.inj_succ. lia.
Qed.

(** The mean of samples that lie between two bounds lies between them. *)
Lemma Mean_between (l : list Z) (lo hi : Z) :
  l <> [] ->
  Forall (fun x => lo <= x <= hi) l ->
  Qle (inject_Z lo) (Mean l) /\ Qle (Mean l) (inject_Z hi).
Proof.
  intros Hne Hall. apply sum_Z_bounds in Hall.
  assert (0 < len_ l) as Hlen by (unfold len_; destruct l; [done|simpl; lia]).
  unfold Qle, Mean, inject_Z. cbn [Qnum Qden].
  rewrite Z2Pos.id by done. lia.
Qed.

Lemma Float64s_sorted (x : list Z) :
  StronglySorted Z.le (Float64s x) /\ Float64s x ≡ₚ x.
Proof.
  split.
  - apply StronglySorted_merge_sort; apply _.
  - apply merge_sort_Permutation.
Qed.

Lemma get_world_eq w : get_world w = (Ok w, w).
Proof. reflexivity. Qed.

Lemma modify_eq f w : modify f w = (Ok tt, f w).
Proof. reflexivity. Qed.

Lemma Print_eq l w : Print l w = (Ok tt, set_stdout (stdout w ++ [l]) w).
Proof. reflexivity. Qed.

Ltac step H := rewrite (bind_ok _ _ _ _ _ H); cbv beta iota.

Lemma float_load_eq s i x w :
  0 <= i < fs_len s -> 0 <= fs_off s ->
  intervals w !! Z.to_nat (fs_off s + i) = Some x ->
  float_load s i w = (Ok x, w).
Proof.
  intros Hi Hoff Hx. unfold float_load.
  replace ((i <? 0) || (fs_len s <=? i)) with false
    by (symmetry; apply orb_false_iff; split; [apply Z.ltb_ge; lia|apply Z.leb_gt; lia]).
  unfold bind, get_world, index.
  replace (fs_off s + i <? 0) with false by (symmetry; apply Z.ltb_ge; lia).
  by rewrite Hx.
Qed.

(** The report over T >= 1 samples: the array is sorted, and the lines
    show the mean, the deviation, the first and the last of the sorted
    samples. *)
Lemma report_lines T ts w :
  ts = mkFloatSlice 0 T T -> len_ (intervals w) = T -> 1 <= T ->
  exists lo hi,
    Float64s (intervals w) !! 0%nat = Some lo /\
    Float64s (intervals w) !! Z.to_nat (T - 1) = Some hi /\
    report ts w
    = (Ok tt,
       set_stdout (stdout w ++ [Stat "Mean time taken" (MeanOf (Float64s (intervals w)));
                                Stat "Standard deviation time taken"
                                     (StdDevOf (Float64s (intervals w)));
                                Stat "Fastest time taken" (DurationOf lo);
                                Stat "Slowest time taken" (DurationOf hi)])
         (set_intervals (Float64s (intervals w)) w)).
Proof.
  intros -> Hlen HT.
  destruct (Float64s_sorted (intervals w)) as [_ Hperm].
  apply Permutation_length in Hperm.
  destruct (lookup_lt_is_Some_2 (Float64s (intervals w)) 0%nat) as [lo Hlo].
  { unfold len_ in Hlen. lia. }
  destruct (lookup_lt_is_Some_2 (Float64s (intervals w)) (Z.to_nat (T - 1))) as [hi Hhi].
  { unfold len_ in Hlen. lia. }
  exists lo, hi. split; [done|]. split; [done|].
  unfold report, Println.
  step (modify_eq (fun w => set_intervals (Float64s (intervals w)) w) w).
  set (w1 := set_intervals _ w).
  step (get_world_eq w1).
  step (Print_eq (Stat "Mean time taken" (MeanOf (intervals w1))) w1).
  step (Print_eq (Stat "Standard deviation time taken" (StdDevOf (intervals w1)))
                 (set_stdout (stdout w1 ++ [Stat "Mean time taken" (MeanOf (intervals w1))]) w1)).
  erewrite bind_ok; [|apply (float_load_eq _ 0 lo); [cbn; lia|cbn; lia|exact Hlo]].
  cbv beta.
  erewrite bind_ok; [|apply Print_eq]. cbv beta.
  erewrite bind_ok; [|apply (float_load_eq _ (T - 1) hi); [cbn; lia|cbn; lia|exact Hhi]].
  cbv beta.
  unfold Print, modify. cbn. by rewrite <- !app_assoc.
Qed.

(** C7, for T >= 1. A run over valid options that gets to the report
    after T >= 1 objects were asked for hands the report exactly T
    samples, sample j being the time the write of object j took, none
    negative as no elapsed time is; sorted ascending, the first is at
    most the last, and the arithmetic mean of the samples lies between
    the two; the report prints them as fastest and slowest. *)
Theorem report_samples fuel cfg w ts :
  valid_config cfg ->
  (forall obj, 0 <= elapsed E obj) ->
  1 <= NFILES cfg ->
  fst (schedule' fuel cfg w) = Ok ts ->
  len_ (intervals (snd (schedule' fuel cfg w))) = NFILES cfg /\
  samples_done E (snd (schedule' fuel cfg w)) 0 (NFILES cfg) /\
  Forall (fun x => 0 <= x) (intervals (snd (schedule' fuel cfg w))) /\
  Float64s (intervals (snd (schedule' fuel cfg w)))
    ≡ₚ intervals (snd (schedule' fuel cfg w)) /\
  exists lo hi,
    Float64s (intervals (snd (schedule' fuel cfg w))) !! 0%nat = Some lo /\
    Float64s (intervals (snd (schedule' fuel cfg w))) !! Z.to_nat (NFILES cfg - 1) = Some hi /\
    lo <= hi /\
    Qle (inject_Z lo) (Mean (Float64s (intervals (snd (schedule' fuel cfg w))))) /\
    Qle (Mean (Float64s (intervals (snd (schedule' fuel cfg w))))) (inject_Z hi) /\
    fst (report ts (snd (schedule' fuel cfg w))) = Ok tt /\
    stdout (snd (report ts (snd (schedule' fuel cfg w))))
    = stdout (snd (schedule' fuel cfg w))
      ++ [Stat "Mean time taken"
               (MeanOf (Float64s (intervals (snd (schedule' fuel cfg w)))));
          Stat "Standard deviation time taken"
               (StdDevOf (Float64s (intervals (snd (schedule' fuel cfg w)))));
          Stat "Fastest time taken" (DurationOf lo);
          Stat "Slowest time taken" (DurationOf hi)].
Proof.
  intros Hvalid Htime HT Hok.
  destruct (schedule' fuel cfg w) as [r w1] eqn:Hs. cbn [fst snd] in *. subst r.
  destruct (schedule_samples _ _ _ _ _ Hvalid Hs) as (Hts & Hlen & Hdone & _ & _).
  destruct (Float64s_sorted (intervals w1)) as [Hsorted Hperm].
  assert (length (Float64s (intervals w1)) = Z.to_nat (NFILES cfg)) as Hlen'.
  { rewrite (Permutation_length Hperm). unfold len_ in Hlen. lia. }
  split; [done|]. split; [done|]. split.
  { apply Forall_lookup. intros i x Hx.
    assert (Z.of_nat i < NFILES cfg) as Hi.
    { apply lookup_lt_Some in Hx. unfold len_ in Hlen. lia. }
    specialize (Hdone (Z.of_nat i) ltac:(lia)). rewrite Nat2Z.id in Hdone.
    rewrite Hdone in Hx. injection Hx as <-. apply Htime. }
  split; [done|].
  destruct (report_lines (NFILES cfg) ts w1 Hts Hlen HT) as (lo & hi & Hlo & Hhi & Hrep).
  exists lo, hi. split; [done|]. split; [done|].
  assert (Forall (fun x => lo <= x <= hi) (Float64s (intervals w1))) as Hall.
  { apply Forall_lookup. intros i x Hx. split.
    - eapply (StronglySorted_lookup_le _ 0%nat i); eauto. lia.
    - eapply (StronglySorted_lookup_le _ i (Z.to_nat (NFILES cfg - 1))); eauto.
      apply lookup_lt_Some in Hx. lia. }
  split.
  { eapply (StronglySorted_lookup_le _ 0%nat (Z.to_nat (NFILES cfg - 1))); eauto. lia. }
  destruct (Mean_between (Float64s (intervals w1)) lo hi) as [Hm1 Hm2]; [|done|].
  { intros Hnil. rewrite Hnil in Hlo. by rewrite lookup_nil in Hlo. }
  split; [done|]. split; [done|].
  rewrite Hrep. done.
Qed.

End SchedulerFacts.

(** ** Batches and fatal errors of a run *)

(** A run over valid options that gets to the report has gone through
    its objects batch after batch, each batch launched in order and ended
    by its barrier: one batch of all the objects when they are fewer than
    the concurrency, else full batches, which the concurrency then
    divides the total into. *)
Lemma schedule_batches E J D debug Pattern Has Find Expand fuel cfg w ts :
  valid_config cfg ->
  fst (schedule E J D debug Pattern Has Find Expand fuel cfg w) = Ok ts ->
  sched_events (trace (snd (schedule E J D debug Pattern Has Find Expand fuel cfg w)))
  = sched_events (trace w) ++ run_batches (NFILES cfg) (CONCURRENT cfg) /\
  (NFILES cfg < CONCURRENT cfg \/ NFILES cfg = 0 \/
   (0 < CONCURRENT cfg /\ NFILES cfg mod CONCURRENT cfg = 0)).
Proof.
  intros Hvalid Hok.
  destruct (schedule E J D debug Pattern Has Find Expand fuel cfg w) as [r w1] eqn:Hs.
  cbn in Hok. subst r. cbn [snd].
  apply schedule_samples in Hs as (_ & _ & _ & Hdiv & Hev); done.
Qed.

(** A fatal task ends its batch there: with the tasks before it done, the
    batch is fatal with the task's message, in the world the task left;
    no later task runs and the barrier is not passed. *)
Lemma concurrentWrite_fatal E J D debug fuel obj drives fileSize n ts tree k w w1 w2 msg :
  0 <= k < n ->
  forM_ (seqZ 0 k) (fun i => emit (EvGo (to_int64 (obj + i))) ;;;
                             task E J D debug fuel obj drives fileSize ts tree i) w
  = (Ok tt, w1) ->
  task E J D debug fuel obj drives fileSize ts tree k
       (set_trace (trace w1 ++ [EvGo (to_int64 (obj + k))]) w1) = (Fatal msg, w2) ->
  concurrentWrite E J D debug fuel obj drives fileSize n ts tree w = (Fatal msg, w2).
Proof.
  intros Hk Hbefore Htask. unfold concurrentWrite.
  replace (n <? 0) with false by (symmetry; apply Z.ltb_ge; lia).
  rewrite (bind_ok _ _ w tt w eq_refl).
  apply bind_fatal.
  replace n with (k + Z.succ (n - k - 1)) by lia.
  rewrite seqZ_app by lia. rewrite (seqZ_cons (0 + k)) by lia.
  eapply forM_fatal; [exact Hbefore|].
  rewrite Z.add_0_l. unfold bind at 1. unfold emit, modify. exact Htask.
Qed.

(** ** A write succeeds when nothing fails *)

Section Liveness.

Variable E : Env.
Variable filepath_Join : string -> string -> string.
Variable filepath_Dir : string -> string.
Variable debug : bool.
Hypothesis Hquiet : quiet E.

Lemma bind_liftR_ok {A B} (a : A) (k : A -> M B) w : bind (liftR (Ok a)) k w = k a w.
Proof. reflexivity. Qed.

(** Behind a limit that leaves room for it, the null reader fills the
    whole slice in one read. *)
Lemma ReadFull_limited_null fuel (r : LimitedReader nullReader) buf :
  0 <= blen buf <= lr_N r ->
  exists r' buf',
    ReadFull (S fuel) r buf = Ok (r', buf', (blen buf, None)) /\
    lr_N r' = lr_N r - blen buf /\ blen buf' = blen buf.
Proof.
  intros Hk. unfold ReadFull, ReadAtLeast. rewrite Z.ltb_irrefl.
  cbn [ReadAtLeast_loop].
  destruct (0 <? blen buf) eqn:Hpos; cbn [andb].
  - apply Z.ltb_lt in Hpos. rewrite bool_decide_eq_true_2 by done.
    unfold slice_from. cbn [Z.leb Z.compare andb].
    replace (0 <=? blen buf) with true by (symmetry; apply Z.leb_le; lia).
    cbn [res_bind]. unfold Read at 1, LimitedReader_Read.
    replace (lr_N r <=? 0) with false by (symmetry; apply Z.leb_gt; lia).
    cbn [blen]. rewrite Z.sub_0_r.
    replace (blen buf >? lr_N r) with false
      by (symmetry; rewrite Z.gtb_ltb; apply Z.ltb_ge; lia).
    unfold Read, nullReader_Read. cbn [blen].
    rewrite Z.add_0_l.
    assert (forall f (r0 : LimitedReader nullReader) b0,
              ReadAtLeast_loop f r0 b0 (blen buf) (blen buf) None
              = Ok (r0, b0, (blen buf, None))) as Hstop.
    { intros f r0 b0. destruct f; cbn [ReadAtLeast_loop];
        rewrite Z.ltb_irrefl; cbn [andb];
        replace (blen buf >=? blen buf) with true
          by (symmetry; rewrite Z.geb_leb; apply Z.leb_le; lia);
        reflexivity. }
    rewrite Hstop. eexists _, _. split; [reflexivity|]. cbn. done.
  - apply Z.ltb_ge in Hpos. assert (blen buf = 0) as Hz by lia.
    exists r, buf. rewrite Hz. cbn. split; [done|]. split; [lia|done].
Qed.

Lemma File_Write_quiet fd name off d b w :
  fdtab w !! fd = Some (mkOpenFile name off d) ->
  0 <= blen b ->
  exists w', File_Write E fd b w = (Ok (blen b, None), w') /\
             fdtab w' !! fd = Some (mkOpenFile name (off + blen b) d).
Proof.
  intros Hfd Hb. destruct Hquiet as (_ & _ & _ & Hwrite & _).
  unfold File_Write. unfold bind at 1. unfold get_world. cbv beta iota.
  rewrite Hfd. cbn [of_name of_off of_direct]. rewrite Hwrite.
  replace (Z.max 0 (Z.min (blen b) (blen b))) with (blen b) by lia.
  rewrite Z.ltb_irrefl.
  unfold bind, emit, modify, ret. cbv beta iota.
  eexists. split; [reflexivity|]. cbn. apply lookup_insert_eq.
Qed.

Lemma writeUnaligned_quiet fd name off d b w :
  fdtab w !! fd = Some (mkOpenFile name off d) ->
  0 <= blen b ->
  exists w' d', writeUnaligned E fd b w = (Ok (blen b, None), w') /\
                fdtab w' !! fd = Some (mkOpenFile name (off + blen b) d').
Proof.
  intros Hfd Hb. pose proof Hquiet as (_ & _ & _ & _ & Hdis).
  unfold writeUnaligned, DisableDirectIO.
  unfold bind at 1. unfold bind at 1. unfold emit at 1, modify at 1. cbv beta iota.
  unfold bind at 1. unfold get_world. cbv beta iota.
  cbn [fdtab set_trace]. rewrite Hfd. cbn [of_name of_off]. rewrite Hdis.
  unfold bind at 1. unfold modify at 1, ret at 1. cbv beta iota.
  edestruct (File_Write_quiet fd name off false b) as (w' & Hw & Hfd'); [|done|].
  2:{ exists w', false. split; [exact Hw|exact Hfd']. }
  cbn. apply lookup_insert_eq.
Qed.

(** With fuel for one round per block, the copy from the null reader
    writes all the bytes asked for and reports them. *)
Lemma CopyAligned_loop_quiet fuel fd name d (r : LimitedReader nullReader) b total written w :
  fdtab w !! fd = Some (mkOpenFile name written d) ->
  0 < blen b ->
  0 <= written <= total ->
  lr_N r = total - written ->
  (1 <= fuel)%nat -> total - written <= Z.of_nat fuel * blen b ->
  exists b' w', CopyAligned_loop E fuel fd r b total written w
                = (Ok (b', (total, None)), w').
Proof.
  revert r b written d w.
  induction fuel as [|fuel IH]; intros r b written d w Hfd Hb Hw HN Hfuel Hrem; [lia|].
  cbn [CopyAligned_loop].
  replace (total =? -1) with false by (symmetry; apply Z.eqb_neq; lia).
  cbn [negb andb].
  set (k := Z.min (total - written) (blen b)).
  assert (exists buf, (if total - written <? blen b
                       then slice_to b (total - written) else Ok b) = Ok buf
                      /\ blen buf = k) as (buf & -> & Hk).
  { destruct (total - written <? blen b) eqn:Hlt.
    - apply Z.ltb_lt in Hlt. unfold slice_to.
      replace ((0 <=? total - written) && (total - written <=? blen b)) with true
        by (symmetry; apply andb_true_iff; split; apply Z.leb_le; lia).
      eexists. split; [reflexivity|]. cbn. lia.
    - apply Z.ltb_ge in Hlt. exists b. split; [done|]. lia. }
  rewrite bind_liftR_ok.
  destruct (ReadFull_limited_null fuel r buf) as (r' & buf' & Hread & HN' & Hlen');
    [lia|].
  rewrite Hread, bind_liftR_ok. cbv beta iota zeta.
  cbn [is_err orb andb negb]. rewrite bool_decide_eq_false_2 by (intros H; by apply H).
  cbn [andb].
  unfold slice_to at 1.
  replace ((0 <=? blen buf) && (blen buf <=? blen buf')) with true
    by (symmetry; apply andb_true_iff; split; apply Z.leb_le; lia).
  rewrite bind_liftR_ok. cbn [blen].
  assert (exists w1 d1,
            (if blen buf mod directioAlignSize =? 0
             then File_Write E fd (mkSlice (blen buf) (bat buf'))
             else writeUnaligned E fd (mkSlice (blen buf) (bat buf'))) w
            = (Ok (blen buf, None), w1) /\
            fdtab w1 !! fd = Some (mkOpenFile name (written + blen buf) d1))
    as (w1 & d1 & Hwrite & Hfd1).
  { destruct (blen buf mod directioAlignSize =? 0).
    - destruct (File_Write_quiet fd name written d (mkSlice (blen buf) (bat buf')) w)
        as (w1 & H1 & H2); [done|cbn; lia|]. by exists w1, d.
    - destruct (writeUnaligned_quiet fd name written d (mkSlice (blen buf) (bat buf')) w)
        as (w1 & d1 & H1 & H2); [done|cbn; lia|]. by exists w1, d1. }
  rewrite (bind_ok _ _ _ _ _ Hwrite). cbv beta iota zeta.
  rewrite Z.eqb_refl. cbn [negb].
  replace (if blen buf >? 0 then written + blen buf else written)
    with (written + blen buf) by (destruct (blen buf >? 0) eqn:Hg; [done|];
                                  rewrite Z.gtb_ltb in Hg; apply Z.ltb_ge in Hg; lia).
  destruct (written + blen buf =? total) eqn:Hdone.
  - apply Z.eqb_eq in Hdone. rewrite Hdone. eauto.
  - apply Z.eqb_neq in Hdone.
    unfold is_err. rewrite !bool_decide_eq_false_2 by discriminate. cbn [orb].
    apply (IH r' _ (written + blen buf) d1 w1); cbn [blen write_back];
      try done; try lia; nia.
Qed.

(** A write on a free path, in a quiet environment, with fuel for the
    size, returns the time it took. *)
Lemma write_to_quiet fuel obj name fileSize w :
  files w !! name = None ->
  pool_sized w ->
  0 <= fileSize ->
  (1 <= fuel)%nat -> fileSize <= Z.of_nat fuel * readBlockSize ->
  exists w', write_to E filepath_Dir debug fuel obj name fileSize w
             = (Ok (elapsed E obj, None), w').
Proof.
  intros Hfree Hpool HS Hfuel Hsize.
  pose proof Hquiet as (Hmk & Hop & Hfa & _ & _).
  set (w1 := set_trace (trace w ++ [EvMkdirAll (filepath_Dir name) 493]) w).
  assert (exists w3, reaches_copy E filepath_Dir name fileSize w w3 /\
                     fdtab w3 !! next_fd w = Some (mkOpenFile name 0 true) /\
                     pool w3 = pool w) as (w3 & Hreach & Hfd & Hp3).
  { destruct (fileSize >? 0) eqn:Hpos.
    - eexists. split; [|split].
      + split; [apply Hmk|]. split; [apply Hop|]. split; [done|]. rewrite Hpos.
        apply (Fallocate_keeps_size E) with (name := name) (pos := 0) (d := true);
          [rewrite Z.gtb_ltb in Hpos; apply Z.ltb_lt in Hpos; lia
          | exact (fdtab_created name write_flags 438 w1) | apply Hfa].
      + exact (fdtab_created name write_flags 438 w1).
      + reflexivity.
    - eexists. split; [|split].
      + split; [apply Hmk|]. split; [apply Hop|]. split; [done|]. rewrite Hpos.
        reflexivity.
      + exact (fdtab_created name write_flags 438 w1).
      + reflexivity. }
  rewrite (write_to_reaches_copy _ _ _ _ _ _ _ _ _ Hreach).
  assert (exists b w4, pool_Get w3 = (Ok b, w4) /\ blen b = readBlockSize /\
                       fdtab w4 = fdtab w3) as (b & w4 & Hget & Hb & Hfd4).
  { unfold pool_Get, bind, get_world. cbv beta iota. unfold pool_sized in Hpool.
    rewrite Hp3. destruct (pool w) as [|b0 rest].
    - exists pool_New, w3. done.
    - apply Forall_cons in Hpool as [Hb0 _]. exists b0, (set_pool rest w3). done. }
  rewrite (bind_ok _ _ _ _ _ Hget). cbv beta.
  assert (0 < blen b) as Hbpos by (rewrite Hb; unfold readBlockSize, MiByte; lia).
  assert (fileSize - 0 <= Z.of_nat fuel * blen b) as Hrem by (rewrite Hb; lia).
  assert (fdtab w4 !! next_fd w = Some (mkOpenFile name 0 true)) as Hfd4'
    by (by rewrite Hfd4).
  destruct (CopyAligned_loop_quiet fuel (next_fd w) name true
              (LimitReader mk_nullReader fileSize) b fileSize 0 w4
              Hfd4' Hbpos ltac:(lia) ltac:(cbn; lia) Hfuel Hrem)
    as (b' & w5 & Hcopy).
  unfold CopyAligned. rewrite (bind_ok _ _ _ _ _ Hcopy). cbv beta iota zeta.
  rewrite Z.eqb_refl. cbn [negb].
  unfold bind, Print, pool_Put, Fdatasync, File_Close, emit, modify, ret.
  destruct ((elapsed E obj >? Second) && debug); eauto.
Qed.

End Liveness.

(** ** The program at concrete inputs *)

(** [schedule] over the instances of the imported interfaces. *)
Local Abbreviation schedule_on e debug :=
  (schedule e join_clean dir_clean debug ellipses.Pattern ellipses.HasEllipses
            ellipses.FindEllipsesPatterns ellipses.Expand).

(** Over valid options, a run in which the concurrency is at most the
    total and does not divide it never gets to the report, whatever the
    system does. *)
Lemma schedule_needs_full_batches E J D debug Pattern Has Find Expand fuel cfg w :
  valid_config cfg ->
  0 < CONCURRENT cfg <= NFILES cfg ->
  NFILES cfg mod CONCURRENT cfg <> 0 ->
  forall ts, fst (schedule E J D debug Pattern Has Find Expand fuel cfg w) <> Ok ts.
Proof.
  intros Hvalid HC Hmod ts Hok.
  destruct (schedule E J D debug Pattern Has Find Expand fuel cfg w) as [r w1] eqn:Hs.
  cbn in Hok. subst r.
  apply schedule_samples in Hs as (_ & _ & _ & [H|[H|[_ H]]] & _); try done; lia.
Qed.

(** C1, at the spec's own example. With 10 objects and concurrency 3
    the program runs three batches of 3, each ended by its barrier, and
    then panics on the slice for the fourth, which it takes as 3 long
    again: samples 9 to 12 of an array of 10. The tenth object is never
    written, and no report is printed. *)
Theorem schedule_ten_by_three :
  let r := run quiet_env false 20 (mkConfig "/tmp/a,/tmp/b" 3 5 10 false) in
  fst r = Panic "slice bounds out of range [:12] with capacity 10" /\
  sched_events (trace (snd r))
  = [EvGo 0; EvGo 1; EvGo 2; EvWait; EvGo 3; EvGo 4; EvGo 5; EvWait;
     EvGo 6; EvGo 7; EvGo 8; EvWait] /\
  size (files (snd r)) = 9%nat /\
  stdout (snd r) = [].
Proof. vm_compute. repeat split; reflexivity. Qed.

(** Where the concurrency divides the total, or exceeds it, the batches
    are as the specification has them. *)
Example schedule_nine_by_three :
  let r := run quiet_env false 20 (mkConfig "/tmp/a,/tmp/b" 3 5 9 false) in
  fst r = Ok tt /\
  sched_events (trace (snd r))
  = [EvGo 0; EvGo 1; EvGo 2; EvWait; EvGo 3; EvGo 4; EvGo 5; EvWait;
     EvGo 6; EvGo 7; EvGo 8; EvWait].
Proof. vm_compute. split; reflexivity. Qed.

Example schedule_two_by_three :
  let r := run quiet_env false 20 (mkConfig "/tmp/a,/tmp/b" 3 5 2 false) in
  fst r = Ok tt /\ sched_events (trace (snd r)) = [EvGo 0; EvGo 1; EvWait].
Proof. vm_compute. split; reflexivity. Qed.

(** A size mismatch ends the run: no sample is stored and no report is
    printed. *)
Example run_size_mismatch :
  let r := run quiet_env false 20 (mkConfig "/a" 2 (2 ^ 64 - 1) 2 false) in
  fst r = Fatal "unexpected file size written expected -1, got 0" /\
  intervals (snd r) = [0; 0] /\ stdout (snd r) = [].
Proof. vm_compute. repeat split; reflexivity. Qed.

(** With the empty specification the run goes on to write, on the empty
    drive path. *)
Example run_empty_drives :
  let r := run quiet_env false 20 (mkConfig "" 2 3 1 false) in
  fst r = Ok tt /\ size (files (snd r)) = 1%nat.
Proof. vm_compute. split; reflexivity. Qed.

(** C7 fails at T = 0: the run gets to the report with no sample, the
    sorted array has no first element, and the report panics on it. *)
Lemma report_without_samples :
  let cfg := mkConfig "/tmp/a" 2 4096 0 false in
  let s := schedule_on quiet_env false 20 cfg (initial_world ∅) in
  fst s = Ok (mkFloatSlice 0 0 0) /\
  Float64s (intervals (snd s)) !! 0%nat = None /\
  fst (run quiet_env false 20 cfg) = Panic "index out of range".
Proof. vm_compute. repeat split; reflexivity. Qed.

(** C6 fails as stated: in the earlier variant the line is printed with
    debug off; in the later variant the line names the path, not an
    ordinal. *)
Lemma slow_report_counterexample :
  let w := set_intervals [0] (initial_world ∅) in
  stdout (snd (Simple.task slow_env join_clean dir_clean false 10 0 ["/tmp/a"%string] 8
                 (mkFloatSlice 0 1 1) 0 w))
  = [Text "object 1st took more than a second to write"] /\
  stdout (snd (task slow_env join_clean dir_clean true 10 0 ["/tmp/a"%string] 8
                 (mkFloatSlice 0 1 1) false 0 w))
  = [Text "object /tmp/a/0.N4VuV(Fm)sqHdYnVJxyPFPNTh1FPON9S took more than a second to write"].
Proof. vm_compute. split; reflexivity. Qed.

(** ** The theorems at work *)

Lemma write_null_content_witness :
  files (snd (write quiet_env join_clean dir_clean false 10 0 ["/tmp/a"%string] 5 false
                (initial_world ∅)))
    !! object_name quiet_env join_clean 0 "/tmp/a" false
  = Some [x00; x00; x00; x00; x00].
Proof.
  refine (proj1 (proj2 (write_null_content quiet_env join_clean dir_clean false 10 0
                          ["/tmp/a"%string] "/tmp/a" 5 false 1000000 (initial_world ∅)
                          _ _ _ _))).
  - constructor.
  - lia.
  - reflexivity.
  - vm_compute. reflexivity.
Defined.

Lemma write_fallocate_failure_witness :
  fst (write nospace_env join_clean dir_clean false 10 0 ["/tmp/a"%string] 4096 false
         (initial_world ∅))
  = Ok (0, Some (Errno ENOSPC)).
Proof.
  refine (proj1 (write_fallocate_failure nospace_env join_clean dir_clean false 10 0
                   ["/tmp/a"%string] "/tmp/a" 4096 false (Errno ENOSPC) (initial_world ∅)
                   _ _ _ _ _ _)).
  - reflexivity.
  - reflexivity.
  - reflexivity.
  - vm_compute. reflexivity.
  - lia.
  - reflexivity.
Defined.

Lemma write_exclusive_witness :
  let name := object_name quiet_env join_clean 0 "/tmp/a" false in
  fst (task quiet_env join_clean dir_clean false 10 0 ["/tmp/a"%string] 5
         (mkFloatSlice 0 1 1) false 0 (initial_world {[name := [x01]]}))
  = Fatal ("open " ++ name ++ ": file exists").
Proof.
  refine (proj1 (proj2 (proj2 (proj2
            (write_exclusive quiet_env join_clean dir_clean false 10 0 ["/tmp/a"%string]
               "/tmp/a" 5 (mkFloatSlice 0 1 1) false 0 [x01]
               (initial_world {[object_name quiet_env join_clean 0 "/tmp/a" false := [x01]]})
               _ _)) _ _))).
  - reflexivity.
  - vm_compute. reflexivity.
  - reflexivity.
  - reflexivity.
Defined.

(** A pair is its outcome and its world; the result of a copy is what it
    reports, whatever the buffer. *)
Lemma run_eq {A} (p : Res A * World) (a : A) : fst p = Ok a -> p = (Ok a, snd p).
Proof. destruct p as [r w]. simpl. by intros ->. Qed.

Lemma copy_eq (c : Res (ByteSlice * (Z * option error)) * World) (n : Z) (e : option error) :
  match fst c with Ok (_, r) => r = (n, e) | _ => False end ->
  c = (Ok (match fst c with Ok (b, _) => b | _ => AlignedBlock 0 end, (n, e)), snd c).
Proof. destruct c as [[[b r]| | |] w]; simpl; intros H; by subst. Qed.

Lemma write_size_mismatch_witness :
  fst (write quiet_env join_clean dir_clean false 10 (to_int64 (0 + 0)) ["/a"%string] (-1) false
         (initial_world ∅))
  = Ok (0, Some (size_mismatch (-1) 0)).
Proof.
  pose (name := object_name quiet_env join_clean (to_int64 (0 + 0)) "/a" false).
  pose (w3 := created name write_flags 438
                (set_trace [EvMkdirAll (dir_clean name) 493] (initial_world ∅))).
  pose (c := CopyAligned quiet_env 10 3 (LimitReader mk_nullReader (-1)) pool_New (-1) w3).
  refine (proj1 (write_size_mismatch quiet_env join_clean dir_clean false 10 0 ["/a"%string]
                   "/a" (-1) (mkFloatSlice 0 1 1) false 0 (initial_world ∅) w3 pool_New w3
                   (match fst c with Ok (b', _) => b' | _ => AlignedBlock 0 end) 0 (snd c)
                   _ _ _ _ _)).
  - reflexivity.
  - repeat split; vm_compute; reflexivity.
  - reflexivity.
  - apply (copy_eq c 0 None). vm_compute. reflexivity.
  - lia.
Defined.

Lemma slow_write_report_witness :
  stdout (snd (write slow_env join_clean dir_clean true 10 (to_int64 (0 + 0))
                 ["/tmp/a"%string] 8 false (initial_world ∅)))
  = stdout (initial_world ∅)
    ++ [Text ("object " ++ object_name slow_env join_clean (to_int64 (0 + 0)) "/tmp/a" false
              ++ " took more than a second to write")]
  /\
  stdout (snd (Simple.task slow_env join_clean dir_clean false 10 0 ["/tmp/a"%string] 8
                 (mkFloatSlice 0 1 1) 0 (set_intervals [0] (initial_world ∅))))
  = stdout (snd (Simple.write slow_env join_clean dir_clean false 10 (to_int64 (0 + 0))
                   ["/tmp/a"%string] 8 (set_intervals [0] (initial_world ∅))))
    ++ [Text ("object " ++ Simple.Ordinal (to_int64 (0 + 1))
              ++ " took more than a second to write")].
Proof.
  split.
  - refine (proj1 (slow_write_report slow_env join_clean dir_clean true 10 0
                     ["/tmp/a"%string] "/tmp/a" 8 (mkFloatSlice 0 1 1) false 0 (2 * Second)
                     (initial_world ∅) (initial_world ∅)) _ _).
    + reflexivity.
    + vm_compute. reflexivity.
  - refine (proj2 (slow_write_report slow_env join_clean dir_clean false 10 0
                     ["/tmp/a"%string] "/tmp/a" 8 (mkFloatSlice 0 1 1) false 0 (2 * Second)
                     (set_intervals [0] (initial_world ∅)) _) _).
    apply run_eq. vm_compute. reflexivity.
Defined.

Lemma report_samples_witness :
  let cfg := mkConfig "/tmp/a,/tmp/b" 2 8 4 false in
  len_ (intervals (snd (schedule_on quiet_env false 20 cfg (initial_world ∅)))) = 4.
Proof.
  refine (proj1 (report_samples quiet_env join_clean dir_clean false ellipses.Pattern
                   ellipses.HasEllipses ellipses.FindEllipsesPatterns ellipses.Expand 20
                   (mkConfig "/tmp/a,/tmp/b" 2 8 4 false) (initial_world ∅)
                   (mkFloatSlice 0 4 4) _ _ _ _)).
  - unfold valid_config. cbn. lia.
  - intros obj. cbn. lia.
  - cbn. lia.
  - vm_compute. reflexivity.
Defined.

(** * Further properties of the code *)

(** ** The name generator *)

Lemma get_elem_of (s : string) (n : nat) (c : ascii) :
  String.get n s = Some c -> c ∈ list_ascii_of_string s.
Proof.
  revert n. induction s as [|a s IH]; intros n H; [done|].
  destruct n as [|n]; simpl in *.
  - injection H as ->. left.
  - right. by eapply IH.
Qed.

Lemma get_is_Some (s : string) (n : nat) :
  (n < String.length s)%nat -> is_Some (String.get n s).
Proof.
  revert n. induction s as [|a s IH]; intros n H; simpl in *; [lia|].
  destruct n as [|n]; [by eexists|]. apply IH. lia.
Qed.

Lemma asciiLetterBytes_letter (i : Z) :
  0 <= i < Z.of_nat (String.length asciiLetters) ->
  asciiLetterBytes i ∈ list_ascii_of_string asciiLetters.
Proof.
  intros Hi. unfold asciiLetterBytes.
  destruct (get_is_Some asciiLetters (Z.to_nat i)) as [c Hc]; [lia|].
  rewrite Hc. by eapply get_elem_of.
Qed.

Lemma randASCIIBytes_loop_letters (n : nat) (rnd rnd2 : Z) :
  String.length (randASCIIBytes_loop n rnd rnd2) = n /\
  Forall (fun c => c ∈ list_ascii_of_string asciiLetters)
         (list_ascii_of_string (randASCIIBytes_loop n rnd rnd2)).
Proof.
  revert rnd. induction n as [|n IH]; intros rnd; simpl.
  - split; [done|constructor].
  - destruct (IH (uint32 (uint32 (Z.lxor rnd rnd2) * 2654435761))) as [Hl Hall].
    split; [by rewrite Hl|]. constructor; [|done].
    apply asciiLetterBytes_letter. apply Z.mod_pos_bound. done.
Qed.

(** X1. [randASCIIBytes] fills its destination entirely, and with bytes of
    [asciiLetters] only, whatever the value drawn: the index
    [int(rnd>>16) % len(asciiLetterBytes)] is always within the table. *)
Theorem randASCIIBytes_letters (v : Z) (n : nat) :
  String.length (randASCIIBytes v n) = n /\
  Forall (fun c => c ∈ list_ascii_of_string asciiLetters)
         (list_ascii_of_string (randASCIIBytes v n)).
Proof. apply randASCIIBytes_loop_letters. Qed.

(** ** The path of an object *)

Lemma list_ascii_of_string_app (s t : string) :
  list_ascii_of_string (s ++ t) = list_ascii_of_string s ++ list_ascii_of_string t.
Proof. induction s as [|a s IH]; simpl; [done|]. by rewrite IH. Qed.

Lemma list_ascii_of_string_inj (s t : string) :
  list_ascii_of_string s = list_ascii_of_string t -> s = t.
Proof.
  intros H. rewrite <- (string_of_list_ascii_of_string s), H.
  apply string_of_list_ascii_of_string.
Qed.

(** Two lists cut at the last occurrence of a separator are equal part
    by part. *)
Lemma app_sep_inj {A} (c : A) (a b x y : list A) :
  c ∉ x -> c ∉ y -> a ++ c :: x = b ++ c :: y -> a = b /\ x = y.
Proof.
  intros Hx Hy. revert b. induction a as [|a0 a IH]; intros [|b0 b] H; simpl in H.
  - by injection H as ->.
  - injection H as H1 H2. subst. exfalso. apply Hx. apply elem_of_app. right. left.
  - injection H as H1 H2. subst. exfalso. apply Hy. apply elem_of_app. right. left.
  - injection H as -> H. apply IH in H as [-> ->]. done.
Qed.

Lemma app_cons_assoc {A} (a x y : list A) (c : A) :
  a ++ c :: x ++ y = (a ++ c :: x) ++ y.
Proof. by rewrite <- app_assoc. Qed.

Lemma string_of_uint_digits (d : Decimal.uint) (c : ascii) :
  c ∈ list_ascii_of_string (NilEmpty.string_of_uint d) ->
  c ∈ list_ascii_of_string "0123456789".
Proof.
  induction d; simpl; intros H; try (by apply elem_of_nil in H);
    apply elem_of_cons in H as [->|H]; try (by apply IHd);
    repeat first [left | right].
Qed.

(** [%d] prints digits, after a minus sign for a negative number. *)
Lemma Z_to_string_chars (z : Z) (c : ascii) :
  c ∈ list_ascii_of_string (Z_to_string z) ->
  c ∈ list_ascii_of_string "-0123456789".
Proof.
  unfold Z_to_string, NilZero.string_of_int, NilZero.string_of_uint.
  assert (forall d, c ∈ list_ascii_of_string
                         match d with
                         | Decimal.Nil => "0"%string
                         | _ => NilEmpty.string_of_uint d
                         end -> c ∈ list_ascii_of_string "0123456789") as Hd.
  { intros d H. destruct d; try (by apply string_of_uint_digits in H).
    apply list_elem_of_singleton in H as ->. left. }
  intros H. destruct (Z.to_int z) as [d|d].
  - right. by apply Hd in H.
  - apply elem_of_cons in H as [->|H]; [left|right]. by apply Hd in H.
Qed.

(** [%d] prints different numbers differently. *)
Lemma Z_to_string_inj (a b : Z) : Z_to_string a = Z_to_string b -> a = b.
Proof.
  unfold Z_to_string. intros H. apply to_int_inj.
  assert (forall z, NilZero.int_of_string (NilZero.string_of_int (Z.to_int z))
                    = Some (Z.to_int z)) as Hisi.
  { intros z. apply NilZero.isi; destruct z; simpl; try discriminate;
      intros [= Hn]; by apply Unsigned.to_uint_nonnil in Hn. }
  pose proof (Hisi a) as Ha. rewrite H, Hisi in Ha. congruence.
Qed.

Lemma not_elem_of_decide (c : ascii) (l : list ascii) :
  bool_decide (c ∈ l) = false -> c ∉ l.
Proof. apply bool_decide_eq_false. Qed.

Lemma no_slash_in_number (z : Z) : "/"%char ∉ list_ascii_of_string (Z_to_string z).
Proof.
  intros H. apply Z_to_string_chars in H. revert H.
  by apply not_elem_of_decide.
Qed.

Lemma not_in_suffix (c : ascii) (v : Z) (n : nat) :
  bool_decide (c ∈ list_ascii_of_string asciiLetters) = false ->
  c ∉ list_ascii_of_string (randASCIIBytes v n).
Proof.
  intros Hc H. unfold randASCIIBytes in H.
  destruct (randASCIIBytes_loop_letters n (uint32 v) (uint32 (Z.shiftr v 32))) as [_ Hall].
  rewrite Forall_forall in Hall. apply Hall in H. revert H.
  by apply not_elem_of_decide.
Qed.

(** The path of an object tells its number. *)
Lemma object_name_inj (E : Env) (obj1 obj2 : Z) (drive1 drive2 : string) (tree : bool) :
  object_name E join_clean obj1 drive1 tree = object_name E join_clean obj2 drive2 tree ->
  obj1 = obj2.
Proof.
  intros Heq. apply Z_to_string_inj. apply list_ascii_of_string_inj.
  unfold object_name, join_clean in Heq.
  apply (f_equal list_ascii_of_string) in Heq.
  destruct tree; rewrite !list_ascii_of_string_app in Heq; cbn [list_ascii_of_string app] in Heq.
  - rewrite (app_cons_assoc (list_ascii_of_string drive1)),
      (app_cons_assoc (list_ascii_of_string drive2)) in Heq.
    apply app_sep_inj in Heq as [Heq _]; [|by apply not_in_suffix..].
    apply app_sep_inj in Heq as [_ Heq]; [done|apply no_slash_in_number..].
  - apply app_sep_inj in Heq as [_ Heq].
    + apply app_sep_inj in Heq as [Heq _]; [done|by apply not_in_suffix..].
    + intros H. apply elem_of_app in H as [H|H]; [by apply no_slash_in_number in H|].
      apply elem_of_cons in H as [H|H]; [discriminate|]. revert H. by apply not_in_suffix.
    + intros H. apply elem_of_app in H as [H|H]; [by apply no_slash_in_number in H|].
      apply elem_of_cons in H as [H|H]; [discriminate|]. revert H. by apply not_in_suffix.
Qed.



(** ** A write works on its own file, through its own descriptor *)

Lemma beside_refl fd name w : beside fd name w w.
Proof. by repeat split. Qed.

Lemma beside_trans fd name w1 w2 w3 :
  beside fd name w1 w2 -> beside fd name w2 w3 -> beside fd name w1 w3.
Proof.
  intros (Hf1 & Hs1 & Hd1 & Hn1) (Hf2 & Hs2 & Hd2 & Hn2). repeat split.
  - intros p Hp. by rewrite Hf2, Hf1.
  - auto.
  - intros k Hk. by rewrite Hd2, Hd1.
  - congruence.
Qed.

Lemma confined_ret {A} fd name (a : A) : confined fd name (ret a).
Proof. intros w Ho. split; [done|apply beside_refl]. Qed.

Lemma confined_liftR {A} fd name (r : Res A) : confined fd name (liftR r).
Proof. intros w Ho. split; [done|apply beside_refl]. Qed.

Lemma confined_bind {A B} fd name (m : M A) (k : A -> M B) :
  confined fd name m -> (forall a, confined fd name (k a)) -> confined fd name (bind m k).
Proof.
  intros Hm Hk w Ho. unfold bind. destruct (Hm w Ho) as [Ho1 Hb1].
  destruct (m w) as [[a| | |] w1]; simpl in *; try done.
  destruct (Hk a w1 Ho1) as [Ho2 Hb2]. split; [done|]. by eapply beside_trans.
Qed.

(** A step that leaves files and descriptors alone. *)
Lemma confined_aside {A} fd name (m : M A) :
  keeps files m -> keeps fdtab m -> keeps next_fd m -> confined fd name m.
Proof.
  intros Hf Hd Hn w Ho. specialize (Hf w). specialize (Hd w). specialize (Hn w).
  split.
  - intros f. rewrite Hd. apply Ho.
  - repeat split; intros; by rewrite ?Hf, ?Hd, ?Hn.
Qed.

Section Confinement.

Variable E : Env.

Lemma confined_emit fd name ev : confined fd name (emit ev).
Proof. by apply confined_aside. Qed.

Lemma confined_Print fd name l : confined fd name (Print l).
Proof. by apply confined_aside. Qed.

Lemma confined_File_Write fd name b : confined fd name (File_Write E fd b).
Proof.
  intros w Ho. unfold File_Write, bind, get_world. cbv beta iota.
  destruct (fdtab w !! fd) as [f|] eqn:Hfd.
  2:{ split; [done|apply beside_refl]. }
  rewrite (Ho f Hfd). destruct (sys_write E name (of_off f) (blen b)) as [n0 e].
  unfold emit, modify, ret, owns, beside.
  cbn [fst snd files fdtab next_fd set_files set_fdtab set_trace]. split.
  - intros f'. rewrite lookup_insert_eq. by intros [= <-].
  - repeat split.
    + intros p Hp. by rewrite lookup_alter_ne.
    + rewrite lookup_alter_eq. intros [c ->]. by eexists.
    + intros k Hk. by rewrite lookup_insert_ne.
Qed.

Lemma confined_DisableDirectIO fd name : confined fd name (DisableDirectIO E fd).
Proof.
  intros w Ho. unfold DisableDirectIO, bind, emit, modify, get_world, ret.
  cbn [fst snd files fdtab next_fd set_files set_fdtab set_trace].
  destruct (fdtab w !! fd) as [f|] eqn:Hfd.
  2:{ split; [|by repeat split]. intros f. cbn. apply Ho. }
  rewrite (Ho f Hfd). destruct (sys_disable_directio E name) as [e|];
    unfold owns, beside; cbn [fst snd files fdtab next_fd set_files set_fdtab set_trace].
  - split; [|by repeat split]. apply Ho.
  - split.
    + intros f'. rewrite lookup_insert_eq. by intros [= <-].
    + repeat split; try done. intros k Hk. by rewrite lookup_insert_ne.
Qed.

Lemma confined_writeUnaligned fd name b : confined fd name (writeUnaligned E fd b).
Proof.
  unfold writeUnaligned. apply confined_bind; [apply confined_DisableDirectIO|].
  intros [e|]; [apply confined_ret|apply confined_File_Write].
Qed.

Lemma confined_CopyAligned_loop {R} `{Reader R} fuel fd name (r : R) b total written :
  confined fd name (CopyAligned_loop E fuel fd r b total written).
Proof.
  revert r b written. induction fuel as [|fuel IH]; intros r b written; simpl.
  - apply confined_liftR.
  - apply confined_bind; [apply confined_liftR|]. intros buf.
    apply confined_bind; [apply confined_liftR|]. intros [[r1 buf1] [nr rerr]].
    cbv zeta. destruct (_ && _); [apply confined_ret|].
    apply confined_bind; [apply confined_liftR|]. intros buf2.
    apply confined_bind.
    { destruct (_ =? 0); [apply confined_File_Write|apply confined_writeUnaligned]. }
    intros [nw [e|]]; [apply confined_ret|].
    repeat (match goal with |- confined _ _ (if ?c then _ else _) => destruct c end;
            try apply confined_ret).
    apply IH.
Qed.

(** [Fallocate] changes nothing but the trace: at most the one
    system call, with FALLOC_FL_KEEP_SIZE. *)
Lemma Fallocate_world k off len w :
  snd (Fallocate E k off len w) = w \/
  snd (Fallocate E k off len w) = set_trace (trace w ++ [EvFallocate k 1 off len]) w.
Proof.
  unfold Fallocate. destruct (len =? 0); [by left|]. right.
  unfold syscall_Fallocate, bind, emit, modify, get_world, ret.
  cbn [fst snd fdtab set_trace].
  destruct (fdtab w !! k) as [f|]; [|done].
  by destruct (sys_fallocate E (of_name f) off len).
Qed.

Lemma confined_Fallocate fd name k off len : confined fd name (Fallocate E k off len).
Proof.
  intros w Ho. destruct (Fallocate_world k off len w) as [-> | ->].
  - split; [done|apply beside_refl].
  - split; [done|by repeat split].
Qed.

Lemma confined_pool_Get fd name : confined fd name pool_Get.
Proof. apply confined_aside; unfold pool_Get; keeps_tac. Qed.

Lemma confined_pool_Put fd name b : confined fd name (pool_Put b).
Proof. by apply confined_aside. Qed.

Lemma confined_File_Close fd name : confined fd name (File_Close fd).
Proof.
  intros w Ho. unfold File_Close, bind, emit, modify, owns, beside.
  cbn [fst snd files fdtab next_fd set_files set_fdtab set_trace]. split.
  - intros f. by rewrite lookup_delete_eq.
  - repeat split; try done. intros k Hk. by rewrite lookup_delete_ne.
Qed.

End Confinement.

(** ** A run only adds files *)

Lemma grows_keeps {A} (m : M A) : keeps files m -> grows m.
Proof. intros H w. by rewrite H. Qed.

Lemma grows_bind {A B} (m : M A) (k : A -> M B) :
  grows m -> (forall a, grows (k a)) -> grows (bind m k).
Proof.
  intros Hm Hk w. unfold bind. specialize (Hm w).
  destruct (m w) as [[a| | |] w1]; simpl in *; try done.
  etrans; [exact Hm|apply Hk].
Qed.

Lemma grows_forM_ {A} (l : list A) (body : A -> M unit) :
  (forall x, grows (body x)) -> grows (forM_ l body).
Proof.
  intros H. induction l as [|x l IH]; simpl.
  - by apply grows_keeps.
  - apply grows_bind; [apply H|intros _; apply IH].
Qed.

Ltac exec H := rewrite (bind_ok _ _ _ _ _ H); cbv beta iota.

(** Solve a frame goal over the calls of [write], for a component of the
    world that no system call touches. *)
Ltac frames_tac :=
  repeat first
    [ apply keeps_os_MkdirAll; intros; reflexivity
    | apply keeps_OpenFileDirectIO; intros; reflexivity
    | apply keeps_Fallocate; intros; reflexivity
    | apply keeps_CopyAligned; intros; reflexivity
    | apply keeps_Fdatasync; intros; reflexivity
    | apply keeps_File_Close; intros; reflexivity
    | keeps_step ].

(** One step of a confinement proof. *)
Ltac confined_step :=
  match goal with
  | |- confined _ _ (ret _) => apply confined_ret
  | |- confined _ _ (liftR _) => apply confined_liftR
  | |- confined _ _ (bind _ _) => apply confined_bind; [|intros ?]
  | |- confined _ _ pool_Get => apply confined_pool_Get
  | |- confined _ _ (pool_Put _) => apply confined_pool_Put
  | |- confined _ _ (Print _) => apply confined_Print
  | |- confined _ _ (Fdatasync _) => apply confined_emit
  | |- confined _ _ (File_Close _) => apply confined_File_Close
  | |- confined _ _ (Fallocate _ _ _ _) => apply confined_Fallocate
  | |- confined _ _ (CopyAligned _ _ _ _ _ _) => apply confined_CopyAligned_loop
  | |- confined _ _ (match ?x with _ => _ end) => destruct x
  | |- confined _ _ _ => progress cbv zeta
  end.

Section WriteFrames.

Variable E : Env.
Variable filepath_Join : string -> string -> string.
Variable filepath_Dir : string -> string.
Variable debug : bool.

Local Abbreviation write_to' := (write_to E filepath_Dir debug).
Local Abbreviation write' := (write E filepath_Join filepath_Dir debug).
Local Abbreviation name_of := (object_name E filepath_Join).

(** Whatever its outcome, [write_to] changes no file but the one it
    creates, and no descriptor but the one it opens. *)
Lemma write_to_beside fuel obj name fileSize w :
  (forall p, p <> name ->
     files (snd (write_to' fuel obj name fileSize w)) !! p = files w !! p) /\
  (forall c, files w !! name = Some c ->
     files (snd (write_to' fuel obj name fileSize w)) !! name = Some c) /\
  (forall k, k <> next_fd w ->
     fdtab (snd (write_to' fuel obj name fileSize w)) !! k = fdtab w !! k).
Proof.
  unfold write_to.
  exec (os_MkdirAll_eq E (filepath_Dir name) 493 w).
  destruct (sys_mkdirall E (filepath_Dir name)) as [e|]; [done|].
  set (w1 := set_trace _ w).
  destruct (sys_open E name) as [e|] eqn:Hop.
  { exec (OpenFileDirectIO_fails E name (Z.lor (Z.lor O_CREATE O_WRONLY) O_EXCL) 438 w1 e Hop).
    done. }
  destruct (files w !! name) as [c|] eqn:Hex.
  { exec (OpenFileDirectIO_exists E name (Z.lor (Z.lor O_CREATE O_WRONLY) O_EXCL) 438 w1 c
            Hop Hex write_flags_create write_flags_excl).
    unfold ret. cbn [snd]. split; [done|]. split; [|done].
    intros c0 [= <-]. exact Hex. }
  exec (OpenFileDirectIO_new E name (Z.lor (Z.lor O_CREATE O_WRONLY) O_EXCL) 438 w1
          Hop Hex write_flags_create).
  change (next_fd w1) with (next_fd w).
  match goal with
  | |- context [snd (bind ?A ?K ?w2)] =>
      assert (confined (next_fd w) name (bind A K)) as Hconf;
      [|destruct (Hconf w2) as [_ (Hf & _ & Hd & _)]]
  end.
  { repeat confined_step. }
  { intros f. rewrite (fdtab_created name _ 438 w1). by intros [= <-]. }
  split; [|split; [done|]].
  - intros p Hp. rewrite (Hf p Hp). unfold created. cbn. by rewrite lookup_insert_ne.
  - intros k Hk. rewrite (Hd k Hk). unfold created. cbn. by rewrite lookup_insert_ne.
Qed.

Lemma write_to_grows fuel obj name fileSize : grows (write_to' fuel obj name fileSize).
Proof.
  intros w. destruct (write_to_beside fuel obj name fileSize w) as (Hf & Hc & _).
  apply map_subseteq_spec. intros p c Hp.
  destruct (decide (p = name)) as [->|Hne]; [by apply Hc|by rewrite Hf].
Qed.

Lemma write_grows fuel obj drives fileSize tree : grows (write' fuel obj drives fileSize tree).
Proof.
  unfold write. apply grows_bind.
  { apply grows_keeps. unfold Intn. keeps_tac. }
  intros k. apply grows_bind.
  { apply grows_keeps. unfold index. keeps_tac. }
  intros drive. apply write_to_grows.
Qed.

Lemma task_grows fuel obj drives fileSize ts tree i :
  grows (task E filepath_Join filepath_Dir debug fuel obj drives fileSize ts tree i).
Proof.
  unfold task. apply grows_bind; [apply write_grows|].
  intros [d [e|]]; apply grows_keeps; unfold float_store; keeps_tac.
Qed.

Lemma concurrentWrite_grows fuel obj drives fileSize n ts tree :
  grows (concurrentWrite E filepath_Join filepath_Dir debug fuel obj drives fileSize n ts tree).
Proof.
  unfold concurrentWrite.
  apply grows_bind; [apply grows_keeps; keeps_tac|]. intros _.
  apply grows_bind; [|intros _; apply grows_keeps; keeps_tac].
  apply grows_forM_. intros i.
  apply grows_bind; [apply grows_keeps; keeps_tac|]. intros _. apply task_grows.
Qed.

Lemma main_loop_grows n fuel drives C fileSize T ts tree i :
  grows (main_loop E filepath_Join filepath_Dir debug n fuel drives C fileSize T ts tree i).
Proof.
  revert i. induction n as [|n IH]; intros i; cbn [main_loop].
  - destruct (_ <? _); apply grows_keeps; keeps_tac.
  - destruct (_ <? _); [|apply grows_keeps; keeps_tac].
    apply grows_bind; [apply grows_keeps; unfold float_slice; keeps_tac|]. intros s.
    apply grows_bind; [apply concurrentWrite_grows|]. intros _. apply IH.
Qed.

Variable Pattern : Type.
Variable HasEllipses : string -> bool.
Variable FindEllipsesPatterns : string -> list Pattern * option error.
Variable Expand : Pattern -> list string.

Local Abbreviation main' :=
  (main E filepath_Join filepath_Dir debug Pattern HasEllipses FindEllipsesPatterns Expand).

(** X3. Whatever the options, the environment and the outcome (a normal
    end, a fatal error, a panic, no fuel left), a run of [main] leaves
    every file that existed before it exactly as it was: it only adds
    files. *)
Theorem main_keeps_files fuel cfg w :
  files w ⊆ files (snd (main E filepath_Join filepath_Dir debug Pattern HasEllipses
                             FindEllipsesPatterns Expand fuel cfg w)).
Proof.
  revert w. change (grows (main' fuel cfg)).
  unfold main, schedule.
  apply grows_bind.
  - apply grows_bind; [apply grows_keeps; keeps_tac|]. intros drives.
    apply grows_bind; [apply grows_keeps; unfold make_float64s; keeps_tac|]. intros ts.
    apply grows_bind; [|intros _; apply grows_keeps; keeps_tac].
    destruct (_ <? _).
    + apply grows_bind; [apply grows_keeps; unfold float_slice; keeps_tac|]. intros s.
      apply concurrentWrite_grows.
    + apply main_loop_grows.
  - intros ts. apply grows_keeps. unfold report, Println, float_load, index. keeps_tac.
Qed.

End WriteFrames.

(** ** Descriptors and buffers when [write] returns *)

Section Descriptors.

Variable E : Env.
Variable filepath_Join : string -> string -> string.
Variable filepath_Dir : string -> string.
Variable debug : bool.

Local Abbreviation write_to' := (write_to E filepath_Dir debug).
Local Abbreviation write' := (write E filepath_Join filepath_Dir debug).
Local Abbreviation name_of := (object_name E filepath_Join).

(** An open that fails has opened nothing. *)
Lemma OpenFileDirectIO_error_inv name perm w fd e w2 :
  OpenFileDirectIO E name (Z.lor (Z.lor O_CREATE O_WRONLY) O_EXCL) perm w
  = (Ok (fd, Some e), w2) ->
  w2 = set_trace (trace w ++ [EvOpen name write_flags perm]) w.
Proof.
  destruct (sys_open E name) as [e'|] eqn:Hop.
  { rewrite (OpenFileDirectIO_fails _ _ _ _ _ _ Hop). by intros [= _ _ <-]. }
  destruct (files w !! name) as [c|] eqn:Hex.
  { rewrite (OpenFileDirectIO_exists _ _ _ _ _ _ Hop Hex write_flags_create write_flags_excl).
    by intros [= _ _ <-]. }
  rewrite (OpenFileDirectIO_new _ _ _ _ _ Hop Hex write_flags_create). discriminate.
Qed.

(** What [write_to] leaves of descriptors and buffers when it returns. *)
Lemma write_to_returns fuel obj name fileSize w d err w' :
  fdtab w !! next_fd w = None ->
  write_to' fuel obj name fileSize w = (Ok (d, err), w') ->
  (length (pool w) <= length (pool w'))%nat /\
  (fdtab w' = fdtab w \/
   (0 < fileSize /\ exists e, err = Some e /\ sys_fallocate E name 0 fileSize = Some e /\
      fdtab w' = <[next_fd w := mkOpenFile name 0 true]> (fdtab w))).
Proof.
  intros Hfresh H. unfold write_to in H.
  rewrite (bind_ok _ _ _ _ _ (os_MkdirAll_eq E (filepath_Dir name) 493 w)) in H.
  cbv beta iota in H.
  destruct (sys_mkdirall E (filepath_Dir name)) as [e|].
  { injection H as _ _ <-. split; [done|by left]. }
  set (w1 := set_trace _ w) in *.
  apply bind_inv in H as ([fd [e|]] & w2 & Hopen & H).
  { apply OpenFileDirectIO_error_inv in Hopen as ->. injection H as _ _ <-.
    split; [done|by left]. }
  apply OpenFileDirectIO_excl_inv in Hopen as (Hop & Hfree & -> & ->).
  change (next_fd w1) with (next_fd w) in *.
  set (fd := next_fd w) in *. set (w2 := created name write_flags 438 w1) in *.
  assert (fdtab w2 !! fd = Some (mkOpenFile name 0 true)) as Hfd2
    by exact (fdtab_created name write_flags 438 w1).
  assert (fdtab w2 = <[fd := mkOpenFile name 0 true]> (fdtab w)) as Htab2 by reflexivity.
  assert (pool w2 = pool w) as Hp2 by reflexivity.
  apply bind_inv in H as (ferr & w3 & Hfa & H).
  assert (fdtab w3 = fdtab w2 /\ pool w3 = pool w2) as [Htab3 Hp3].
  { destruct (fileSize >? 0); [|by injection Hfa as _ <-].
    pose proof (Fallocate_world E fd 0 fileSize w2) as Hw. rewrite Hfa in Hw.
    cbn [snd] in Hw. by destruct Hw as [-> | ->]. }
  destruct ferr as [e|].
  { injection H as _ <- <-. split; [by rewrite Hp3, Hp2|]. right.
    destruct (fileSize >? 0) eqn:Hpos; [|discriminate].
    rewrite Z.gtb_ltb in Hpos. apply Z.ltb_lt in Hpos.
    split; [done|]. exists e. split; [done|]. split; [|by rewrite Htab3].
    destruct (sys_fallocate E name 0 fileSize) as [e'|] eqn:Hsys.
    - rewrite (Fallocate_fails E fd name 0 0 true fileSize e' w2) in Hfa by (done || lia).
      by injection Hfa as ->.
    - rewrite (Fallocate_keeps_size E fd name 0 0 true fileSize w2) in Hfa by (done || lia).
      discriminate. }
  apply bind_inv in H as (b & w4 & Hget & H).
  assert (fdtab w4 = fdtab w3 /\ (length (pool w3) <= S (length (pool w4)))%nat)
    as [Htab4 Hp4].
  { unfold pool_Get, bind, get_world in Hget. cbv beta iota in Hget.
    destruct (pool w3) as [|b0 rest] eqn:Hp; injection Hget as _ <-; cbn; [|done].
    split; [done|lia]. }
  apply bind_inv in H as ([b' [written cerr]] & w5 & Hcopy & H).
  assert (owns fd name w4) as Hown.
  { intros f. rewrite Htab4, Htab3, Hfd2. by intros [= <-]. }
  pose proof (confined_CopyAligned_loop E fuel fd name
                (LimitReader mk_nullReader fileSize) b fileSize 0 w4 Hown) as [_ Hb].
  unfold CopyAligned in Hcopy. rewrite Hcopy in Hb. cbn [snd] in Hb.
  destruct Hb as (_ & _ & Hd5 & _).
  assert (pool w5 = pool w4) as Hp5.
  { pose proof (keeps_CopyAligned_loop E pool (fun _ _ _ => eq_refl) (fun _ _ => eq_refl)
                  (fun _ _ => eq_refl) fuel fd
                  (LimitReader mk_nullReader fileSize) b fileSize 0 w4) as Hk.
    by rewrite Hcopy in Hk. }
  apply bind_inv in H as (res & w6 & Hres & H).
  assert (fdtab w6 = fdtab w5 /\ pool w6 = pool w5) as [Htab6 Hp6].
  { destruct cerr as [e|]; [by injection Hres as _ <-|].
    destruct (negb _); [by injection Hres as _ <-|].
    cbv zeta in Hres. apply bind_inv in Hres as ([] & w7 & Hpr & Hres).
    injection Hres as _ <-. destruct (_ && _); by injection Hpr as <-. }
  apply bind_inv in H as ([] & w7 & Hput & H). injection Hput as <-.
  apply bind_inv in H as ([] & w8 & Hsync & H). injection Hsync as <-.
  apply bind_inv in H as ([] & w9 & Hclose & H). injection Hclose as <-.
  injection H as _ <-. cbn [pool fdtab set_pool set_fdtab set_trace length].
  split; [rewrite Hp6, Hp5, <- Hp2, <- Hp3; lia|]. left.
  apply map_eq. intros k. destruct (decide (k = fd)) as [->|Hne].
  - by rewrite lookup_delete_eq, Hfresh.
  - rewrite lookup_delete_ne by done.
    rewrite Htab6, (Hd5 k Hne), Htab4, Htab3, Htab2. by rewrite lookup_insert_ne.
Qed.

(** X4. When [write] returns, with or without an error, the buffer
    pool has not shrunk and the table of open descriptors is as before
    the call, except on one path: a failed preallocation, which leaves the
    descriptor just opened on the new file in the table. *)
Theorem write_closes_descriptor fuel obj drives fileSize tree w d err w' :
  fdtab w !! next_fd w = None ->
  write E filepath_Join filepath_Dir debug fuel obj drives fileSize tree w
  = (Ok (d, err), w') ->
  (length (pool w) <= length (pool w'))%nat /\
  (fdtab w' = fdtab w \/
   (0 < fileSize /\
    exists drive e,
      drive ∈ drives /\ err = Some e /\
      sys_fallocate E (name_of obj drive tree) 0 fileSize = Some e /\
      fdtab w' = <[next_fd w := mkOpenFile (name_of obj drive tree) 0 true]> (fdtab w))).
Proof.
  intros Hfresh H.
  destruct (write_ok_pick _ _ _ _ _ _ _ _ _ _ _ _ H) as [drive Hd].
  rewrite (write_pick _ _ _ _ _ _ _ _ _ _ _ Hd) in H.
  apply (write_to_returns _ _ _ _ _ _ _ _ Hfresh) in H
    as [Hp [Ht|(Hpos & e & -> & Hsys & Ht)]].
  - split; [done|by left].
  - split; [done|]. right. split; [done|]. exists drive, e.
    split; [by eapply list_elem_of_lookup_2|done].
Qed.

End Descriptors.

Lemma write_closes_descriptor_witness :
  fdtab (snd (write quiet_env join_clean dir_clean false 10 0 ["/tmp/a"%string] 5 false
                (initial_world ∅))) = ∅.
Proof.
  destruct (write_closes_descriptor quiet_env join_clean dir_clean false 10 0
              ["/tmp/a"%string] 5 false (initial_world ∅) 1000000 None
              (snd (write quiet_env join_clean dir_clean false 10 0 ["/tmp/a"%string] 5 false
                      (initial_world ∅))))
    as [_ [H|(_ & drive & e & _ & He & _)]].
  - reflexivity.
  - apply run_eq. vm_compute. reflexivity.
  - exact H.
  - discriminate He.
Defined.

(** ** The system calls and the file of a successful write *)

Lemma written_bytes_app (s t : list event) :
  written_bytes (s ++ t) = written_bytes s + written_bytes t.
Proof.
  induction s as [|ev s IH]; [done|]. cbn. unfold written_bytes in *. cbn.
  destruct ev; rewrite ?IH; lia.
Qed.

Section SystemCalls.

Variable E : Env.
Variable filepath_Join : string -> string -> string.
Variable filepath_Dir : string -> string.
Variable debug : bool.

Local Abbreviation write_to' := (write_to E filepath_Dir debug).
Local Abbreviation write' := (write E filepath_Join filepath_Dir debug).
Local Abbreviation name_of := (object_name E filepath_Join).

(** The calls a computation added to the trace are calls of the copy on
    [fd], and their writes add up to [n]. *)
Local Abbreviation copies fd w w' n :=
  (exists t, trace w' = trace w ++ t /\ Forall (copy_event fd) t /\ written_bytes t = n).

Lemma File_Write_calls fd b w n err w' :
  File_Write E fd b w = (Ok (n, err), w') -> 0 <= n /\ copies fd w w' n.
Proof.
  unfold File_Write, bind, get_world. cbv beta iota.
  destruct (fdtab w !! fd) as [f|].
  2:{ intros [= <- _ <-]. split; [done|]. exists []. by rewrite app_nil_r. }
  destruct (sys_write E (of_name f) (of_off f) (blen b)) as [n0 e].
  unfold emit, modify, ret. cbv beta iota. intros [= <- _ <-].
  split; [lia|]. eexists [_]. cbn. split; [done|]. split; [by repeat constructor|lia].
Qed.

Lemma writeUnaligned_calls fd b w n err w' :
  writeUnaligned E fd b w = (Ok (n, err), w') -> 0 <= n /\ copies fd w w' n.
Proof.
  unfold writeUnaligned. intros H.
  apply bind_inv in H as (derr & w1 & Hdis & H).
  assert (trace w1 = trace w ++ [EvDisableDirectIO fd]) as Ht1.
  { unfold DisableDirectIO, bind, emit, modify, get_world, ret in Hdis.
    cbn [fdtab set_trace] in Hdis.
    destruct (fdtab w !! fd) as [f|]; [|by injection Hdis as _ <-].
    destruct (sys_disable_directio E (of_name f)); by injection Hdis as _ <-. }
  destruct derr as [e|].
  - injection H as <- _ <-. split; [done|]. exists [EvDisableDirectIO fd].
    split; [done|]. split; [by repeat constructor|done].
  - apply File_Write_calls in H as [Hn (t & Ht & Hall & Hsum)]. split; [done|].
    exists (EvDisableDirectIO fd :: t). rewrite Ht, Ht1, <- app_assoc.
    split; [done|]. split; [by constructor|done].
Qed.

(** The copy makes calls on its descriptor only, and the bytes of its
    writes are the bytes it reports. *)
Lemma CopyAligned_loop_calls {R} `{Reader R} fuel fd (r : R) b total written w
    b' written' err w' :
  CopyAligned_loop E fuel fd r b total written w = (Ok (b', (written', err)), w') ->
  copies fd w w' (written' - written).
Proof.
  revert r b written w. induction fuel as [|fuel IH]; intros r b written w Hrun.
  { discriminate. }
  cbn [CopyAligned_loop] in Hrun.
  apply bind_inv in Hrun as (buf & w1 & Hbuf & Hrun).
  unfold liftR in Hbuf. injection Hbuf as _ <-.
  apply bind_inv in Hrun as ([[r1 buf1] [nr rerr]] & w1 & Hread & Hrun).
  unfold liftR in Hread. injection Hread as _ <-.
  cbv beta iota zeta in Hrun.
  destruct (bool_decide (rerr <> None) && negb _).
  { injection Hrun as _ <- _ <-. exists []. rewrite app_nil_r, Z.sub_diag. done. }
  apply bind_inv in Hrun as (buf2 & w1 & Hbuf2 & Hrun).
  unfold liftR in Hbuf2. injection Hbuf2 as _ <-.
  apply bind_inv in Hrun as ([nw werr] & w2 & Hwrite & Hrun).
  assert (0 <= nw /\ copies fd w w2 nw) as [Hnw (t & Ht & Hall & Hsum)].
  { destruct (blen buf2 mod directioAlignSize =? 0).
    - by eapply File_Write_calls.
    - by eapply writeUnaligned_calls. }
  cbv beta iota zeta in Hrun.
  assert ((if nw >? 0 then written + nw else written) = written + nw) as Hw.
  { destruct (nw >? 0) eqn:Hgt; [done|].
    rewrite Z.gtb_ltb in Hgt. apply Z.ltb_ge in Hgt. lia. }
  rewrite Hw in Hrun.
  assert (copies fd w w2 (written + nw - written)) as Hhere.
  { exists t. split; [done|]. split; [done|lia]. }
  destruct werr as [e|].
  { by injection Hrun as _ <- _ <-. }
  destruct (negb (nw =? blen buf2)).
  { by injection Hrun as _ <- _ <-. }
  destruct (negb (total =? -1) && _).
  { by injection Hrun as _ <- _ <-. }
  destruct (is_err rerr EOF || is_err rerr ErrUnexpectedEOF).
  { by injection Hrun as _ <- _ <-. }
  apply IH in Hrun as (t' & Ht' & Hall' & Hsum').
  exists (t ++ t'). rewrite Ht', Ht, <- app_assoc. split; [done|].
  split; [by apply Forall_app|]. rewrite written_bytes_app. lia.
Qed.

(** X5. The system calls of a successful [write], in order: MkdirAll
    of the directory with mode 0755, the exclusive direct-I/O open with
    mode 0666, one fallocate with FALLOC_FL_KEEP_SIZE over the whole size
    exactly when the size is positive, then only calls of the copy on the
    descriptor opened, whose writes add up to the size asked for, then
    fdatasync, then close. *)
Theorem write_system_calls fuel obj drives drive fileSize tree d w :
  drives !! Z.to_nat (rand_Intn E obj mod len_ drives) = Some drive ->
  fst (write' fuel obj drives fileSize tree w) = Ok (d, None) ->
  exists t,
    trace (snd (write' fuel obj drives fileSize tree w))
    = trace w
      ++ [EvMkdirAll (filepath_Dir (name_of obj drive tree)) 493;
          EvOpen (name_of obj drive tree) write_flags 438]
      ++ (if fileSize >? 0 then [EvFallocate (next_fd w) 1 0 fileSize] else [])
      ++ t ++ [EvFdatasync (next_fd w); EvClose (next_fd w)] /\
    Forall (copy_event (next_fd w)) t /\
    written_bytes t = fileSize.
Proof.
  intros Hd Hok.
  rewrite (write_pick _ _ _ _ _ _ _ _ _ _ _ Hd) in *.
  set (name := name_of obj drive tree) in *.
  destruct (write_to' fuel obj name fileSize w) as [r w'] eqn:Hrun.
  cbn [fst snd] in *. subst r.
  apply write_to_ok_inv in Hrun
    as (w3 & b & w4 & b' & w5 & (_ & _ & _ & Hfa) & Hget & Hcopy & _ & Hfin).
  set (w1 := set_trace _ w) in *.
  assert (trace w3 = trace w
                     ++ [EvMkdirAll (filepath_Dir name) 493; EvOpen name write_flags 438]
                     ++ (if fileSize >? 0 then [EvFallocate (next_fd w) 1 0 fileSize] else []))
    as Ht3.
  { destruct (fileSize >? 0) eqn:Hpos.
    - apply Fallocate_ok_inv with (name := name) (pos := 0) (d := true) in Hfa;
        [| rewrite Z.gtb_ltb in Hpos; apply Z.ltb_lt in Hpos; lia
         | exact (fdtab_created name write_flags 438 w1) ].
      subst w3. cbn. by rewrite <- !app_assoc.
    - injection Hfa as <-. cbn. by rewrite <- !app_assoc. }
  assert (trace w4 = trace w3) as Ht4.
  { unfold pool_Get, bind, get_world in Hget. cbv beta iota in Hget.
    destruct (pool w3); by injection Hget as _ <-. }
  apply CopyAligned_loop_calls in Hcopy as (t & Ht5 & Hall & Hsum).
  exists t. split; [|split; [done|lia]].
  unfold finish in Hfin.
  destruct (_ && _); injection Hfin as <-; cbn;
    rewrite Ht5, Ht4, Ht3, <- !app_assoc; done.
Qed.

(** The copy gives back the buffer it was given, as long as it was. *)
Lemma CopyAligned_loop_blen {R} `{Reader R} fuel fd (r : R) b total written w
    b' res w' :
  CopyAligned_loop E fuel fd r b total written w = (Ok (b', res), w') ->
  blen b' = blen b.
Proof.
  revert r b written w. induction fuel as [|fuel IH]; intros r b written w Hrun.
  { discriminate. }
  cbn [CopyAligned_loop] in Hrun.
  apply bind_inv in Hrun as (buf & w1 & _ & Hrun).
  apply bind_inv in Hrun as ([[r1 buf1] [nr rerr]] & w2 & _ & Hrun).
  cbv beta iota zeta in Hrun.
  destruct (bool_decide (rerr <> None) && negb _).
  { by injection Hrun as <- _ _. }
  apply bind_inv in Hrun as (buf2 & w3 & _ & Hrun).
  apply bind_inv in Hrun as ([nw werr] & w4 & _ & Hrun).
  cbv beta iota zeta in Hrun.
  destruct werr as [e|].
  { by injection Hrun as <- _ _. }
  destruct (negb (nw =? blen buf2)).
  { by injection Hrun as <- _ _. }
  destruct (negb (total =? -1) && _).
  { by injection Hrun as <- _ _. }
  destruct (is_err rerr EOF || is_err rerr ErrUnexpectedEOF).
  { by injection Hrun as <- _ _. }
  by apply IH in Hrun.
Qed.

Lemma write_to_keeps_intervals fuel obj name fileSize :
  keeps intervals (write_to' fuel obj name fileSize).
Proof. unfold write_to, pool_Get, pool_Put. frames_tac. Qed.

(** What a successful [write_to] leaves. *)
Lemma write_to_ok_post fuel obj name fileSize w d w' :
  pool_zero w ->
  write_to' fuel obj name fileSize w = (Ok (d, None), w') ->
  0 <= fileSize /\
  files w !! name = None /\
  files w' = <[name := replicate (Z.to_nat fileSize) x00]> (files w) /\
  pool_zero w' /\ (pool_sized w -> pool_sized w') /\
  intervals w' = intervals w /\ d = elapsed E obj.
Proof.
  intros Hzero Hrun.
  destruct (write_to_beside E filepath_Dir debug fuel obj name fileSize w) as (Hothers & _ & _).
  pose proof (write_to_keeps_intervals fuel obj name fileSize w) as Hint.
  rewrite Hrun in Hothers, Hint. cbn [snd] in Hothers, Hint.
  apply write_to_ok_inv in Hrun as (w3 & b & w4 & b' & w5 & Hreach & Hget & Hcopy & Hd & Hfin).
  pose proof Hreach as (_ & _ & Hfree & _).
  apply reaches_copy_zero_file in Hreach as ((_ & Hfile & dd & Hfd) & Hp3 & _).
  assert (pool_sized w -> blen b = readBlockSize /\ pool_sized w4) as Hsz.
  { intros Hsized. unfold pool_Get, bind, get_world in Hget. cbv beta iota in Hget.
    unfold pool_sized in *. rewrite <- Hp3 in Hsized.
    destruct (pool w3) as [|b0 rest] eqn:Hp; injection Hget as <- <-.
    - by rewrite Hp.
    - apply Forall_cons in Hsized as [Hb0 Hrest]. done. }
  apply pool_Get_zero in Hget as (Hbz & Hp4 & Hf4 & Hd4 & _);
    [|by unfold pool_zero; rewrite Hp3].
  assert (pool w5 = pool w4) as Hp5.
  { pose proof (keeps_CopyAligned E pool (fun _ _ _ => eq_refl) (fun _ _ => eq_refl)
                  (fun _ _ => eq_refl) fuel (next_fd w)
                  (LimitReader mk_nullReader fileSize) b fileSize w4) as Hk.
    by rewrite Hcopy in Hk. }
  pose proof (CopyAligned_loop_blen _ _ _ _ _ _ _ _ _ _ Hcopy) as Hb'.
  apply (CopyAligned_loop_zero E name (next_fd w)) in Hcopy as (Hbz' & Hsize & Hfile5 & _);
    [|done|].
  2:{ split; [done|]. rewrite Hf4, Hd4. eauto. }
  apply finish_world in Hfin as (Hf' & Hp' & _).
  split; [done|]. split; [done|]. split; [|split; [|split; [|done]]].
  - apply map_eq. intros p. destruct (decide (p = name)) as [->|Hne].
    + by rewrite lookup_insert_eq, Hf'.
    + rewrite lookup_insert_ne by done. by apply Hothers.
  - unfold pool_zero. rewrite Hp', Hp5. by apply Forall_cons.
  - intros Hsized. destruct (Hsz Hsized) as [Hb Hs4].
    unfold pool_sized. rewrite Hp', Hp5. apply Forall_cons. split; [congruence|done].
Qed.

(** X6. A successful [write] changes the file system by exactly one
    new file: the path was free, it now holds as many null bytes as the
    size asked for (none for size 0), and every other path is as before;
    and a write of a negative size never succeeds. *)
Theorem write_adds_one_file fuel obj drives drive fileSize tree d w :
  pool_zero w ->
  drives !! Z.to_nat (rand_Intn E obj mod len_ drives) = Some drive ->
  fst (write' fuel obj drives fileSize tree w) = Ok (d, None) ->
  0 <= fileSize /\
  files w !! name_of obj drive tree = None /\
  files (snd (write' fuel obj drives fileSize tree w))
  = <[name_of obj drive tree := replicate (Z.to_nat fileSize) x00]> (files w).
Proof.
  intros Hpool Hd Hok.
  rewrite (write_pick _ _ _ _ _ _ _ _ _ _ _ Hd) in *.
  destruct (write_to' fuel obj (name_of obj drive tree) fileSize w) as [r w'] eqn:Hrun.
  cbn [fst snd] in *. subst r.
  by apply write_to_ok_post in Hrun as (H1 & H2 & H3 & _).
Qed.

End SystemCalls.

Lemma write_system_calls_witness :
  exists t,
    trace (snd (write quiet_env join_clean dir_clean false 10 0 ["/tmp/a"%string] 5 false
                  (initial_world ∅)))
    = [EvMkdirAll "/tmp/a" 493;
       EvOpen (object_name quiet_env join_clean 0 "/tmp/a" false) write_flags 438;
       EvFallocate 3 1 0 5] ++ t ++ [EvFdatasync 3; EvClose 3] /\
    Forall (copy_event 3) t /\ written_bytes t = 5.
Proof.
  refine (write_system_calls quiet_env join_clean dir_clean false 10 0 ["/tmp/a"%string]
            "/tmp/a" 5 false 1000000 (initial_world ∅) _ _).
  - reflexivity.
  - vm_compute. reflexivity.
Defined.

Lemma write_adds_one_file_witness :
  files (snd (write quiet_env join_clean dir_clean false 10 0 ["/tmp/a"%string] 0 false
                (initial_world ∅)))
  = {[object_name quiet_env join_clean 0 "/tmp/a" false := []]}.
Proof.
  refine (proj2 (proj2 (write_adds_one_file quiet_env join_clean dir_clean false 10 0
                          ["/tmp/a"%string] "/tmp/a" 0 false 1000000 (initial_world ∅)
                          _ _ _))).
  - constructor.
  - reflexivity.
  - vm_compute. reflexivity.
Defined.

(** ** Edges of the scheduler *)

Lemma within_refl ts w : within ts w w.
Proof. by split. Qed.

Lemma within_trans ts w1 w2 w3 : within ts w1 w2 -> within ts w2 w3 -> within ts w1 w3.
Proof.
  intros [Hl1 Ho1] [Hl2 Ho2]. split; [congruence|].
  intros j Hj. rewrite Ho2, Ho1; done.
Qed.

Lemma within_keeps {A} ts (m : M A) w : keeps intervals m -> within ts w (snd (m w)).
Proof. intros H. unfold within. by rewrite (H w). Qed.

Lemma within_bind {A B} ts (m : M A) (k : A -> M B) :
  (forall w, within ts w (snd (m w))) ->
  (forall a w, within ts w (snd (k a w))) ->
  forall w, within ts w (snd (bind m k w)).
Proof.
  intros Hm Hk w. unfold bind. specialize (Hm w).
  destruct (m w) as [[a| | |] w1]; simpl in *; try done.
  eapply within_trans; [exact Hm|apply Hk].
Qed.

Lemma bind_ret {A B} (a : A) (k : A -> M B) w : bind (ret a) k w = k a w.
Proof. reflexivity. Qed.

Lemma make_float64s_ok n w :
  0 <= n -> 8 * n <= maxAlloc ->
  make_float64s n w
  = (Ok (mkFloatSlice 0 n n), set_intervals (replicate (Z.to_nat n) 0) w).
Proof.
  intros Hn Hmax. unfold make_float64s.
  replace ((n <? 0) || (maxAlloc <? 8 * n)) with false
    by (symmetry; apply orb_false_iff; split; apply Z.ltb_ge; lia).
  reflexivity.
Qed.

Section SchedulerEdges.

Variable E : Env.
Variable filepath_Join : string -> string -> string.
Variable filepath_Dir : string -> string.
Variable debug : bool.

Local Abbreviation task' := (task E filepath_Join filepath_Dir debug).
Local Abbreviation concurrentWrite' := (concurrentWrite E filepath_Join filepath_Dir debug).

Lemma float_store_within ts i v w :
  0 <= fs_off ts -> within ts w (snd (float_store ts i v w)).
Proof.
  intros Hoff. unfold float_store.
  destruct ((i <? 0) || (fs_len ts <=? i)) eqn:Hi; [apply within_refl|].
  apply orb_false_iff in Hi as [H1 H2]. apply Z.ltb_ge in H1. apply Z.leb_gt in H2.
  unfold modify, within. cbn [snd intervals set_intervals]. split.
  - apply length_insert.
  - intros j Hj. apply list_lookup_insert_ne. lia.
Qed.

Lemma task_within fuel obj drives fileSize ts tree i w :
  0 <= fs_off ts -> within ts w (snd (task' fuel obj drives fileSize ts tree i w)).
Proof.
  intros Hoff. unfold task. apply within_bind.
  - intros w0. apply within_keeps. apply write_keeps_intervals.
  - intros [d [e|]] w0; [apply within_refl|by apply float_store_within].
Qed.

(** X7. Whatever its outcome, a batch keeps the length of the array
    of samples and changes no sample outside the slice it was given. *)
Theorem concurrentWrite_within_slice fuel obj drives fileSize nfiles ts tree w :
  0 <= fs_off ts ->
  length (intervals (snd (concurrentWrite E filepath_Join filepath_Dir debug
                            fuel obj drives fileSize nfiles ts tree w)))
  = length (intervals w) /\
  forall j : nat,
    ~ (fs_off ts <= Z.of_nat j < fs_off ts + fs_len ts) ->
    intervals (snd (concurrentWrite E filepath_Join filepath_Dir debug
                      fuel obj drives fileSize nfiles ts tree w)) !! j
    = intervals w !! j.
Proof.
  intros Hoff. change (within ts w (snd (concurrentWrite' fuel obj drives fileSize nfiles ts tree w))).
  revert w. unfold concurrentWrite.
  apply within_bind; [intros w; apply within_keeps; keeps_tac|]. intros _.
  apply within_bind; [|intros _ w; apply within_keeps; keeps_tac].
  generalize (seqZ 0 nfiles) as l. induction l as [|i l IH]; cbn [forM_].
  - intros w. apply within_refl.
  - apply within_bind; [|intros _; apply IH].
    apply within_bind; [intros w; apply within_keeps; keeps_tac|].
    intros _ w. by apply task_within.
Qed.

Variable Pattern : Type.
Variable HasEllipses : string -> bool.
Variable FindEllipsesPatterns : string -> list Pattern * option error.
Variable Expand : Pattern -> list string.

Local Abbreviation main_drives' :=
  (main_drives Pattern HasEllipses FindEllipsesPatterns Expand).
Local Abbreviation schedule' :=
  (schedule E filepath_Join filepath_Dir debug Pattern HasEllipses FindEllipsesPatterns Expand).

(** With a concurrency of 0 the loop of [main] runs empty batches and
    stays at object 0. *)
Lemma main_loop_stuck n fuel drives fileSize T tree w :
  0 < T < 2 ^ 62 ->
  exists w',
    main_loop E filepath_Join filepath_Dir debug n fuel drives 0 fileSize T
              (mkFloatSlice 0 T T) tree 0 w = (OutOfFuel, w') /\
    files w' = files w /\ intervals w' = intervals w /\ stdout w' = stdout w /\
    trace w' = trace w ++ replicate n EvWait.
Proof.
  intros HT. revert w. induction n as [|n IH]; intros w; cbn [main_loop];
    rewrite (to_int64_small T) by lia;
    replace (0 <? T) with true by (symmetry; apply Z.ltb_lt; lia).
  - exists w. by rewrite app_nil_r.
  - unfold float_slice. cbn [fs_cap fs_off fs_len]. change (to_int64 (0 + 0)) with 0.
    replace ((0 <? 0) || (T <? 0)) with false
      by (symmetry; apply orb_false_iff; split; apply Z.ltb_ge; lia).
    change ((0 <? 0) || (0 <? 0)) with false. cbv iota.
    rewrite bind_ret.
    unfold concurrentWrite. change (0 <? 0) with false. cbv iota.
    change (seqZ 0 0) with (@nil Z). cbn [forM_].
    unfold bind at 1. unfold bind at 1. unfold bind at 1. unfold ret at 1. unfold ret at 1.
    cbn [liftR]. unfold emit, modify. cbv beta iota.
    destruct (IH (set_trace (trace w ++ [EvWait]) w)) as (w' & Hrun & Hf & Hi & Hs & Ht).
    exists w'. rewrite Hrun. split; [done|]. split; [done|]. split; [done|]. split; [done|].
    rewrite Ht. cbn. by rewrite <- app_assoc.
Qed.

(** X8. With CONCURRENT = 0 and at least one object asked for, the
    loop of [main] never ends: it runs empty batches and stays at object
    0, so the run is out of fuel whatever the fuel; no file is created
    and the only events are the barriers of the empty batches. *)
Theorem schedule_zero_concurrency fuel cfg drives w :
  main_drives' (DRIVES cfg) = Ok drives ->
  CONCURRENT cfg = 0 ->
  0 < NFILES cfg -> 8 * NFILES cfg <= maxAlloc ->
  fst (schedule' fuel cfg w) = OutOfFuel /\
  files (snd (schedule' fuel cfg w)) = files w /\
  trace (snd (schedule' fuel cfg w)) = trace w ++ replicate fuel EvWait.
Proof.
  intros Hdrives HC HT Hmax.
  assert (NFILES cfg < 2 ^ 62) as HT62 by (unfold maxAlloc in Hmax; lia).
  assert (exists w', schedule' fuel cfg w = (OutOfFuel, w') /\ files w' = files w /\
                     trace w' = trace w ++ replicate fuel EvWait) as (w' & -> & Hf & Ht);
    [|done].
  unfold schedule. rewrite Hdrives, HC, bind_liftR_ok.
  rewrite (bind_ok _ _ _ _ _ (make_float64s_ok (NFILES cfg) w ltac:(lia) Hmax)).
  rewrite (to_int64_small (NFILES cfg)) by lia.
  replace (NFILES cfg <? 0) with false by (symmetry; apply Z.ltb_ge; lia).
  set (w1 := set_intervals _ w).
  destruct (main_loop_stuck fuel fuel drives (FILESIZE cfg) (NFILES cfg) (TREE cfg) w1)
    as (w' & Hrun & Hf & _ & _ & Ht); [lia|].
  exists w'. unfold bind at 1. rewrite Hrun. done.
Qed.

(** X9. With a negative CONCURRENT and at least one object asked for,
    [main] panics on the first slice of samples, before any goroutine is
    launched and before any system call. *)
Theorem schedule_negative_concurrency fuel cfg drives w :
  main_drives' (DRIVES cfg) = Ok drives ->
  - 2 ^ 63 <= CONCURRENT cfg < 0 ->
  0 < NFILES cfg -> 8 * NFILES cfg <= maxAlloc ->
  (1 <= fuel)%nat ->
  (exists msg, fst (schedule' fuel cfg w) = Panic msg) /\
  files (snd (schedule' fuel cfg w)) = files w /\
  trace (snd (schedule' fuel cfg w)) = trace w.
Proof.
  intros Hdrives HC HT Hmax Hfuel.
  assert (NFILES cfg < 2 ^ 62) as HT62 by (unfold maxAlloc in Hmax; lia).
  assert (exists msg w', schedule' fuel cfg w = (Panic msg, w') /\ files w' = files w /\
                         trace w' = trace w) as (msg & w' & -> & Hf & Ht);
    [|by eauto].
  unfold schedule. rewrite Hdrives, bind_liftR_ok.
  rewrite (bind_ok _ _ _ _ _ (make_float64s_ok (NFILES cfg) w ltac:(lia) Hmax)).
  rewrite (to_int64_small (NFILES cfg)) by lia.
  replace (NFILES cfg <? CONCURRENT cfg) with false by (symmetry; apply Z.ltb_ge; lia).
  destruct fuel as [|fuel]; [lia|]. cbn [main_loop].
  rewrite (to_int64_small (NFILES cfg)) by lia.
  replace (0 <? NFILES cfg) with true by (symmetry; apply Z.ltb_lt; lia).
  unfold float_slice. cbn [fs_cap]. rewrite Z.add_0_l, (to_int64_small (CONCURRENT cfg)) by lia.
  replace (CONCURRENT cfg <? 0) with true by (symmetry; apply Z.ltb_lt; lia).
  cbn [orb]. unfold bind, liftR. cbn [fst snd]. eauto.
Qed.

End SchedulerEdges.

(** ** The earlier variant *)

Section SimpleFacts.

Variable E : Env.
Variable filepath_Join : string -> string -> string.
Variable filepath_Dir : string -> string.
Variable debug : bool.

(** The loop of the earlier [main], when it ends normally from object
    [i]: the batch size is positive and divides what was left. *)
Lemma Simple_main_loop_ok n fuel drives C fileSize T i w w' :
  Simple.main_loop E filepath_Join filepath_Dir debug n fuel drives C fileSize T
                   (mkFloatSlice 0 T T) i w = (Ok tt, w') ->
  0 <= T < 2 ^ 62 -> - 2 ^ 63 <= C < 2 ^ 63 -> 0 <= i ->
  i < T -> 0 < C /\ (T - i) mod C = 0.
Proof.
  revert i w. induction n as [|n IH]; intros i w H HT HC Hi HiT;
    cbn [Simple.main_loop] in H; rewrite (to_int64_small T) in H by lia;
    replace (i <? T) with true in H by (symmetry; apply Z.ltb_lt; lia).
  - discriminate.
  - apply bind_inv in H as (s & w0 & Hslice & H).
    unfold float_slice in Hslice. cbn [fs_cap fs_off fs_len] in Hslice.
    set (b := to_int64 (i + C)) in *.
    destruct ((b <? 0) || (T <? b)) eqn:Hb1; [discriminate|].
    destruct ((i <? 0) || (b <? i)) eqn:Hb2; [discriminate|].
    injection Hslice as <- <-.
    apply orb_false_iff in Hb1 as [Hb1 Hb1']. apply orb_false_iff in Hb2 as [_ Hb2].
    apply Z.ltb_ge in Hb1, Hb1', Hb2.
    assert (b = i + C) as Hb.
    { subst b. unfold to_int64 in *.
      destruct (Z_lt_ge_dec (i + C) (2 ^ 63)) as [Hlt|Hge].
      - rewrite Z.mod_small; lia.
      - exfalso. replace (i + C + 2 ^ 63) with (i + C - 2 ^ 63 + 1 * 2 ^ 64) in Hb1 by lia.
        rewrite Z.mod_add in Hb1 by lia. rewrite Z.mod_small in Hb1; lia. }
    clearbody b. subst b.
    apply bind_inv in H as ([] & w1 & _ & H).
    destruct (Z_lt_ge_dec (i + C) T) as [Hlt|Hge].
    + apply IH in H as [HCpos Hmod]; try lia. split; [done|].
      replace (T - i) with (T - (i + C) + 1 * C) by lia.
      by rewrite Z.mod_add by lia.
    + assert (i + C = T) as HT' by lia. split; [lia|].
      replace (T - i) with C by lia. apply Z.mod_same. lia.
Qed.

(** X10. The earlier variant of [main] has the same loop: a run gets
    to the report only if the objects are fewer than the concurrency, or
    none, or a positive concurrency divides their number. *)
Theorem Simple_schedule_full_batches fuel DRIVES C fileSize T w ts :
  - 2 ^ 63 <= C < 2 ^ 63 ->
  0 <= T < 2 ^ 64 ->
  fst (Simple.schedule E filepath_Join filepath_Dir debug fuel DRIVES C fileSize T w) = Ok ts ->
  T < C \/ T = 0 \/ (0 < C /\ T mod C = 0).
Proof.
  intros HC HT Hok.
  destruct (Simple.schedule E filepath_Join filepath_Dir debug fuel DRIVES C fileSize T w)
    as [r w1] eqn:H. cbn [fst] in Hok. subst r.
  unfold Simple.schedule in H. cbv zeta in H.
  apply bind_inv in H as (ts0 & w2 & Hmake & H).
  unfold make_float64s in Hmake.
  destruct ((T <? 0) || (maxAlloc <? 8 * T)) eqn:Hm; [discriminate|].
  apply orb_false_iff in Hm as [_ Hm]. apply Z.ltb_ge in Hm.
  assert (T < 2 ^ 62) as HT62 by (unfold maxAlloc in Hm; lia).
  injection Hmake as <- <-.
  apply bind_inv in H as ([] & w3 & Hrun & _).
  rewrite (to_int64_small T) in Hrun by lia.
  destruct (T <? C) eqn:Hlt; [apply Z.ltb_lt in Hlt; by left|].
  right. destruct (Z.eq_dec T 0) as [?|Hne]; [by left|right].
  apply Simple_main_loop_ok in Hrun; try lia. by rewrite Z.sub_0_r in Hrun.
Qed.

End SimpleFacts.

(** *** The two variants of [write] *)

Lemma agree_bind {A B C} (f : C -> B) (m : M A) (k : A -> M B) (k' : A -> M C) :
  (forall a, agree f (k a) (k' a)) -> agree f (bind m k) (bind m k').
Proof.
  intros H w. unfold bind. destruct (m w) as [[a| | |] w1]; cbn; try done. apply H.
Qed.

Lemma agree_ret {A B} (f : B -> A) (b : B) : agree f (ret (f b)) (ret b).
Proof. by intros w. Qed.

Section Variants.

Variable E : Env.
Variable filepath_Join : string -> string -> string.
Variable filepath_Dir : string -> string.

(** With debug off the two variants of [write] do the same to the
    world and fail alike. *)
Lemma write_to_variants fuel obj name fileSize :
  agree snd (Simple.write_to E filepath_Dir false fuel name fileSize)
            (write_to E filepath_Dir false fuel obj name fileSize).
Proof.
  unfold Simple.write_to, write_to.
  intros w. rewrite bind_ret. revert w.
  apply agree_bind. intros [e|]; [apply (agree_ret snd (0, Some e))|].
  apply agree_bind. intros [fd [e|]]; [apply (agree_ret snd (0, Some e))|].
  apply agree_bind. intros [e|]; [apply (agree_ret snd (0, Some e))|].
  apply agree_bind. intros bufp.
  apply agree_bind. intros [bufp' [written err]].
  assert (forall (r : Z * option error),
            agree snd (pool_Put bufp';;; Fdatasync fd;;; File_Close fd;;; ret (snd r))
                      (pool_Put bufp';;; Fdatasync fd;;; File_Close fd;;; ret r)) as Htail.
  { intros r. do 3 (apply agree_bind; intros _). apply agree_ret. }
  destruct err as [e|].
  { intros w. rewrite bind_ret. apply (Htail (0, Some e)). }
  destruct (negb (written =? fileSize)).
  { intros w. rewrite bind_ret. apply (Htail (0, Some (size_mismatch fileSize written))). }
  intros w. cbv zeta. rewrite andb_false_r.
  change (bind (ret tt;;; ret (elapsed E obj, None)) ?k w) with (k (elapsed E obj, None) w).
  apply (Htail (elapsed E obj, None)).
Qed.

(** X11. With debug off, the earlier [write] and the later [write]
    (flat layout) leave the same world (the same files, descriptors,
    pool, output and system calls) and end alike; the earlier one
    returns the error that the later one returns beside the duration. *)
Theorem write_variants_agree fuel obj drives fileSize w :
  snd (Simple.write E filepath_Join filepath_Dir false fuel obj drives fileSize w)
  = snd (write E filepath_Join filepath_Dir false fuel obj drives fileSize false w) /\
  fst (Simple.write E filepath_Join filepath_Dir false fuel obj drives fileSize w)
  = res_bind (fst (write E filepath_Join filepath_Dir false fuel obj drives fileSize false w))
             (fun r => Ok (snd r)).
Proof.
  revert w. change (agree snd (Simple.write E filepath_Join filepath_Dir false fuel obj drives fileSize)
                          (write E filepath_Join filepath_Dir false fuel obj drives fileSize false)).
  unfold Simple.write, write.
  apply agree_bind. intros k. apply agree_bind. intros drive.
  apply write_to_variants.
Qed.

End Variants.

(** *** The debug line of the earlier [write] *)

Section DebugLine.

Variable E : Env.
Variable filepath_Join : string -> string -> string.
Variable filepath_Dir : string -> string.
Variable debug : bool.

Lemma Simple_write_to_silent fuel name fileSize :
  keeps stdout (Simple.write_to E filepath_Dir false fuel name fileSize).
Proof. unfold Simple.write_to, pool_Get, pool_Put. frames_tac. Qed.

(** X12. In the earlier variant, with debug on, [write] prints the
    line "writing to" with the path before doing anything else, and
    nothing more, whatever its outcome; with debug off it prints
    nothing. *)
Theorem Simple_write_debug_line fuel obj drives drive fileSize w :
  drives !! Z.to_nat (rand_Intn E obj mod len_ drives) = Some drive ->
  stdout (snd (Simple.write E filepath_Join filepath_Dir debug fuel obj drives fileSize w))
  = stdout w ++ (if debug
                 then [Text ("writing to " ++ Simple.object_name E filepath_Join obj drive)]
                 else []).
Proof.
  intros Hd. unfold Simple.write. rewrite (pick_drive E obj drives drive _ w Hd).
  set (name := Simple.object_name E filepath_Join obj drive).
  destruct debug.
  - change (Simple.write_to E filepath_Dir true fuel name fileSize w)
      with (Simple.write_to E filepath_Dir false fuel name fileSize
              (set_stdout (stdout w ++ [Text ("writing to " ++ name)]) w)).
    by rewrite Simple_write_to_silent.
  - by rewrite Simple_write_to_silent, app_nil_r.
Qed.

End DebugLine.

Lemma Simple_write_debug_line_witness :
  stdout (snd (Simple.write quiet_env join_clean dir_clean true 10 0 ["/tmp/a"%string] 5
                 (initial_world ∅)))
  = [Text ("writing to " ++ Simple.object_name quiet_env join_clean 0 "/tmp/a")].
Proof.
  refine (Simple_write_debug_line quiet_env join_clean dir_clean true 10 0 ["/tmp/a"%string]
            "/tmp/a" 5 (initial_world ∅) _).
  reflexivity.
Defined.

(** ** The resolver on literal entries *)

Lemma strings_Split_nonempty (s : string) (sep : ascii) : strings_Split s sep <> [].
Proof.
  induction s as [|c s IH]; simpl; [done|].
  destruct (Ascii.eqb c sep); [done|]. by destruct (strings_Split s sep).
Qed.

(** Joining the pieces with the separator gives the string back. *)
Lemma strings_Split_concat (s : string) (sep : ascii) :
  String.concat (String sep EmptyString) (strings_Split s sep) = s.
Proof.
  induction s as [|c s IH]; simpl; [done|].
  pose proof (strings_Split_nonempty s sep) as Hne.
  destruct (Ascii.eqb c sep) eqn:Hc.
  - apply Ascii.eqb_eq in Hc as ->.
    destruct (strings_Split s sep) as [|piece pieces] eqn:Hs; [done|].
    simpl in *. by rewrite IH.
  - destruct (strings_Split s sep) as [|piece pieces] eqn:Hs; [done|].
    simpl in *. destruct pieces; simpl in *; by rewrite <- IH.
Qed.

(** No piece contains the separator. *)
Lemma strings_Split_pieces (s : string) (sep : ascii) :
  Forall (fun d => sep ∉ list_ascii_of_string d) (strings_Split s sep).
Proof.
  induction s as [|c s IH]; simpl.
  - constructor; [|constructor]. apply not_elem_of_nil.
  - destruct (Ascii.eqb c sep) eqn:Hc.
    + constructor; [apply not_elem_of_nil|done].
    + pose proof (strings_Split_nonempty s sep) as Hne.
      destruct (strings_Split s sep) as [|piece pieces]; [done|].
      apply Forall_cons in IH as [Hp Hps]. constructor; [|done].
      simpl. apply not_elem_of_cons. split; [|done].
      intros ->. by rewrite Ascii.eqb_refl in Hc.
Qed.

Section ResolverMore.

Variable Pattern : Type.
Variable HasEllipses : string -> bool.
Variable FindEllipsesPatterns : string -> list Pattern * option error.
Variable Expand : Pattern -> list string.

Local Abbreviation loop := (parseDrives_loop Pattern HasEllipses FindEllipsesPatterns Expand).
Local Abbreviation parseDrives' := (parseDrives Pattern HasEllipses FindEllipsesPatterns Expand).
Local Abbreviation main_drives' := (main_drives Pattern HasEllipses FindEllipsesPatterns Expand).
Local Abbreviation paths := (entry_paths Pattern HasEllipses FindEllipsesPatterns Expand).

Lemma parseDrives_loop_literals (drives dst : list string) :
  Forall (fun d => HasEllipses d = false) drives ->
  loop dst drives = Ok (dst ++ drives).
Proof.
  revert dst. induction drives as [|d rest IH]; intros dst H; simpl.
  - by rewrite app_nil_r.
  - apply Forall_cons in H as [Hd Hrest]. rewrite Hd. simpl.
    rewrite IH by done. by rewrite <- app_assoc.
Qed.

(** X13. A specification in which no entry has a pattern is resolved
    to its comma-separated pieces, at least one, empty pieces included:
    no piece holds a comma, and joined by commas they give the
    specification back. *)
Theorem parseDrives_literals (h : string) :
  Forall (fun d => HasEllipses d = false) (strings_Split h comma) ->
  exists ds,
    parseDrives' h = Ok ds /\
    ds <> [] /\
    Forall (fun d => comma ∉ list_ascii_of_string d) ds /\
    String.concat "," ds = h.
Proof.
  intros H. exists (strings_Split h comma). split; [|split; [|split]].
  - unfold parseDrives. by rewrite parseDrives_loop_literals.
  - apply strings_Split_nonempty.
  - apply strings_Split_pieces.
  - apply strings_Split_concat.
Qed.

(** The resolver ends normally or fatally: it has no panic of its own. *)
Lemma parseDrives_loop_outcome (drives dst : list string) :
  (exists ds, loop dst drives = Ok ds) \/ (exists msg, loop dst drives = Fatal msg).
Proof.
  revert dst. induction drives as [|d rest IH]; intros dst; simpl; [eauto|].
  destruct (HasEllipses d); simpl; [|apply IH].
  destruct (FindEllipsesPatterns d) as [ps [e|]]; [eauto|apply IH].
Qed.

Lemma main_drives_outcome (h : string) :
  (exists ds, main_drives' h = Ok ds) \/ (exists msg, main_drives' h = Fatal msg).
Proof.
  unfold main_drives, parseDrives.
  destruct (parseDrives_loop_outcome (strings_Split h comma) []) as [[ds ->]|[msg ->]];
    simpl; [|eauto].
  destruct (len_ ds =? 0); eauto.
Qed.

(** X14. The check of [main] on the drives fires exactly when every
    entry of the specification is a pattern that expands to no path; with
    one literal entry, the empty one included, [main] goes on with the
    drives resolved. *)
Theorem main_drives_check (h : string) (ds : list string) :
  parseDrives' h = Ok ds ->
  (ds = [] <->
   forall d, d ∈ strings_Split h comma ->
             HasEllipses d = true /\
             concat (map Expand (fst (FindEllipsesPatterns d))) = []) /\
  main_drives' h = (if decide (ds = []) then Fatal "DRIVES is a mandatory env option"
                    else Ok ds).
Proof.
  intros H. split.
  - unfold parseDrives in H. apply parseDrives_loop_ok in H. simpl in H. subst ds.
    generalize (strings_Split h comma) as l. induction l as [|d l IH]; simpl.
    + split; [|done]. intros _ d Hd. by apply elem_of_nil in Hd.
    + unfold entry_paths at 1, is_literal. split.
      * intros Hnil. apply app_eq_nil in Hnil as [Hd Hl].
        intros d' Hd'. apply elem_of_cons in Hd' as [->|Hd']; [|by apply IH].
        destruct (HasEllipses d); [done|discriminate].
      * intros Hall. destruct (Hall d) as [Hd Hexp]; [left|].
        rewrite Hd. simpl. rewrite Hexp. simpl. apply IH.
        intros d' Hd'. apply Hall. by right.
  - unfold main_drives. rewrite H. simpl. unfold len_.
    destruct ds; [done|]. rewrite decide_False by done.
    replace (Z.of_nat (length (s :: ds)) =? 0) with false; [done|].
    symmetry. apply Z.eqb_neq. simpl. lia.
Qed.

End ResolverMore.

Lemma parseDrives_literals_witness :
  exists ds,
    parseDrives ellipses.Pattern ellipses.HasEllipses ellipses.FindEllipsesPatterns
                ellipses.Expand "/mnt/a,,/mnt/b," = Ok ds /\
    ds <> [] /\
    Forall (fun d => comma ∉ list_ascii_of_string d) ds /\
    String.concat "," ds = "/mnt/a,,/mnt/b,"%string.
Proof.
  apply (parseDrives_literals ellipses.Pattern ellipses.HasEllipses
           ellipses.FindEllipsesPatterns ellipses.Expand "/mnt/a,,/mnt/b,").
  repeat constructor.
Defined.

Lemma main_drives_check_witness :
  main_drives ellipses.Pattern ellipses.HasEllipses ellipses.FindEllipsesPatterns
              ellipses.Expand ",/mnt/disk{1...2}"
  = Ok [""; "/mnt/disk1"; "/mnt/disk2"]%string.
Proof.
  exact (proj2 (main_drives_check ellipses.Pattern ellipses.HasEllipses
                  ellipses.FindEllipsesPatterns ellipses.Expand ",/mnt/disk{1...2}"
                  [""; "/mnt/disk1"; "/mnt/disk2"]%string eq_refl)).
Defined.

(** ** The options of a run *)

Section OptionsFacts.

Variable E : Env.
Variable filepath_Join : string -> string -> string.
Variable filepath_Dir : string -> string.
Variable Pattern : Type.
Variable HasEllipses : string -> bool.
Variable FindEllipsesPatterns : string -> list Pattern * option error.
Variable Expand : Pattern -> list string.
Variable env_Get : string -> string -> string.
Variable strconv_Atoi : string -> Z * option error.
Variable humanize_ParseBytes : string -> Z * option error.
Variable strconv_ParseBool : string -> bool * option error.

Local Abbreviation main_env' :=
  (main_env E filepath_Join filepath_Dir Pattern HasEllipses FindEllipsesPatterns Expand
            env_Get strconv_Atoi humanize_ParseBytes strconv_ParseBool).

Lemma or_Fatal_outcome {A} (r : A * option error) w :
  or_Fatal r w = (Ok (fst r), w) \/ exists msg, or_Fatal r w = (Fatal msg, w).
Proof. unfold or_Fatal. destruct (snd r); [right; by eexists|by left]. Qed.

(** X15. [main] parses the TREE option with [strconv.ParseBool] and
    the default "off". When TREE is not set and ParseBool refuses "off"
    (as Go's does), every run ends in [log.Fatal] before anything is
    written or allocated, whatever the other options. *)
Theorem main_env_default_tree (fuel : nat) (w : World) :
  env_Get "TREE" "off" = "off"%string ->
  snd (strconv_ParseBool "off") <> None ->
  exists msg, main_env' fuel w = (Fatal msg, w).
Proof.
  intros Hunset Hrefused. unfold main_env. cbv zeta.
  destruct (main_drives_outcome Pattern HasEllipses FindEllipsesPatterns Expand
              (env_Get "DRIVES" "")) as [[ds ->]|[msg ->]]; [|by exists msg].
  rewrite bind_liftR_ok.
  destruct (or_Fatal_outcome (strconv_Atoi (env_Get "CONCURRENT" "100")) w)
    as [Hc|[msg Hc]]; [|exists msg; by rewrite (bind_fatal _ _ _ _ _ Hc)].
  rewrite (bind_ok _ _ _ _ _ Hc).
  destruct (or_Fatal_outcome (humanize_ParseBytes (env_Get "FILESIZE" "128KiB")) w)
    as [Hs|[msg Hs]]; [|exists msg; by rewrite (bind_fatal _ _ _ _ _ Hs)].
  rewrite (bind_ok _ _ _ _ _ Hs).
  destruct (or_Fatal_outcome (humanize_ParseBytes (env_Get "NFILES" "8M")) w)
    as [Hn|[msg Hn]]; [|exists msg; by rewrite (bind_fatal _ _ _ _ _ Hn)].
  rewrite (bind_ok _ _ _ _ _ Hn).
  rewrite Hunset. unfold or_Fatal at 1.
  destruct (snd (strconv_ParseBool "off")) as [e|]; [|done].
  exists (Error e). reflexivity.
Qed.

End OptionsFacts.

Lemma main_env_default_tree_witness :
  let environ : gmap string string :=
    {[ "DRIVES" := "/tmp/a"; "CONCURRENT" := "2"; "FILESIZE" := "8"; "NFILES" := "4" ]}%string in
  exists msg,
    main_env quiet_env join_clean dir_clean ellipses.Pattern ellipses.HasEllipses
             ellipses.FindEllipsesPatterns ellipses.Expand
             (env_Get environ) parse_decimal parse_decimal ParseBool 20 (initial_world ∅)
    = (Fatal msg, initial_world ∅).
Proof.
  intros environ.
  apply (main_env_default_tree quiet_env join_clean dir_clean ellipses.Pattern
           ellipses.HasEllipses ellipses.FindEllipsesPatterns ellipses.Expand
           (env_Get environ) parse_decimal parse_decimal ParseBool 20 (initial_world ∅)).
  - reflexivity.
  - discriminate.
Defined.

(** ** Preallocation of a length other than 0 *)

Section Preallocation.

Variable E : Env.


End Preallocation.


(** ** What the report shows *)

Section ReportFacts.

Variable E : Env.
Variable filepath_Join : string -> string -> string.
Variable filepath_Dir : string -> string.
Variable debug : bool.
Variable Pattern : Type.
Variable HasEllipses : string -> bool.
Variable FindEllipsesPatterns : string -> list Pattern * option error.
Variable Expand : Pattern -> list string.

Local Abbreviation main' :=
  (main E filepath_Join filepath_Dir debug Pattern HasEllipses FindEllipsesPatterns Expand).

(** An array whose cells are the times of the objects, in order. *)
Lemma samples_done_all (w : World) (T : Z) :
  len_ (intervals w) = T -> samples_done E w 0 T ->
  intervals w = elapsed E <$> seqZ 0 T.
Proof.
  intros Hlen Hdone. apply list_eq. intros i.
  destruct (decide (Z.of_nat i < T)) as [Hi|Hi].
  - specialize (Hdone (Z.of_nat i) ltac:(lia)). rewrite Nat2Z.id in Hdone.
    rewrite Hdone, list_lookup_fmap.
    rewrite (lookup_seqZ_lt 0 T i) by lia. simpl. by rewrite Z.add_0_l.
  - rewrite lookup_ge_None_2 by (unfold len_ in Hlen; lia).
    rewrite list_lookup_fmap, lookup_seqZ_ge by lia. done.
Qed.

(** X17. A run over valid options of T >= 1 objects that ends normally
    has printed, last, the four lines of the report: the mean and the
    deviation are taken over the times of the T objects and no other
    number, "Fastest" shows the least and "Slowest" the greatest of these
    times. *)
Theorem report_fastest_slowest fuel cfg w w' :
  valid_config cfg ->
  1 <= NFILES cfg ->
  main' fuel cfg w = (Ok tt, w') ->
  exists out xs j k,
    stdout w' = out ++ [Stat "Mean time taken" (MeanOf xs);
                        Stat "Standard deviation time taken" (StdDevOf xs);
                        Stat "Fastest time taken" (DurationOf (elapsed E j));
                        Stat "Slowest time taken" (DurationOf (elapsed E k))] /\
    xs ≡ₚ elapsed E <$> seqZ 0 (NFILES cfg) /\
    0 <= j < NFILES cfg /\ 0 <= k < NFILES cfg /\
    forall i, 0 <= i < NFILES cfg -> elapsed E j <= elapsed E i <= elapsed E k.
Proof.
  intros Hvalid HT Hrun. unfold main in Hrun.
  apply bind_inv in Hrun as (ts & w1 & Hs & Hrep).
  apply schedule_samples in Hs as (Hts & Hlen & Hdone & _ & _); [|done].
  destruct (report_lines (NFILES cfg) ts w1 Hts Hlen HT) as (lo & hi & Hlo & Hhi & Heq).
  rewrite Heq in Hrep. injection Hrep as <-.
  pose proof (samples_done_all w1 (NFILES cfg) Hlen Hdone) as Hall.
  destruct (Float64s_sorted (intervals w1)) as [Hsorted Hperm].
  set (xs := Float64s (intervals w1)) in *.
  assert (forall x, x ∈ xs <-> exists i, 0 <= i < NFILES cfg /\ x = elapsed E i) as Hin.
  { intros x. rewrite Hperm, Hall, list_elem_of_fmap. split.
    - intros (i & -> & Hi). apply elem_of_seqZ in Hi. exists i. split; [lia|done].
    - intros (i & Hi & ->). exists i. split; [done|]. apply elem_of_seqZ. lia. }
  assert (lo ∈ xs) as Hlo' by (by eapply list_elem_of_lookup_2).
  assert (hi ∈ xs) as Hhi' by (by eapply list_elem_of_lookup_2).
  apply Hin in Hlo' as (j & Hj & ->). apply Hin in Hhi' as (k & Hk & ->).
  exists (stdout w1), xs, j, k. split; [done|]. split; [by rewrite <- Hall|].
  split; [done|]. split; [done|].
  intros i Hi.
  assert (elapsed E i ∈ xs) as Hi' by (apply Hin; eauto).
  apply list_elem_of_lookup_1 in Hi' as [p Hp].
  assert (length xs = Z.to_nat (NFILES cfg)) as Hlen'.
  { rewrite (Permutation_length Hperm). unfold len_ in Hlen. lia. }
  split.
  - eapply (StronglySorted_lookup_le xs 0%nat p); eauto. lia.
  - eapply (StronglySorted_lookup_le xs p (Z.to_nat (NFILES cfg - 1))); eauto.
    apply lookup_lt_Some in Hp. lia.
Qed.

End ReportFacts.

Lemma report_fastest_slowest_witness :
  let cfg := mkConfig "/tmp/a,/tmp/b" 2 8 4 false in
  exists out xs j k,
    stdout (snd (run quiet_env false 20 cfg))
    = out ++ [Stat "Mean time taken" (MeanOf xs);
              Stat "Standard deviation time taken" (StdDevOf xs);
              Stat "Fastest time taken" (DurationOf (elapsed quiet_env j));
              Stat "Slowest time taken" (DurationOf (elapsed quiet_env k))] /\
    xs ≡ₚ elapsed quiet_env <$> seqZ 0 4 /\
    0 <= j < 4 /\ 0 <= k < 4 /\
    forall i, 0 <= i < 4 -> elapsed quiet_env j <= elapsed quiet_env i <= elapsed quiet_env k.
Proof.
  intros cfg.
  refine (report_fastest_slowest quiet_env join_clean dir_clean false ellipses.Pattern
            ellipses.HasEllipses ellipses.FindEllipsesPatterns ellipses.Expand 20 cfg
            (initial_world ∅) _ _ _ _).
  - unfold valid_config. cbn. lia.
  - cbn. lia.
  - apply run_eq. vm_compute. reflexivity.
Defined.

(** ** The edge theorems at concrete inputs *)

Lemma concurrentWrite_within_slice_witness :
  let w := set_intervals [7; 0; 0; 9] (initial_world ∅) in
  let w' := snd (concurrentWrite quiet_env join_clean dir_clean false 10 1 ["/tmp/a"%string] 5 2
                   (mkFloatSlice 1 2 3) false w) in
  length (intervals w') = 4%nat /\
  forall j : nat, ~ (1 <= Z.of_nat j < 1 + 2) -> intervals w' !! j = [7; 0; 0; 9] !! j.
Proof.
  intros w w'.
  apply (concurrentWrite_within_slice quiet_env join_clean dir_clean false 10 1
           ["/tmp/a"%string] 5 2 (mkFloatSlice 1 2 3) false w).
  cbn. lia.
Defined.

Lemma schedule_zero_concurrency_witness :
  let r := schedule_on quiet_env false 7 (mkConfig "/tmp/a" 0 5 3 false) (initial_world ∅) in
  fst r = OutOfFuel /\ files (snd r) = ∅ /\ trace (snd r) = replicate 7 EvWait.
Proof.
  intros r.
  apply (schedule_zero_concurrency quiet_env join_clean dir_clean false ellipses.Pattern
           ellipses.HasEllipses ellipses.FindEllipsesPatterns ellipses.Expand 7
           (mkConfig "/tmp/a" 0 5 3 false) ["/tmp/a"%string] (initial_world ∅)).
  - reflexivity.
  - reflexivity.
  - cbn. lia.
  - unfold maxAlloc. cbn. lia.
Defined.

Lemma schedule_negative_concurrency_witness :
  let r := schedule_on quiet_env false 7 (mkConfig "/tmp/a" (-2) 5 3 false) (initial_world ∅) in
  (exists msg, fst r = Panic msg) /\ files (snd r) = ∅ /\ trace (snd r) = [].
Proof.
  intros r.
  apply (schedule_negative_concurrency quiet_env join_clean dir_clean false ellipses.Pattern
           ellipses.HasEllipses ellipses.FindEllipsesPatterns ellipses.Expand 7
           (mkConfig "/tmp/a" (-2) 5 3 false) ["/tmp/a"%string] (initial_world ∅)).
  - reflexivity.
  - cbn. lia.
  - cbn. lia.
  - unfold maxAlloc. cbn. lia.
  - lia.
Defined.

Lemma Simple_schedule_full_batches_witness :
  4 < 2 \/ 4 = 0 \/ (0 < 2 /\ 4 mod 2 = 0).
Proof.
  refine (Simple_schedule_full_batches quiet_env join_clean dir_clean false 20
            "/tmp/a,/tmp/b" 2 8 4 (initial_world ∅) (mkFloatSlice 0 4 4) _ _ _).
  - lia.
  - lia.
  - vm_compute. reflexivity.
Defined.

Example main_env_message :
  let environ : gmap string string :=
    {[ "DRIVES" := "/tmp/a"; "CONCURRENT" := "2"; "FILESIZE" := "8"; "NFILES" := "4" ]}%string in
  fst (main_env quiet_env join_clean dir_clean ellipses.Pattern ellipses.HasEllipses
             ellipses.FindEllipsesPatterns ellipses.Expand
             (env_Get environ) parse_decimal parse_decimal ParseBool 20 (initial_world ∅))
  = Fatal ("strconv.ParseBool: parsing " ++ quoted "off" ++ ": invalid syntax") /\
  fst (main_env quiet_env join_clean dir_clean ellipses.Pattern ellipses.HasEllipses
             ellipses.FindEllipsesPatterns ellipses.Expand
             (env_Get (<["TREE" := "false"]> environ)%string) parse_decimal parse_decimal
             ParseBool 20 (initial_world ∅))
  = Ok tt.
Proof. vm_compute. split; reflexivity. Qed.

(** ** A run in which nothing fails *)

Section QuietRun.

Variable E : Env.
Variable filepath_Dir : string -> string.
Variable debug : bool.
Hypothesis Hquiet : quiet E.

Variable drives : list string.
Variable tree : bool.
Variable Sz T : Z.
Variable fuel : nat.
Hypothesis Hdrives : drives <> [].
Hypothesis HS : 0 <= Sz < 2 ^ 63.
Hypothesis HT : 0 <= T < 2 ^ 62.
Hypothesis Hfuel : (1 <= fuel)%nat.
Hypothesis Hblocks : Sz <= Z.of_nat fuel * readBlockSize.

Local Abbreviation write_to' := (write_to E filepath_Dir debug).
Local Abbreviation write' := (write E join_clean filepath_Dir debug).
Local Abbreviation task' := (task E join_clean filepath_Dir debug).
Local Abbreviation concurrentWrite' := (concurrentWrite E join_clean filepath_Dir debug).
Local Abbreviation done_to := (written_up_to E drives tree Sz T).
Local Abbreviation path := (path_of E drives tree).

Lemma drive_of_lookup obj :
  drives !! Z.to_nat (rand_Intn E obj mod len_ drives) = Some (drive_of E drives obj).
Proof.
  unfold drive_of.
  assert (0 < len_ drives) as Hlen by (unfold len_; destruct drives; [done|simpl; lia]).
  pose proof (Z.mod_pos_bound (rand_Intn E obj) (len_ drives) Hlen) as Hm.
  destruct (lookup_lt_is_Some_2 drives (Z.to_nat (rand_Intn E obj mod len_ drives)))
    as [d Hd]; [unfold len_ in *; lia|].
  by rewrite Hd.
Qed.

(** The goroutine of the next object: it succeeds, and the object is
    written. *)
Lemma task_quiet obj i ts w :
  0 <= obj -> 0 <= i < fs_len ts -> fs_off ts = obj -> obj + i < T ->
  done_to (obj + i) w ->
  exists w', task' fuel obj drives Sz ts tree i w = (Ok tt, w') /\
             done_to (obj + i + 1) w'.
Proof.
  intros Hobj Hi Hoff Hlt (Htab & Hsized & Hzero & Hlen & Hdone & Hsize & Hfiles & Hdom).
  unfold task. rewrite (to_int64_small (obj + i)) by lia.
  set (n := obj + i) in *.
  assert (files w !! path n = None) as Hfree.
  { destruct (files w !! path n) as [c|] eqn:Hc; [|done].
    destruct (Hdom (path n)) as (j & Hj & Heq); [by rewrite Hc|].
    apply object_name_inj in Heq. lia. }
  destruct (write_to_quiet E filepath_Dir debug Hquiet fuel n (path n) Sz w
              Hfree Hsized ltac:(lia) Hfuel Hblocks) as (w1 & Hrun).
  assert (write' fuel n drives Sz tree w = (Ok (elapsed E n, None), w1)) as Hw.
  { rewrite (write_pick E join_clean filepath_Dir debug fuel n drives _ Sz tree w
               (drive_of_lookup n)).
    exact Hrun. }
  rewrite (bind_ok _ _ _ _ _ Hw). cbv beta iota.
  destruct (write_to_ok_post E filepath_Dir debug fuel n (path n) Sz w _ w1 Hzero Hrun)
    as (_ & _ & Hf1 & Hz1 & Hs1 & Hi1 & _).
  destruct (write_to_returns E filepath_Dir debug fuel n (path n) Sz w (elapsed E n) None w1)
    as [_ Ht1]; [by rewrite Htab|done|].
  destruct Ht1 as [Ht1|(_ & e & He & _)]; [|discriminate].
  unfold float_store.
  replace ((i <? 0) || (fs_len ts <=? i)) with false
    by (symmetry; apply orb_false_iff; split; [apply Z.ltb_ge|apply Z.leb_gt]; lia).
  eexists. split; [reflexivity|].
  unfold written_up_to. cbn [fdtab pool intervals files set_intervals pool_sized pool_zero].
  rewrite Hoff. fold n.
  split; [by rewrite Ht1|]. split; [by apply Hs1|]. split; [done|].
  assert (Z.to_nat n < length (intervals w))%nat as Hn by (unfold len_ in Hlen; lia).
  split. { unfold len_. rewrite length_insert, Hi1. exact Hlen. }
  split.
  { intros j Hj. cbn [intervals set_intervals]. rewrite Hi1.
    destruct (decide (j = n)) as [->|Hne].
    - by apply list_lookup_insert_eq.
    - rewrite list_lookup_insert_ne by lia. apply Hdone. lia. }
  split. { rewrite Hf1, map_size_insert_None by done. lia. }
  split.
  - intros j Hj. rewrite Hf1. destruct (decide (j = n)) as [->|Hne].
    + apply lookup_insert_eq.
    + rewrite lookup_insert_ne; [apply Hfiles; lia|].
      intros Heq. apply object_name_inj in Heq. lia.
  - intros p. rewrite Hf1. destruct (decide (p = path n)) as [->|Hne].
    + intros _. exists n. split; [lia|done].
    + rewrite lookup_insert_ne by done. intros Hp.
      destruct (Hdom p Hp) as (j & Hj & ->). exists j. split; [lia|done].
Qed.

(** The goroutines of a batch, from index [a] of its slice on. *)
Lemma batch_quiet obj ts (m : nat) a w :
  0 <= obj -> 0 <= a -> fs_off ts = obj ->
  a + Z.of_nat m <= fs_len ts -> obj + a + Z.of_nat m <= T ->
  done_to (obj + a) w ->
  exists w',
    forM_ (seqZ a (Z.of_nat m))
          (fun i => emit (EvGo (to_int64 (obj + i))) ;;;
                    task' fuel obj drives Sz ts tree i) w = (Ok tt, w') /\
    done_to (obj + a + Z.of_nat m) w'.
Proof.
  intros Hobj. revert a w. induction m as [|m IH]; intros a w Ha Hoff Hlen HT' Hdone.
  - exists w. split; [done|]. by rewrite Z.add_0_r.
  - rewrite seqZ_cons by lia. cbn [forM_].
    destruct (task_quiet obj a ts (set_trace (trace w ++ [EvGo (to_int64 (obj + a))]) w))
      as (w1 & Hrun & Hdone1); try done; try lia.
    destruct (IH (Z.succ a) w1) as (w' & Hrest & Hdone'); try done; try lia.
    { by replace (obj + Z.succ a) with (obj + a + 1) by lia. }
    exists w'. split.
    + unfold bind at 1. unfold bind at 1. unfold emit, modify. cbv beta iota.
      rewrite Hrun. replace (Z.pred (Z.of_nat (S m))) with (Z.of_nat m) by lia.
      exact Hrest.
    + by replace (obj + a + Z.of_nat (S m))
        with (obj + Z.succ a + Z.of_nat m) by lia.
Qed.

(** A batch of the next [n] objects. *)
Lemma concurrentWrite_quiet obj n ts w :
  0 <= obj -> 0 <= n -> fs_off ts = obj -> n <= fs_len ts -> obj + n <= T ->
  done_to obj w ->
  exists w', concurrentWrite' fuel obj drives Sz n ts tree w = (Ok tt, w') /\
             done_to (obj + n) w'.
Proof.
  intros Hobj Hn Hoff Hlen HT' Hdone. unfold concurrentWrite.
  replace (n <? 0) with false by (symmetry; apply Z.ltb_ge; lia).
  rewrite bind_ret.
  destruct (batch_quiet obj ts (Z.to_nat n) 0 w) as (w' & Hrun & Hdone');
    try done; try lia.
  { by rewrite Z.add_0_r. }
  rewrite Z2Nat.id in Hrun, Hdone' by lia. rewrite Z.add_0_r in Hdone'.
  exists (set_trace (trace w' ++ [EvWait]) w'). split; [|done].
  by rewrite (bind_ok _ _ _ _ _ Hrun).
Qed.

(** The loop of [main] from object [i] on, over full batches. *)
Lemma main_loop_quiet (k : nat) C i w :
  0 < C < 2 ^ 63 -> 0 <= i <= T -> (T - i) mod C = 0 -> T - i <= Z.of_nat k * C ->
  done_to i w ->
  exists w', main_loop E join_clean filepath_Dir debug k fuel drives C Sz T
                       (mkFloatSlice 0 T T) tree i w = (Ok tt, w') /\
             done_to T w'.
Proof.
  intros HC. revert i w. induction k as [|k IH]; intros i w Hi Hmod Hk Hdone;
    cbn [main_loop]; rewrite (to_int64_small T) by lia.
  - assert (i = T) as -> by lia. rewrite Z.ltb_irrefl. by exists w.
  - destruct (i <? T) eqn:HiT.
    2:{ apply Z.ltb_ge in HiT. assert (i = T) as -> by lia. by exists w. }
    apply Z.ltb_lt in HiT.
    assert (C <= T - i) as HCT.
    { destruct (Z_lt_ge_dec (T - i) C) as [Hlt|Hge]; [|lia].
      rewrite Z.mod_small in Hmod by lia. lia. }
    rewrite (to_int64_small (i + C)), (to_int64_small Sz) by lia.
    unfold float_slice. cbn [fs_cap fs_off].
    replace ((i + C <? 0) || (T <? i + C)) with false
      by (symmetry; apply orb_false_iff; split; apply Z.ltb_ge; lia).
    replace ((i <? 0) || (i + C <? i)) with false
      by (symmetry; apply orb_false_iff; split; apply Z.ltb_ge; lia).
    rewrite bind_ret.
    destruct (concurrentWrite_quiet i C (mkFloatSlice (0 + i) (i + C - i) (T - i)) w)
      as (w1 & Hrun & Hdone1); cbn [fs_off fs_len]; try done; try lia.
    rewrite (bind_ok _ _ _ _ _ Hrun).
    apply IH; try done; try lia.
    replace (T - (i + C)) with (T - i - 1 * C) by lia.
    rewrite <- Hmod. rewrite <- (Z.mod_add (T - i - 1 * C) 1 C) by lia.
    f_equal. lia.
Qed.

End QuietRun.

Lemma bind_ret_eq {A B} (a : A) (k : A -> M B) : bind (ret a) k = k a.
Proof. reflexivity. Qed.

Lemma main_drives_nonempty Pattern HasEllipses FindEllipsesPatterns Expand h
    (drives : list string) :
  main_drives Pattern HasEllipses FindEllipsesPatterns Expand h = Ok drives -> drives <> [].
Proof.
  unfold main_drives.
  destruct (parseDrives Pattern HasEllipses FindEllipsesPatterns Expand h) as [ds| | |];
    simpl; try discriminate.
  destruct (len_ ds =? 0) eqn:Hlen; [discriminate|]. intros [= <-] ->. done.
Qed.

(** X18. In an environment in which no system call fails and every
    write is complete, from an empty file system, with the options in
    range, the objects fewer than the concurrency or a positive
    concurrency dividing their number, and fuel for the batches and the
    blocks, [main] ends normally: it has created exactly T files, the
    file of object j holds FILESIZE null bytes, every descriptor is
    closed, and the four lines of the report are the last lines
    printed. *)
Theorem main_quiet_run E filepath_Dir debug Pattern HasEllipses FindEllipsesPatterns Expand
    (fuel : nat) cfg drives w :
  quiet E ->
  main_drives Pattern HasEllipses FindEllipsesPatterns Expand (DRIVES cfg) = Ok drives ->
  1 <= NFILES cfg -> 8 * NFILES cfg <= maxAlloc ->
  0 <= FILESIZE cfg < 2 ^ 63 ->
  CONCURRENT cfg < 2 ^ 63 ->
  NFILES cfg < CONCURRENT cfg \/
    (0 < CONCURRENT cfg /\ NFILES cfg mod CONCURRENT cfg = 0) ->
  (1 <= fuel)%nat ->
  FILESIZE cfg <= Z.of_nat fuel * readBlockSize ->
  NFILES cfg <= Z.of_nat fuel ->
  files w = ∅ -> fdtab w = ∅ -> pool w = [] ->
  exists w',
    main E join_clean filepath_Dir debug Pattern HasEllipses FindEllipsesPatterns Expand
         fuel cfg w = (Ok tt, w') /\
    size (files w') = Z.to_nat (NFILES cfg) /\
    (forall j, 0 <= j < NFILES cfg ->
       files w' !! path_of E drives (TREE cfg) j
       = Some (replicate (Z.to_nat (FILESIZE cfg)) x00)) /\
    fdtab w' = ∅ /\
    exists out xs lo hi,
      stdout w' = out ++ [Stat "Mean time taken" (MeanOf xs);
                          Stat "Standard deviation time taken" (StdDevOf xs);
                          Stat "Fastest time taken" (DurationOf lo);
                          Stat "Slowest time taken" (DurationOf hi)].
Proof.
  intros Hquiet Hdrives HT Hmax HS HC Hdiv Hfuel Hblocks Hbatches Hfiles Htab Hpool.
  pose proof (main_drives_nonempty _ _ _ _ _ _ Hdrives) as Hne.
  assert (NFILES cfg < 2 ^ 62) as HT62 by (unfold maxAlloc in Hmax; lia).
  set (T := NFILES cfg) in *. set (C := CONCURRENT cfg) in *.
  set (w2 := set_intervals (replicate (Z.to_nat T) 0) w).
  assert (written_up_to E drives (TREE cfg) (FILESIZE cfg) T 0 w2) as Hstart.
  { unfold written_up_to, pool_sized, pool_zero. subst w2.
    cbn [fdtab pool intervals files set_intervals]. rewrite Hfiles, Hpool.
    split; [done|]. split; [constructor|]. split; [constructor|].
    split; [unfold len_; rewrite length_replicate; lia|].
    split; [intros j Hj; lia|]. split; [done|]. split; [intros j Hj; lia|].
    intros p [c Hp]. by rewrite lookup_empty in Hp. }
  assert (exists w3,
            schedule E join_clean filepath_Dir debug Pattern HasEllipses FindEllipsesPatterns
                     Expand fuel cfg w = (Ok (mkFloatSlice 0 T T), w3) /\
            written_up_to E drives (TREE cfg) (FILESIZE cfg) T T w3) as (w3 & Hsched & Hdone).
  { unfold schedule. rewrite Hdrives, bind_liftR_ok.
    rewrite (bind_ok _ _ _ _ _ (make_float64s_ok T w ltac:(lia) Hmax)).
    fold w2. fold T C. rewrite (to_int64_small T) by lia.
    destruct (T <? C) eqn:Hlt.
    - apply Z.ltb_lt in Hlt. rewrite (to_int64_small (FILESIZE cfg)) by lia.
      unfold float_slice. cbn [fs_cap fs_off].
      replace ((T <? 0) || (T <? T)) with false
        by (symmetry; apply orb_false_iff; split; apply Z.ltb_ge; lia).
      replace ((0 <? 0) || (T <? 0)) with false
        by (symmetry; apply orb_false_iff; split; apply Z.ltb_ge; lia).
      rewrite bind_ret_eq.
      destruct (concurrentWrite_quiet E filepath_Dir debug Hquiet drives (TREE cfg)
                  (FILESIZE cfg) T fuel Hne HS ltac:(lia) Hfuel Hblocks
                  0 T (mkFloatSlice (0 + 0) (T - 0) (T - 0)) w2)
        as (w3 & Hrun & Hdone); cbn [fs_off fs_len]; try done; try lia.
      exists w3. split; [|done].
      unfold bind at 1. rewrite Hrun. done.
    - apply Z.ltb_ge in Hlt. destruct Hdiv as [Hdiv|[HCpos Hmod]]; [lia|].
      destruct (main_loop_quiet E filepath_Dir debug Hquiet drives (TREE cfg)
                  (FILESIZE cfg) T fuel Hne HS ltac:(lia) Hfuel Hblocks
                  fuel C 0 w2)
        as (w3 & Hrun & Hdone); try done; try lia.
      { by rewrite Z.sub_0_r. }
      { nia. }
      exists w3. split; [|done].
      unfold bind at 1. rewrite Hrun. done. }
  destruct Hdone as (Htab3 & _ & _ & Hlen3 & _ & Hsize3 & Hfiles3 & _).
  destruct (report_lines T (mkFloatSlice 0 T T) w3 eq_refl Hlen3 HT)
    as (lo & hi & _ & _ & Hrep).
  eexists. split.
  { unfold main. rewrite (bind_ok _ _ _ _ _ Hsched). exact Hrep. }
  cbn [files fdtab stdout set_stdout set_intervals].
  split; [done|]. split; [done|]. split; [done|]. eauto.
Qed.

Lemma main_quiet_run_witness :
  let cfg := mkConfig "/tmp/a,/tmp/b" 2 4096 4 false in
  exists w',
    run quiet_env false 20 cfg = (Ok tt, w') /\
    size (files w') = 4%nat /\
    (forall j, 0 <= j < 4 ->
       files w' !! path_of quiet_env ["/tmp/a"; "/tmp/b"]%string false j
       = Some (replicate 4096 x00)) /\
    fdtab w' = ∅ /\
    exists out xs lo hi,
      stdout w' = out ++ [Stat "Mean time taken" (MeanOf xs);
                          Stat "Standard deviation time taken" (StdDevOf xs);
                          Stat "Fastest time taken" (DurationOf lo);
                          Stat "Slowest time taken" (DurationOf hi)].
Proof.
  intros cfg.
  apply (main_quiet_run quiet_env dir_clean false ellipses.Pattern ellipses.HasEllipses
           ellipses.FindEllipsesPatterns ellipses.Expand 20 cfg ["/tmp/a"; "/tmp/b"]%string
           (initial_world ∅)).
  - by repeat split.
  - reflexivity.
  - cbn. lia.
  - unfold maxAlloc. cbn. lia.
  - cbn. lia.
  - cbn. lia.
  - right. cbn. split; [lia|reflexivity].
  - lia.
  - unfold readBlockSize, MiByte. cbn. lia.
  - cbn. lia.
  - reflexivity.
  - reflexivity.
  - reflexivity.
Defined.

(** ** What a failed write leaves behind *)

Section FailedWrite.

Variable E : Env.
Variable filepath_Join : string -> string -> string.
Variable filepath_Dir : string -> string.
Variable debug : bool.

Local Abbreviation write_to' := (write_to E filepath_Dir debug).
Local Abbreviation name_of := (object_name E filepath_Join).

Lemma write_to_error_files fuel obj name fileSize w d e w' :
  pool_zero w ->
  write_to' fuel obj name fileSize w = (Ok (d, Some e), w') ->
  files w' = files w \/
  (files w !! name = None /\
   exists k : nat, files w' = <[name := replicate k x00]> (files w)).
Proof.
  intros Hzero Hrun.
  destruct (write_to_beside E filepath_Dir debug fuel obj name fileSize w) as (Hothers & _ & _).
  rewrite Hrun in Hothers. cbn [snd] in Hothers.
  unfold write_to in Hrun.
  rewrite (bind_ok _ _ _ _ _ (os_MkdirAll_eq E (filepath_Dir name) 493 w)) in Hrun.
  cbv beta iota in Hrun.
  destruct (sys_mkdirall E (filepath_Dir name)) as [e0|].
  { injection Hrun as _ _ <-. by left. }
  set (w1 := set_trace _ w) in *.
  apply bind_inv in Hrun as ([fd [e0|]] & w2 & Hopen & Hrun).
  { apply OpenFileDirectIO_error_inv in Hopen as ->. injection Hrun as _ _ <-. by left. }
  apply OpenFileDirectIO_excl_inv in Hopen as (Hop & Hfree & -> & ->).
  change (next_fd w1) with (next_fd w) in *. change (files w1) with (files w) in Hfree.
  right. split; [done|].
  assert (forall k : nat, files w' !! name = Some (replicate k x00) ->
            files w' = <[name := replicate k x00]> (files w)) as Hmap.
  { intros k Hk. apply map_eq. intros p. destruct (decide (p = name)) as [->|Hne].
    - by rewrite lookup_insert_eq.
    - rewrite lookup_insert_ne by done. by apply Hothers. }
  set (fd := next_fd w) in *. set (w2 := created name write_flags 438 w1) in *.
  assert (zero_file name fd 0 w2) as Hz2.
  { split; [done|]. split.
    - unfold w2, created. cbn. apply lookup_insert_eq.
    - eexists. exact (fdtab_created name write_flags 438 w1). }
  apply bind_inv in Hrun as (ferr & w3 & Hfa & Hrun).
  assert (zero_file name fd 0 w3 /\ pool w3 = pool w) as [Hz3 Hp3].
  { destruct (fileSize >? 0); [|by injection Hfa as _ <-].
    pose proof (Fallocate_world E fd 0 fileSize w2) as Hw. rewrite Hfa in Hw.
    cbn [snd] in Hw. by destruct Hw as [-> | ->]. }
  destruct ferr as [e0|].
  { injection Hrun as _ _ <-. exists 0%nat. apply Hmap. by destruct Hz3 as (_ & ? & _). }
  apply bind_inv in Hrun as (b & w4 & Hget & Hrun).
  destruct Hz3 as (_ & Hfile3 & dd & Hfd3).
  apply pool_Get_zero in Hget as (Hbz & _ & Hf4 & Hd4 & _);
    [|by unfold pool_zero; rewrite Hp3].
  apply bind_inv in Hrun as ([b' [written cerr]] & w5 & Hcopy & Hrun).
  apply (CopyAligned_loop_zero E name fd) in Hcopy as (_ & _ & Hfile5 & _); [|done|].
  2:{ split; [done|]. rewrite Hf4, Hd4. eauto. }
  apply bind_inv in Hrun as (res & w6 & Hres & Hrun).
  assert (files w6 = files w5) as Hf6.
  { destruct cerr as [e0|]; [by injection Hres as _ <-|].
    destruct (negb _); [by injection Hres as _ <-|].
    cbv zeta in Hres. apply bind_inv in Hres as ([] & w7 & Hpr & Hres).
    injection Hres as _ <-. destruct (_ && _); by injection Hpr as <-. }
  apply bind_inv in Hrun as ([] & w7 & Hput & Hrun). injection Hput as <-.
  apply bind_inv in Hrun as ([] & w8 & Hsync & Hrun). injection Hsync as <-.
  apply bind_inv in Hrun as ([] & w9 & Hclose & Hrun). injection Hclose as <-.
  injection Hrun as _ <-.
  exists (Z.to_nat written). apply Hmap. cbn. by rewrite Hf6.
Qed.

(** X19. [write] never removes the file it has created. When it
    returns an error, either the error came before the file was created
    and the file system is as before, or the new file is left behind,
    holding null bytes only (none after a failed preallocation, those
    written so far after a failed copy), and nothing else has
    changed. *)
Theorem write_failure_leaves_file fuel obj drives drive fileSize tree d e w :
  pool_zero w ->
  drives !! Z.to_nat (rand_Intn E obj mod len_ drives) = Some drive ->
  fst (write E filepath_Join filepath_Dir debug fuel obj drives fileSize tree w)
  = Ok (d, Some e) ->
  files (snd (write E filepath_Join filepath_Dir debug fuel obj drives fileSize tree w))
  = files w \/
  (files w !! name_of obj drive tree = None /\
   exists k : nat,
     files (snd (write E filepath_Join filepath_Dir debug fuel obj drives fileSize tree w))
     = <[name_of obj drive tree := replicate k x00]> (files w)).
Proof.
  intros Hzero Hd Hok.
  rewrite (write_pick _ _ _ _ _ _ _ _ _ _ _ Hd) in *.
  destruct (write_to' fuel obj (name_of obj drive tree) fileSize w) as [r w'] eqn:Hrun.
  cbn [fst snd] in *. subst r.
  by apply write_to_error_files in Hrun.
Qed.

End FailedWrite.

(** ** A run without objects *)

Section NoObjects.

Variable E : Env.
Variable filepath_Join : string -> string -> string.
Variable filepath_Dir : string -> string.
Variable debug : bool.
Variable Pattern : Type.
Variable HasEllipses : string -> bool.
Variable FindEllipsesPatterns : string -> list Pattern * option error.
Variable Expand : Pattern -> list string.

(** X20. With NFILES = 0 and drives that resolve, whatever the
    concurrency, [main] writes nothing, prints the mean and the deviation
    over no sample, and then panics on [totalIntervals[0]]: a run without
    objects does not end normally. *)
Theorem main_no_objects fuel cfg drives w :
  main_drives Pattern HasEllipses FindEllipsesPatterns Expand (DRIVES cfg) = Ok drives ->
  NFILES cfg = 0 ->
  fst (main E filepath_Join filepath_Dir debug Pattern HasEllipses FindEllipsesPatterns
            Expand fuel cfg w) = Panic "index out of range" /\
  files (snd (main E filepath_Join filepath_Dir debug Pattern HasEllipses
                   FindEllipsesPatterns Expand fuel cfg w)) = files w /\
  stdout (snd (main E filepath_Join filepath_Dir debug Pattern HasEllipses
                    FindEllipsesPatterns Expand fuel cfg w))
  = stdout w ++ [Stat "Mean time taken" (MeanOf []);
                 Stat "Standard deviation time taken" (StdDevOf [])].
Proof.
  intros Hdrives HT.
  assert (exists w',
            main E filepath_Join filepath_Dir debug Pattern HasEllipses FindEllipsesPatterns
                 Expand fuel cfg w = (Panic "index out of range", w') /\
            files w' = files w /\
            stdout w' = stdout w ++ [Stat "Mean time taken" (MeanOf []);
                                     Stat "Standard deviation time taken" (StdDevOf [])])
    as (w' & -> & Hf & Hs); [|done].
  assert (exists w3,
            schedule E filepath_Join filepath_Dir debug Pattern HasEllipses
                     FindEllipsesPatterns Expand fuel cfg w = (Ok (mkFloatSlice 0 0 0), w3) /\
            files w3 = files w /\ stdout w3 = stdout w /\ intervals w3 = [])
    as (w3 & Hrun & Hf3 & Hs3 & Hi3).
  { unfold schedule. rewrite Hdrives, HT, bind_liftR_ok.
    rewrite (bind_ok _ _ _ _ _ (make_float64s_ok 0 w ltac:(lia) ltac:(unfold maxAlloc; lia))).
    change (to_int64 0) with 0. change (Z.to_nat 0) with 0%nat. cbn [replicate].
    destruct (0 <? CONCURRENT cfg).
    - eexists. split; [reflexivity|done].
    - exists (set_intervals [] w). split; [by destruct fuel|done]. }
  unfold main. rewrite (bind_ok _ _ _ _ _ Hrun).
  unfold report, Println, Print, float_load. cbn [fs_len].
  change ((0 <? 0) || (0 <=? 0)) with true. cbv iota.
  unfold bind, modify, get_world, liftR. cbn [intervals set_intervals stdout set_stdout].
  rewrite Hi3. change (Float64s []) with (@nil Z).
  eexists. split; [reflexivity|]. cbn [files stdout set_stdout set_intervals].
  split; [done|]. by rewrite Hs3, <- app_assoc.
Qed.

End NoObjects.

Lemma write_failure_leaves_file_witness :
  let w := initial_world ∅ in
  let w' := snd (write nospace_env join_clean dir_clean false 10 0 ["/tmp/a"%string] 4096 false
                   w) in
  files w' = files w \/
  (files w !! object_name nospace_env join_clean 0 "/tmp/a" false = None /\
   exists k : nat,
     files w' = <[object_name nospace_env join_clean 0 "/tmp/a" false := replicate k x00]>
                  (files w)).
Proof.
  intros w w'.
  apply (write_failure_leaves_file nospace_env join_clean dir_clean false 10 0
           ["/tmp/a"%string] "/tmp/a" 4096 false 0 (Errno ENOSPC) w).
  - constructor.
  - reflexivity.
  - vm_compute. reflexivity.
Defined.

Lemma main_no_objects_witness :
  fst (run quiet_env false 20 (mkConfig "/tmp/a" 2 4096 0 false)) = Panic "index out of range".
Proof.
  refine (proj1 (main_no_objects quiet_env join_clean dir_clean false ellipses.Pattern
                   ellipses.HasEllipses ellipses.FindEllipsesPatterns ellipses.Expand 20
                   (mkConfig "/tmp/a" 2 4096 0 false) ["/tmp/a"%string] (initial_world ∅)
                   _ _)); reflexivity.
Defined.
